(** * PyTopo3D: the optimisation driver [top3d] and its caller

    A shallow embedding of [pytopo3d/core/optimizer.py] (function [top3d])
    and of [pytopo3d/runners/experiment.py] (function
    [execute_optimization]).

    Conventions of the embedding.
    - Python [int] is [Z]; Python and numpy [float] is [Q], i.e. the
      arithmetic is exact.  The IEEE specials ([inf], [nan]) have no
      counterpart; the one place where the source stores [inf]
      ([c_prev]) is an [option].
    - A one-dimensional numpy array is a [list]; the three-dimensional
      fields [x], [xPhys], [dc], [dv], [ce] and the obstacle mask are an
      [ndarray]: the shape together with the elements in column-major
      order, the order that [ravel(order="F")] and
      [reshape(..., order="F")] of the source use everywhere.
    - A numpy primitive or a utility that can raise delivers a [res]: a
      value or the exception.  The driver runs in the monad [M], which
      records the logger calls and the calls to the utilities, in program
      order, in a trace of [event]s and ends in an [outcome].
    - The numerical utilities imported by [optimizer.py]
      ([build_force_vector], [build_supports], [lk_H8], [build_edof],
      [build_filter], [solver], [element_compliance],
      [optimality_criteria_update]) are the fields of the class
      [Collaborators]; they are taken to be functions of their arguments
      that deliver arrays of their own and do not write to the arrays
      they receive.

    Further on, the embedding covers the command line of
    [pytopo3d/cli/parser.py] ([parse_args], [generate_experiment_name],
    [create_config_dict]) and, of [experiment.py], the level selection of
    [setup_experiment] and [export_result_to_stl].  There a namespace is a
    finite map from attribute names to values, a [str] is a [string], and
    a [float] of the command line is a binary64 number, which is stored
    and printed but not computed with. *)

From Stdlib Require Import String ZArith QArith Qminmax Qround Lia Lqa.
From Stdlib Require Import Ascii DecimalString DecimalZ Floats.
From stdpp Require Import base option list.
From stdpp Require Import gmap strings.

Local Open Scope Z_scope.

(** ** Exceptions, events and the effect monad *)

Inductive exn : Type :=
| TypeError
| ValueError
| IndexError
| ZeroDivisionError
| UnboundLocalError
| AttributeError
| CollaboratorError (code : Z).

(** What a primitive or an imported utility delivers. *)
Inductive res (A : Type) : Type :=
| Return (a : A)
| Throw (e : exn).
Arguments Return {A} a.
Arguments Throw {A} e.

(** How a run of the driver ends; [OutOfFuel] is the model's own, for a
    loop cut off by its fuel. *)
Inductive outcome (A : Type) : Type :=
| Ok (a : A)
| Raise (e : exn)
| OutOfFuel.
Arguments Ok {A} a.
Arguments Raise {A} e.
Arguments OutOfFuel {A}.

Definition to_outcome {A} (r : res A) : outcome A :=
  match r with
  | Return a => Ok a
  | Throw e => Raise e
  end.

Inductive collaborator : Type :=
| BuildForceVector
| BuildSupports
| LkH8
| BuildEdof
| BuildFilter
| Solver
| ElementCompliance
| OptimalityCriteriaUpdate.

Inductive level : Type := DEBUG | INFO | WARNING.

(** The messages of the logger calls, with the values they format. *)
Inductive message : Type :=
| MsgDesignElements (design_nele nele : Z)
| MsgBuildingForce
| MsgElementStiffness
| MsgBuildingEdof
| MsgBuildingFilter (rmin : Q)
| MsgInitializing (volfrac : Q)
| MsgUsingSolver
| MsgStarting (tolx : Q) (maxloop : Z)
| MsgIteration (loop : Z) (c : Q) (c_delta : option Q) (vol change : Q)
| MsgMaxIterations (maxloop : Z)
| MsgConverged (loop : Z)
| MsgFinalObjective (c : Q)
| MsgFinalVolume (vol volfrac : Q)
| MsgBenchmarkingEnabled
| MsgBenchmarkingMissing
| MsgStartingOptimization (nelx nely nelz : Z)
| MsgOptimizationParameters (tolx : Q) (maxloop : Z)
    (save_history : bool) (history_frequency : Z)
| MsgHistoryCaptured.

Inductive event : Type :=
| Call (f : collaborator)
| Log (l : level) (m : message)
| PbarOpen (total : Z)
| PbarUpdate
| PbarClose
| Display3D (disp_thres : Q).

(** A computation yields the events it emitted and how it ended. *)
Definition M (A : Type) : Type := (list event * outcome A)%type.

Definition trace {A} (m : M A) : list event := fst m.
Definition result {A} (m : M A) : outcome A := snd m.

#[global] Instance M_ret : MRet M := fun A a => ([], Ok a).
#[global] Instance M_bind : MBind M := fun A B f m =>
  match m with
  | (t, Ok a) => let '(t', r) := f a in (t ++ t', r)
  | (t, Raise e) => (t, Raise e)
  | (t, OutOfFuel) => (t, OutOfFuel)
  end.

Definition raise {A} (e : exn) : M A := ([], Raise e).
Definition emit (e : event) : M unit := ([e], Ok tt).
Definition log (l : level) (m : message) : M unit := emit (Log l m).

(** Lifts the outcome of an exception-raising primitive. *)
Definition lift {A} (r : res A) : M A := ([], to_outcome r).

(** A call to one of the imported utilities: the call is recorded, then
    the utility's outcome is the outcome of the call. *)
Definition call {A} (f : collaborator) (r : res A) : M A :=
  ([Call f], to_outcome r).

Definition obind {A B} (r : res A) (f : A -> res B) : res B :=
  match r with
  | Return a => f a
  | Throw e => Throw e
  end.

(** ** numpy and scipy.sparse primitives used by [top3d] *)

Local Open Scope Q_scope.

Definition shape3 : Type := (Z * Z * Z)%type.

Definition shape_size (sh : shape3) : Z :=
  let '(d0, d1, d2) := sh in (d0 * d1 * d2)%Z.

Definition shape_nonneg (sh : shape3) : bool :=
  let '(d0, d1, d2) := sh in (0 <=? d0)%Z && (0 <=? d1)%Z && (0 <=? d2)%Z.

Definition shape_eqb (s t : shape3) : bool :=
  let '(a0, a1, a2) := s in
  let '(b0, b1, b2) := t in
  (a0 =? b0)%Z && (a1 =? b1)%Z && (a2 =? b2)%Z.

(** A three-dimensional array: its shape and its elements in column-major
    order. *)
Record ndarray (A : Type) : Type := mk_ndarray {
  shape : shape3;
  items : list A
}.
Arguments mk_ndarray {A} shape items.
Arguments shape {A} n.
Arguments items {A} n.

Definition wf_ndarray {A} (a : ndarray A) : Prop :=
  shape_nonneg (shape a) = true /\
  length (items a) = Z.to_nat (shape_size (shape a)).

(** [np.full(shape, v)], and [np.zeros(shape, dtype)] at [v] the zero of
    the element type: a negative dimension is a [ValueError]. *)
Definition np_full {A} (sh : shape3) (v : A) : res (ndarray A) :=
  if shape_nonneg sh
  then Return (mk_ndarray sh (replicate (Z.to_nat (shape_size sh)) v))
  else Throw ValueError.

(** [np.zeros(n)] for the displacement vector. *)
Definition np_zeros1 (n : Z) : res (list Q) :=
  if (0 <=? n)%Z then Return (replicate (Z.to_nat n) 0) else Throw ValueError.

Definition np_count_nonzero (m : ndarray bool) : Z :=
  Z.of_nat (length (filter (fun b => b = true) (items m))).

(** [a.ravel(order="F")]. *)
Definition ravel_F {A} (a : ndarray A) : list A := items a.

(** [v.reshape(shape, order="F")] for a shape without negative entry
    ([top3d] reshapes only after [np.full] has accepted the same shape):
    the sizes must agree. *)
Definition reshape_F {A} (v : list A) (sh : shape3) : res (ndarray A) :=
  if shape_nonneg sh && (Z.of_nat (length v) =? shape_size sh)%Z
  then Return (mk_ndarray sh v)
  else Throw ValueError.

(** [a[mask] = v] for a boolean mask with as many dimensions as [a]: the
    shapes must be equal, else [IndexError]. *)
Definition mask_assign {A} (a : ndarray A) (mask : ndarray bool) (v : A)
  : res (ndarray A) :=
  if shape_eqb (shape a) (shape mask)
  then Return (mk_ndarray (shape a)
             (zip_with (fun (b : bool) u => if b then v else u)
                (items mask) (items a)))
  else Throw IndexError.

Definition qsum (l : list Q) : Q := fold_left Qplus l 0.

(** [a[~mask].mean()]; the mean of an empty selection, [nan] in numpy, is
    the quotient by zero of [Q]. *)
Definition mean_outside_mask (a : ndarray Q) (mask : ndarray bool)
  : res Q :=
  if shape_eqb (shape a) (shape mask)
  then
    let sel := omap (fun p : bool * Q => if p.1 then None else Some p.2)
                 (zip (items mask) (items a)) in
    Return (qsum sel / inject_Z (Z.of_nat (length sel)))
  else Throw IndexError.

Definition amap {A B} (f : A -> B) (a : ndarray A) : ndarray B :=
  mk_ndarray (shape a) (map f (items a)).

(** Element-wise product of two arrays built from the same shape. *)
Definition amul (a b : ndarray Q) : ndarray Q :=
  mk_ndarray (shape a) (zip_with Qmult (items a) (items b)).

(** Element-wise binary operation on one-dimensional arrays with numpy's
    broadcasting of a length-one operand. *)
Definition broadcast2 (f : Q -> Q -> Q) (u v : list Q) : res (list Q) :=
  if (length u =? length v)%nat then Return (zip_with f u v)
  else match v with
       | [b] => Return (map (fun a => f a b) u)
       | _ => match u with
              | [a] => Return (map (f a) v)
              | _ => Throw ValueError
              end
       end.

(** [np.kron] of two one-dimensional arrays. *)
Definition np_kron (u v : list Q) : list Q :=
  flat_map (fun a => map (Qmult a) v) u.

(** [KE.ravel()]: row-major flattening of a two-dimensional array. *)
Definition ravel_C (m : list (list Q)) : list Q := concat m.

(** [np.bincount(idx, weights=w, minlength=n)]: the weights are added, in
    the order of the input, into the slot their index names. *)
Definition bincount_step (out : list Q) (p : nat * Q) : list Q :=
  <[p.1 := nth p.1 out 0 + p.2]> out.

Definition np_bincount (idx : list nat) (w : list Q) (minlength : nat)
  : res (list Q) :=
  if (length idx =? length w)%nat
  then
    let n := foldr (fun i m => Nat.max (S i) m) minlength idx in
    Return (fold_left bincount_step (zip idx w) (replicate n 0))
  else Throw ValueError.

(** [dst[:] = src] on a one-dimensional array. *)
Definition assign_all (dst src : list Q) : res (list Q) :=
  if (length src =? length dst)%nat then Return src
  else match src with
       | [a] => Return (map (fun _ => a) dst)
       | _ => Throw ValueError
       end.

(** numpy's handling of an integer index into an axis of length [n]:
    negative indices count from the end, anything outside [-n, n) is an
    [IndexError]. *)
Definition norm_index (n : nat) (i : Z) : res nat :=
  if (0 <=? i)%Z && (i <? Z.of_nat n)%Z then Return (Z.to_nat i)
  else if (- Z.of_nat n <=? i)%Z && (i <? 0)%Z
       then Return (Z.to_nat (i + Z.of_nat n))
       else Throw IndexError.

Fixpoint norm_indices (n : nat) (idx : list Z) : res (list nat) :=
  match idx with
  | [] => Return []
  | i :: idx' =>
      obind (norm_index n i) (fun j =>
      obind (norm_indices n idx') (fun js => Return (j :: js)))
  end.

(** [v[idx]] with an integer index array. *)
Definition take (v : list Q) (idx : list Z) : res (list Q) :=
  obind (norm_indices (length v) idx) (fun js =>
  Return (map (fun j => nth j v 0) js)).

(** [v[idx] = src] with an integer index array: the values are broadcast
    to the index first, then written in order. *)
Definition put (v : list Q) (idx : list Z) (src : list Q) : res (list Q) :=
  obind (match src with
         | [a] => Return (map (fun _ => a) idx)
         | _ => if (length src =? length idx)%nat then Return src
                else Throw ValueError
         end) (fun vals =>
  obind (norm_indices (length v) idx) (fun js =>
  Return (fold_left (fun acc (p : nat * Q) => <[p.1 := p.2]> acc)
        (zip js vals) v))).

(** A [scipy.sparse] matrix as used for the filter: the number of columns
    and, per row, the stored (column, weight) entries. *)
Record sparse : Type := mk_sparse {
  ncols : nat;
  rows : list (list (nat * Q))
}.

Definition row_dot (v : list Q) (row : list (nat * Q)) : Q :=
  qsum (map (fun p : nat * Q => p.2 * nth p.1 v 0) row).

(** [H * v] for a sparse matrix and a one-dimensional array. *)
Definition spmv (H : sparse) (v : list Q) : res (list Q) :=
  if (ncols H =? length v)%nat then Return (map (row_dot v) (rows H))
  else Throw ValueError.

(** ** The assembly index map (optimizer.py, lines 107-114 and 150-158) *)

Definition coord : Type := (Z * Z)%type.

(** Lexicographic order on (row, column) pairs, the order of
    [np.unique(..., axis=0)]. *)
Definition coord_compare (p q : coord) : comparison :=
  match (p.1 ?= q.1)%Z with
  | Eq => (p.2 ?= q.2)%Z
  | Lt => Lt
  | Gt => Gt
  end.

Definition coord_eqb (p q : coord) : bool :=
  (p.1 =? q.1)%Z && (p.2 =? q.2)%Z.

Fixpoint insert_row (p : coord) (u : list coord) : list coord :=
  match u with
  | [] => [p]
  | q :: u' =>
      match coord_compare p q with
      | Lt => p :: q :: u'
      | Eq => q :: u'
      | Gt => q :: insert_row p u'
      end
  end.

(** The sorted rows without repetition. *)
Definition unique_rows (pairs : list coord) : list coord :=
  fold_left (fun u p => insert_row p u) pairs [].

Fixpoint row_index (p : coord) (u : list coord) : nat :=
  match u with
  | [] => O
  | q :: u' => if coord_eqb p q then O else S (row_index p u')
  end.

(** [np.unique(pairs, axis=0, return_inverse=True)]: the sorted distinct
    rows and, for every input row, its position among them. *)
Definition np_unique_rows (pairs : list coord) : list coord * list nat :=
  let u := unique_rows pairs in
  (u, map (fun p => row_index p u) pairs).

(** [np.vstack((a, b)).T]: the two index arrays must have one length. *)
Definition vstack_T (a b : list Z) : res (list coord) :=
  if (length a =? length b)%nat then Return (zip a b) else Throw ValueError.

(** A CSR matrix: its (square) shape, the coordinates of the stored
    entries in row-major order, and the stored values [data]. *)
Record csr : Type := mk_csr {
  csr_n : Z;
  csr_coords : list coord;
  csr_data : list Q
}.

Definition coord_in_range (n : Z) (p : coord) : bool :=
  (0 <=? p.1)%Z && (p.1 <? n)%Z && (0 <=? p.2)%Z && (p.2 <? n)%Z.

(** [sp.csr_matrix((data, (row, col)), shape=(n, n))] on coordinates that
    are already sorted and distinct, as [np.unique] delivers them: the
    stored entries keep that order.  Coordinates outside the shape are a
    [ValueError]. *)
Definition csr_matrix (data : list Q) (coords : list coord) (n : Z)
  : res csr :=
  if (0 <=? n)%Z && forallb (coord_in_range n) coords
  then Return (mk_csr n coords data)
  else Throw ValueError.

Definition csr_entries (K : csr) : list (coord * Q) :=
  zip (csr_coords K) (csr_data K).

Fixpoint assoc_get (p : coord) (m : list (coord * Q)) : Q :=
  match m with
  | [] => 0
  | (q, w) :: m' => if coord_eqb p q then w else assoc_get p m'
  end.

(** [K[idx, :][:, idx]], handed to the solver as its rows. *)
Definition submatrix (K : csr) (idx : list Z) : res (list (list Q)) :=
  obind (norm_indices (Z.to_nat (csr_n K)) idx) (fun js =>
  Return (map (fun r =>
        map (fun c => assoc_get (Z.of_nat r, Z.of_nat c) (csr_entries K)) js)
      js)).

(** Lines 107-114: the index map and the matrix template, built once. *)
Definition build_assembly (iK jK : list Z) (ndof : Z)
  : res (list nat * nat * csr) :=
  obind (vstack_T (map (fun i => (i - 1)%Z) iK)
                  (map (fun j => (j - 1)%Z) jK)) (fun pairs =>
  let '(unique_pairs, assembly_map) := np_unique_rows pairs in
  let nUnique := length unique_pairs in
  obind (csr_matrix (replicate nUnique 0) unique_pairs ndof) (fun K_template =>
  Return (assembly_map, nUnique, K_template))).

(** Lines 150-158: the stored values of the template are overwritten with
    the element contributions summed through the index map. *)
Definition assemble (K_template : csr) (assembly_map : list nat)
    (nUnique : nat) (stiff_vals : list Q) (KE : list (list Q))
  : res csr :=
  let sK_full := np_kron stiff_vals (ravel_C KE) in
  obind (np_bincount assembly_map sK_full nUnique) (fun K_data =>
  obind (assign_all (csr_data K_template) K_data) (fun data =>
  Return (mk_csr (csr_n K_template) (csr_coords K_template) data))).

(** Following the specification ("a from-scratch per-iteration rebuild",
    "summing duplicates"): the triples (row, column, value) are inserted
    one by one into a matrix kept sorted by coordinate, a repeated
    coordinate adding to the value already stored. *)
Fixpoint coo_add (p : coord) (v : Q) (m : list (coord * Q))
  : list (coord * Q) :=
  match m with
  | [] => [(p, v)]
  | (q, w) :: m' =>
      match coord_compare p q with
      | Lt => (p, v) :: (q, w) :: m'
      | Eq => (q, w + v) :: m'
      | Gt => (q, w) :: coo_add p v m'
      end
  end.

Definition rebuild_from_scratch (iK jK : list Z) (sK_full : list Q)
  : list (coord * Q) :=
  fold_left (fun m (t : coord * Q) => coo_add t.1 t.2 m)
    (zip (zip (map (fun i => (i - 1)%Z) iK) (map (fun j => (j - 1)%Z) jK))
         sK_full)
    [].

(** ** The filter (optimizer.py, lines 129, 180-181 and 196) *)

(** [(H * v.ravel(order="F") / Hs).reshape(shape, order="F")], the form
    applied to the densities [x] and [xnew]. *)
Definition filter_density (H : sparse) (Hs : list Q) (v : ndarray Q)
    (sh : shape3) : res (ndarray Q) :=
  obind (spmv H (ravel_F v)) (fun Hv =>
  obind (broadcast2 Qdiv Hv Hs) (fun q =>
  reshape_F q sh)).

(** [(H * (v.ravel(order="F") / Hs)).reshape(shape, order="F")], the form
    applied to the sensitivities [dc] and [dv]. *)
Definition filter_sensitivity (H : sparse) (Hs : list Q) (v : ndarray Q)
    (sh : shape3) : res (ndarray Q) :=
  obind (broadcast2 Qdiv (ravel_F v) Hs) (fun q =>
  obind (spmv H q) (fun Hq =>
  reshape_F Hq sh)).

(** ** The numerical utilities imported by optimizer.py *)

Class Collaborators : Type := {
  build_force_vector : Z -> Z -> Z -> Z -> res (list Q);
  build_supports : Z -> Z -> Z -> Z -> res (list Z * list Z);
  lk_H8 : Q -> res (list (list Q));
  build_edof : Z -> Z -> Z -> res (list (list Z) * list Z * list Z);
  build_filter : Z -> Z -> Z -> Q -> res (sparse * list Q);
  solver : list (list Q) -> list Q -> res (list Q);
  element_compliance :
    list Q -> list (list Z) -> list (list Q) -> res (list Q);
  optimality_criteria_update :
    ndarray Q -> ndarray Q -> ndarray Q -> Q -> sparse -> list Q -> Z ->
    ndarray bool -> Z -> res (ndarray Q * Q);
  (** numpy's [**] on floats, which has no rational counterpart *)
  float_power : Q -> Q -> Q
}.

(** ** The local variables of [top3d] *)

Record state : Type := mk_state {
  F : list Q;
  freedofs0 : list Z;
  fixeddof0 : list Z;
  KE : list (list Q);
  edofMat : list (list Z);
  assembly_map : list nat;
  nUnique : nat;
  H : sparse;
  Hs : list Q;
  mask : ndarray bool;
  design_nele : Z;
  K_template : csr;
  U : list Q;
  x : ndarray Q;
  xPhys : ndarray Q;
  loop : Z;
  change : Q;
  (** [None] is the initial [float("inf")] *)
  c_prev : option Q;
  (** [None]: the name is not bound yet *)
  c : option Q;
  current_volume_fraction : option Q
}.

Definition set_K_template (v : csr) (s : state) : state :=
  mk_state (F s) (freedofs0 s) (fixeddof0 s) (KE s) (edofMat s)
    (assembly_map s) (nUnique s) (H s) (Hs s) (mask s) (design_nele s)
    v (U s) (x s) (xPhys s) (loop s) (change s) (c_prev s) (c s)
    (current_volume_fraction s).

Definition set_U (v : list Q) (s : state) : state :=
  mk_state (F s) (freedofs0 s) (fixeddof0 s) (KE s) (edofMat s)
    (assembly_map s) (nUnique s) (H s) (Hs s) (mask s) (design_nele s)
    (K_template s) v (x s) (xPhys s) (loop s) (change s) (c_prev s) (c s)
    (current_volume_fraction s).

Definition set_design (xnew xPhys' : ndarray Q) (change' : Q) (s : state)
  : state :=
  mk_state (F s) (freedofs0 s) (fixeddof0 s) (KE s) (edofMat s)
    (assembly_map s) (nUnique s) (H s) (Hs s) (mask s) (design_nele s)
    (K_template s) (U s) xnew xPhys' (loop s) change' (c_prev s) (c s)
    (current_volume_fraction s).

Definition set_loop (v : Z) (s : state) : state :=
  mk_state (F s) (freedofs0 s) (fixeddof0 s) (KE s) (edofMat s)
    (assembly_map s) (nUnique s) (H s) (Hs s) (mask s) (design_nele s)
    (K_template s) (U s) (x s) (xPhys s) v (change s) (c_prev s) (c s)
    (current_volume_fraction s).

Definition set_objective (v : Q) (s : state) : state :=
  mk_state (F s) (freedofs0 s) (fixeddof0 s) (KE s) (edofMat s)
    (assembly_map s) (nUnique s) (H s) (Hs s) (mask s) (design_nele s)
    (K_template s) (U s) (x s) (xPhys s) (loop s) (change s) (Some v)
    (Some v) (current_volume_fraction s).

Definition set_current_volume_fraction (v : Q) (s : state) : state :=
  mk_state (F s) (freedofs0 s) (fixeddof0 s) (KE s) (edofMat s)
    (assembly_map s) (nUnique s) (H s) (Hs s) (mask s) (design_nele s)
    (K_template s) (U s) (x s) (xPhys s) (loop s) (change s) (c_prev s)
    (c s) (Some v).

(** ** [top3d] *)

Definition E0 : Q := 1.
Definition Emin : Q := 1 # 1000000000.
Definition nu : Q := 3 # 10.

Section Top3d.
Context `{Collaborators}.

Variables nelx nely nelz : Z.
Variables volfrac penal rmin disp_thres : Q.
Variable obstacle_mask : option (ndarray bool).
Variable tolx : Q.
Variable maxloop : Z.

Definition displayflag : bool := false.

Definition nele : Z := (nelx * nely * nelz)%Z.
Definition ndof : Z := (3 * (nelx + 1) * (nely + 1) * (nelz + 1))%Z.

(** The mask the run works with: the one supplied, or all [False]. *)
Definition effective_mask : res (ndarray bool) :=
  match obstacle_mask with
  | None => np_full (nely, nelx, nelz) false
  | Some m => Return m
  end.

Definition setup_trace : list event :=
  [Log DEBUG (MsgDesignElements
                (nele -
                 match effective_mask with
                 | Return m => np_count_nonzero m
                 | Throw _ => 0
                 end)%Z nele);
   Log DEBUG MsgBuildingForce;
   Call BuildForceVector; Call BuildSupports;
   Log DEBUG MsgElementStiffness; Call LkH8;
   Log DEBUG MsgBuildingEdof; Call BuildEdof;
   Log DEBUG (MsgBuildingFilter rmin); Call BuildFilter;
   Log DEBUG (MsgInitializing volfrac); Log INFO MsgUsingSolver;
   Log INFO (MsgStarting tolx maxloop); PbarOpen maxloop].

(** Lines 79-142: everything before the loop. *)
Definition top3d_setup : M state :=
  obstacle_mask ← match obstacle_mask with
                  | None => lift (np_full (nely, nelx, nelz) false)
                  | Some m => mret m
                  end;
  let design_nele := (nele - np_count_nonzero obstacle_mask)%Z in
  (* the f-string of the debug call divides by nele *)
  (if (nele =? 0)%Z then raise ZeroDivisionError else mret tt);;
  log DEBUG (MsgDesignElements design_nele nele);;
  log DEBUG MsgBuildingForce;;
  F ← call BuildForceVector (build_force_vector nelx nely nelz ndof);
  '(freedofs0, fixeddof0) ←
    call BuildSupports (build_supports nelx nely nelz ndof);
  U ← lift (np_zeros1 ndof);
  log DEBUG MsgElementStiffness;;
  KE ← call LkH8 (lk_H8 nu);
  log DEBUG MsgBuildingEdof;;
  '(edofMat, iK, jK) ← call BuildEdof (build_edof nelx nely nelz);
  '(assembly_map, nUnique, K_template) ← lift (build_assembly iK jK ndof);
  log DEBUG (MsgBuildingFilter rmin);;
  '(H, Hs) ← call BuildFilter (build_filter nelx nely nelz rmin);
  log DEBUG (MsgInitializing volfrac);;
  x ← lift (np_full (nely, nelx, nelz) volfrac);
  x ← lift (mask_assign x obstacle_mask 0);
  xPhys ← lift (filter_density H Hs x (nely, nelx, nelz));
  let loop := 0%Z in
  let change := 1 in
  log INFO MsgUsingSolver;;
  log INFO (MsgStarting tolx maxloop);;
  emit (PbarOpen maxloop);;
  mret (mk_state F freedofs0 fixeddof0 KE edofMat assembly_map nUnique H Hs
          obstacle_mask design_nele K_template U x xPhys loop change
          None None None).

(** Lines 147-225: one pass through the body of the loop. *)
Definition iteration (s : state) : M state :=
  let s := set_loop (loop s + 1)%Z s in
  (* 1) and 2) stiffness values, summed through the index map *)
  let xFlat := ravel_F (xPhys s) in
  let stiff_vals :=
    map (fun v => Emin + float_power v penal * (E0 - Emin)) xFlat in
  K ← lift (assemble (K_template s) (assembly_map s) (nUnique s)
              stiff_vals (KE s));
  let s := set_K_template K s in
  (* 3) reduced system *)
  K_ff ← lift (submatrix (K_template s) (freedofs0 s));
  F_f ← lift (take (F s) (freedofs0 s));
  U_f ← call Solver (solver K_ff F_f);
  U' ← lift (put (map (fun _ => 0) (U s)) (freedofs0 s) U_f);
  let s := set_U U' s in
  (* 4) compliance and sensitivities *)
  ce_flat ← call ElementCompliance
              (element_compliance (U s) (edofMat s) (KE s));
  ce ← lift (reshape_F ce_flat (nely, nelx, nelz));
  let c :=
    qsum (items (amul (amap (fun v => Emin + float_power v penal * (E0 - Emin))
                         (xPhys s)) ce)) in
  let c_delta := option_map (fun p => c - p) (c_prev s) in
  let s := set_objective c s in
  let dc :=
    amul (amap (fun v => - penal * (E0 - Emin) * float_power v (penal - 1))
            (xPhys s)) ce in
  let dv := amap (fun _ => 1) (xPhys s) in
  (* 5) filtered sensitivities, zero in the obstacle region *)
  dc ← lift (filter_sensitivity (H s) (Hs s) dc (nely, nelx, nelz));
  dv ← lift (filter_sensitivity (H s) (Hs s) dv (nely, nelx, nelz));
  dc ← lift (mask_assign dc (mask s) 0);
  dv ← lift (mask_assign dv (mask s) 0);
  (* 6) optimality criteria update *)
  '(xnew, change) ←
    call OptimalityCriteriaUpdate
      (optimality_criteria_update (x s) dc dv volfrac (H s) (Hs s) nele
         (mask s) (design_nele s));
  xnew ← lift (mask_assign xnew (mask s) 0);
  xPhys' ← lift (filter_density (H s) (Hs s) xnew (nely, nelx, nelz));
  xPhys' ← lift (mask_assign xPhys' (mask s) 0);
  let s := set_design xnew xPhys' change s in
  vol ← lift (mean_outside_mask (xPhys s) (mask s));
  let s := set_current_volume_fraction vol s in
  log DEBUG (MsgIteration (loop s) c c_delta vol change);;
  emit PbarUpdate;;
  (if displayflag then emit (Display3D disp_thres) else mret tt);;
  mret s.

(** Line 146: [while change > tolx and loop < maxloop]. *)
Definition loop_condition (s : state) : bool :=
  negb (Qle_bool (change s) tolx) && (loop s <? maxloop)%Z.

Fixpoint while_loop (fuel : nat) (s : state) : M state :=
  if loop_condition s then
    match fuel with
    | O => ([], OutOfFuel)
    | S fuel' => s' ← iteration s; while_loop fuel' s'
    end
  else mret s.

(** Lines 227-243: after the loop. *)
Definition top3d_finish (s : state) : M (ndarray Q) :=
  emit PbarClose;;
  (if (maxloop <=? loop s)%Z
   then log WARNING (MsgMaxIterations maxloop)
   else log INFO (MsgConverged (loop s)));;
  c ← match c s with
      | Some v => mret v
      | None => raise UnboundLocalError
      end;
  log INFO (MsgFinalObjective c);;
  vol ← match current_volume_fraction s with
        | Some v => mret v
        | None => raise UnboundLocalError
        end;
  log INFO (MsgFinalVolume vol volfrac);;
  mret (xPhys s).

(** The state in which the loop is left. *)
Definition top3d_loop : M state :=
  s ← top3d_setup; while_loop (Z.to_nat maxloop) s.

Definition top3d : M (ndarray Q) :=
  s ← top3d_loop; top3d_finish s.

End Top3d.

(** ** Calling [top3d] the way Python does *)

(** The values that flow through [execute_optimization]. *)
Inductive pyval : Type :=
| PyNone
| PyInt (z : Z)
| PyFloat (q : Q)
| PyBool (b : bool)
| PyMask (m : ndarray bool)
| PyArray (sh : list Z) (v : list Q)
| PyTracker.

(** The signature of [top3d] (optimizer.py, lines 27-38). *)
Definition top3d_parameters : list string :=
  ["nelx"; "nely"; "nelz"; "volfrac"; "penal"; "rmin"; "disp_thres";
   "obstacle_mask"; "tolx"; "maxloop"]%string.

Definition top3d_defaults : list (string * pyval) :=
  [("obstacle_mask", PyNone); ("tolx", PyFloat (1 # 100));
   ("maxloop", PyInt 2000)]%string.

Definition lookup_name (k : string) (l : list (string * pyval))
  : option pyval :=
  snd <$> find (fun p : string * pyval => String.eqb k p.1) l.

Fixpoint fill_parameters (params : list string)
    (given defaults : list (string * pyval)) : res (list pyval) :=
  match params with
  | [] => Return []
  | k :: params' =>
      obind (match lookup_name k given with
             | Some v => Return v
             | None => match lookup_name k defaults with
                       | Some v => Return v
                       | None => Throw TypeError
                       end
             end) (fun v =>
      obind (fill_parameters params' given defaults) (fun vs =>
      Return (v :: vs)))
  end.

(** Python's binding of the arguments of a call to a function whose
    parameters are all plain names: too many positional arguments, a
    keyword that is not a parameter, a parameter given twice and a
    required parameter left out are each a [TypeError], raised before the
    body runs. *)
Definition bind_arguments (params : list string)
    (defaults : list (string * pyval)) (positional : list pyval)
    (keywords : list (string * pyval)) : res (list pyval) :=
  if (length params <? length positional)%nat then Throw TypeError
  else if existsb (fun kw : string * pyval =>
                     negb (existsb (String.eqb kw.1) params)) keywords
  then Throw TypeError
  else
    let by_position := zip params positional in
    if existsb (fun kw : string * pyval =>
                  existsb (fun b : string * pyval => String.eqb kw.1 b.1)
                    by_position) keywords
    then Throw TypeError
    else fill_parameters params (by_position ++ keywords) defaults.

Definition as_int (v : pyval) : res Z :=
  match v with
  | PyInt z => Return z
  | PyBool b => Return (if b then 1 else 0)%Z
  | _ => Throw TypeError
  end.

Definition as_float (v : pyval) : res Q :=
  match v with
  | PyFloat q => Return q
  | PyInt z => Return (inject_Z z)
  | PyBool b => Return (if b then 1 else 0)
  | _ => Throw TypeError
  end.

Definition as_mask (v : pyval) : res (option (ndarray bool)) :=
  match v with
  | PyNone => Return None
  | PyMask m => Return (Some m)
  | _ => Throw TypeError
  end.

Definition of_ndarray (a : ndarray Q) : pyval :=
  let '(d0, d1, d2) := shape a in PyArray [d0; d1; d2] (items a).

Section Calls.
Context `{Collaborators}.

(** A call of [top3d] with positional and keyword arguments. *)
Definition call_top3d (positional : list pyval)
    (keywords : list (string * pyval)) : M pyval :=
  args ← lift (bind_arguments top3d_parameters top3d_defaults
                 positional keywords);
  match args with
  | [a_nelx; a_nely; a_nelz; a_volfrac; a_penal; a_rmin; a_disp_thres;
     a_mask; a_tolx; a_maxloop] =>
      nelx ← lift (as_int a_nelx);
      nely ← lift (as_int a_nely);
      nelz ← lift (as_int a_nelz);
      volfrac ← lift (as_float a_volfrac);
      penal ← lift (as_float a_penal);
      rmin ← lift (as_float a_rmin);
      disp_thres ← lift (as_float a_disp_thres);
      obstacle_mask ← lift (as_mask a_mask);
      tolx ← lift (as_float a_tolx);
      maxloop ← lift (as_int a_maxloop);
      r ← top3d nelx nely nelz volfrac penal rmin disp_thres obstacle_mask
            tolx maxloop;
      mret (of_ndarray r)
  | _ => raise TypeError
  end.

(** ** [execute_optimization] (experiment.py, lines 96-229) *)

Inductive logger_object : Type := Logger.

(** Every [k]-th element of a list, from offset [i]: the elements of the
    slice [a[i]] of a column-major array whose first axis has length [k]. *)
Definition slice_first_axis (k i : nat) (v : list Q) : list Q :=
  omap (fun p : nat * Q => if (p.1 mod k =? i)%nat then Some p.2 else None)
    (imap (fun j q => (j, q)) v).

(** [a, b = value]: an array unpacks along its first axis, which must
    have length two. *)
Definition unpack_pair (v : pyval) : res (pyval * pyval) :=
  match v with
  | PyArray (d0 :: sh) items =>
      if (d0 =? 2)%Z
      then Return (PyArray sh (slice_first_axis 2 0 items),
               PyArray sh (slice_first_axis 2 1 items))
      else Throw ValueError
  | _ => Throw TypeError
  end.

(** [history['density_history']]. *)
Definition subscript_by_name (v : pyval) : res pyval :=
  match v with
  | PyArray _ _ => Throw IndexError
  | _ => Throw TypeError
  end.

(** Whether [pytopo3d.utils.benchmarking] can be imported. *)
Variable benchmarking_importable : bool.

Definition when_logger (logger : option logger_object) (l : level)
    (m : message) : M unit :=
  match logger with
  | Some _ => log l m
  | None => mret tt
  end.

(** The function up to the point where [xPhys] and [history] are bound
    (lines 139-189); the rest measures the run time and reads the
    benchmark tracker. *)
Definition execute_optimization (nelx nely nelz : Z)
    (volfrac penal rmin disp_thres tolx : Q) (maxloop : Z)
    (create_animation : bool) (animation_frequency : Z)
    (logger : option logger_object)
    (combined_obstacle_mask : option (ndarray bool))
    (benchmark : bool) : M (pyval * pyval) :=
  benchmark_tracker ←
    (if benchmark then
       if benchmarking_importable
       then when_logger logger INFO MsgBenchmarkingEnabled;; mret PyTracker
       else when_logger logger WARNING MsgBenchmarkingMissing;; mret PyNone
     else mret PyNone);
  when_logger logger INFO (MsgStartingOptimization nelx nely nelz);;
  match logger with
  | Some _ => log DEBUG (MsgOptimizationParameters tolx maxloop
                           create_animation animation_frequency)
  | None => raise AttributeError
  end;;
  optimization_result ←
    call_top3d
      [PyInt nelx; PyInt nely; PyInt nelz; PyFloat volfrac; PyFloat penal;
       PyFloat rmin; PyFloat disp_thres]
      [("obstacle_mask",
        match combined_obstacle_mask with
        | Some m => PyMask m
        | None => PyNone
        end);
       ("tolx", PyFloat tolx);
       ("maxloop", PyInt maxloop);
       ("save_history", PyBool create_animation);
       ("history_frequency", PyInt animation_frequency);
       ("benchmark_tracker", benchmark_tracker)]%string;
  if create_animation then
    '(xPhys, history) ← lift (unpack_pair optimization_result);
    match logger with
    | Some _ =>
        _ ← lift (subscript_by_name history);
        log INFO MsgHistoryCaptured
    | None => mret tt
    end;;
    mret (xPhys, history)
  else mret (optimization_result, PyNone).

End Calls.

(** ** A concrete set of utilities: a bar of elements along x

    Stand-ins on which the model can be run: the elements form a chain
    along the x axis, every element is a two-node bar with one degree of
    freedom per node, node 0 is held and the last node carries the load.
    The filter weights are [max(0, rmin - dist)] between the elements of
    the chain. *)
Module Demo.

Definition iota (n : Z) : list Z := map Z.of_nat (seq 0 (Z.to_nat n)).

Definition demo_build_force_vector (nelx nely nelz ndof : Z)
  : res (list Q) :=
  Return (<[Z.to_nat nelx := - (1)]> (replicate (Z.to_nat ndof) 0)).

Definition demo_build_supports (nelx nely nelz ndof : Z)
  : res (list Z * list Z) :=
  Return (map (fun i => (i + 1)%Z) (iota nelx), [0%Z]).

Definition demo_lk_H8 (nu : Q) : res (list (list Q)) :=
  Return [[1; - (1)]; [- (1); 1]].

Definition demo_build_edof (nelx nely nelz : Z)
  : res (list (list Z) * list Z * list Z) :=
  let edofMat := map (fun e => [e + 1; e + 2]%Z) (iota nelx) in
  Return (edofMat,
      flat_map (fun r => flat_map (fun d => map (fun _ => d) r) r) edofMat,
      flat_map (fun r => flat_map (fun _ => r) r) edofMat).

Definition demo_weight (rmin : Q) (i j : Z) : Q :=
  Qmax 0 (rmin - inject_Z (Z.abs (i - j))).

Definition demo_build_filter (nelx nely nelz : Z) (rmin : Q)
  : res (sparse * list Q) :=
  let els := iota nelx in
  let row i :=
    omap (fun j => if Qle_bool (demo_weight rmin i j) 0 then None
                   else Some (Z.to_nat j, demo_weight rmin i j)) els in
  let H := mk_sparse (Z.to_nat nelx) (map row els) in
  Return (H, map (fun r => qsum (map snd r)) (rows H)).

(** Jacobi-style stand-in: every unknown from its diagonal entry. *)
Definition demo_solver (K_ff : list (list Q)) (F_f : list Q)
  : res (list Q) :=
  Return (imap (fun i f => f / nth i (nth i K_ff []) 0) F_f).

Definition demo_element_compliance (U : list Q) (edofMat : list (list Z))
    (KE : list (list Q)) : res (list Q) :=
  Return (map (fun r =>
        let ue := map (fun d => nth (Z.to_nat (d - 1)) U 0) r in
        qsum (zip_with (fun a row => a * qsum (zip_with Qmult row ue))
                ue KE))
      edofMat).

(** Keeps the design, clipped to the box [0, 1], and reports the change
    [chg]. *)
Definition demo_oc (chg : Q) (x dc dv : ndarray Q) (volfrac : Q)
    (H : sparse) (Hs : list Q) (nele : Z) (mask : ndarray bool)
    (design_nele : Z) : res (ndarray Q * Q) :=
  Return (amap (fun v => Qmin 1 (Qmax 0 v)) x, chg).

(** Exact at integer exponents. *)
Definition demo_power (v p : Q) : Q := Qpower v (Qfloor p).

Definition collaborators (chg : Q) : Collaborators := {|
  build_force_vector := demo_build_force_vector;
  build_supports := demo_build_supports;
  lk_H8 := demo_lk_H8;
  build_edof := demo_build_edof;
  build_filter := demo_build_filter;
  solver := demo_solver;
  element_compliance := demo_element_compliance;
  optimality_criteria_update := demo_oc chg;
  float_power := demo_power
|}.

(** A mask of shape (1, 3, 1) that forbids the middle element. *)
Definition middle_mask : ndarray bool :=
  mk_ndarray (1, 3, 1)%Z [false; true; false].

(** [top3d(3, 1, 1, 0.5, 3.0, 1.5, 0.5, obstacle_mask, tolx, maxloop)]. *)
Definition run (chg : Q) (obstacle_mask : option (ndarray bool)) (tolx : Q)
    (maxloop : Z) : M (ndarray Q) :=
  @top3d (collaborators chg) 3 1 1 (1 # 2) 3 (3 # 2) (1 # 2)
    obstacle_mask tolx maxloop.

End Demo.


(** ** Predicates used in the statements *)

Definition coord_lt (p q : coord) : Prop := coord_compare p q = Lt.

(** Strictly increasing in the lexicographic order. *)
Fixpoint increasing (u : list coord) : Prop :=
  match u with
  | [] => True
  | p :: u' => Forall (coord_lt p) u' /\ increasing u'
  end.

(** The mask of the given shape that is [False] everywhere. *)
Definition all_false_mask (sh : shape3) : ndarray bool :=
  mk_ndarray sh (replicate (Z.to_nat (shape_size sh)) false).

(** What the loop must leave alone: the partition of the degrees of
    freedom, the filter, the force vector, the element table, the index
    map and the pattern (shape and coordinates) of the stiffness matrix;
    also the element matrix and the mask. *)
Definition same_setup (s s' : state) : Prop :=
  freedofs0 s' = freedofs0 s /\
  fixeddof0 s' = fixeddof0 s /\
  H s' = H s /\
  Hs s' = Hs s /\
  F s' = F s /\
  edofMat s' = edofMat s /\
  assembly_map s' = assembly_map s /\
  nUnique s' = nUnique s /\
  csr_n (K_template s') = csr_n (K_template s) /\
  csr_coords (K_template s') = csr_coords (K_template s) /\
  KE s' = KE s /\
  mask s' = mask s /\
  design_nele s' = design_nele s.

Definition in_unit_interval (v : Q) : Prop := 0 <= v <= 1.

(** What the specification says of the filter: non-negative weights, and
    [Hs] the sums of the rows of [H], positive since an element is at
    distance zero from itself. *)
Definition filter_weights_ok (H : sparse) (Hs : list Q) : Prop :=
  Forall2 (fun (row : list (nat * Q)) (hs : Q) =>
             Forall (fun p : nat * Q => 0 <= p.2) row /\
             hs == qsum (map snd row) /\ 0 < hs)
    (rows H) Hs.

(** What is claimed of a returned density: its shape, its range, and
    zero wherever the mask is set. *)
Definition density_ok (sh : shape3) (m : ndarray bool) (xp : ndarray Q)
  : Prop :=
  shape xp = sh /\
  Forall in_unit_interval (items xp) /\
  forall i, items m !! i = Some true -> items xp !! i = Some 0.

Definition is_solver_call (e : event) : bool :=
  match e with
  | Call Solver => true
  | _ => false
  end.

(** The number of linear solves, one per pass through the loop body. *)
Definition solver_calls (tr : list event) : nat :=
  length (List.filter is_solver_call tr).

(** The two forms of the filter, entry by entry, in the words of the
    specification.  [density_form H Hs v a]: [a] is [(H * v) / Hs], at
    element [i] the weighted sum of row [i] of [H] over [v], divided by
    [Hs_i].  [sensitivity_form H Hs v b]: [b] is [H * (v / Hs)], at
    element [i] the weighted sum of row [i] over the quotients
    [v_j / Hs_j]. *)
Definition density_form (H : sparse) (Hs : list Q) (v a : ndarray Q)
  : Prop :=
  forall i row,
    rows H !! i = Some row ->
    items a !! i =
      Some (qsum (map (fun p : nat * Q => p.2 * nth p.1 (items v) 0) row)
            / nth i Hs 0).

Definition sensitivity_form (H : sparse) (Hs : list Q) (v b : ndarray Q)
  : Prop :=
  forall i row,
    rows H !! i = Some row ->
    items b !! i =
      Some (qsum (map (fun p : nat * Q =>
                         p.2 * (nth p.1 (items v) 0 / nth p.1 Hs 0))
                    row)).

(** The bar example with an update that hands the [dv] it receives back
    as the new design, so that the filtered [dv] of a pass shows in the
    state. *)
Definition dv_probe : Collaborators := {|
  build_force_vector := Demo.demo_build_force_vector;
  build_supports := Demo.demo_build_supports;
  lk_H8 := Demo.demo_lk_H8;
  build_edof := Demo.demo_build_edof;
  build_filter := Demo.demo_build_filter;
  solver := Demo.demo_solver;
  element_compliance := Demo.demo_element_compliance;
  optimality_criteria_update :=
    fun x dc dv volfrac H Hs nele mask design_nele => Return (dv, 0);
  float_power := Demo.demo_power
|}.

(** A cell of the grid that the mask leaves to the design. *)
Definition free_cell (m : ndarray bool) (j : nat) : bool :=
  match items m !! j with
  | Some false => true
  | _ => false
  end.


(** * The command line ([pytopo3d/cli/parser.py])

    The attributes of an [argparse.Namespace] are held in a finite map, the
    [__dict__] of the object.  A [float] of the command line is a binary64
    number: it is stored and printed, never computed with. *)

Inductive value : Type :=
| VNone
| VBool (b : bool)
| VInt (z : Z)
| VFloat (f : float)
| VStr (s : string).

Definition namespace : Type := gmap string value.

(** ** The table of [parse_args] (parser.py, lines 20-130) *)

Inductive arg_type : Type := TypeInt | TypeFloat | TypeStr.

Inductive arg_action : Type :=
| Store (type : arg_type) (choices : option (list string))
| StoreTrue.

Record argument : Type := mk_argument {
  arg_flags : list string;
  arg_action_of : arg_action;
  arg_default : value
}.

Definition arguments : list argument :=
  [ mk_argument ["--nelx"] (Store TypeInt None) (VInt 60);
    mk_argument ["--nely"] (Store TypeInt None) (VInt 30);
    mk_argument ["--nelz"] (Store TypeInt None) (VInt 20);
    (* 0.3 *)
    mk_argument ["--volfrac"] (Store TypeFloat None)
      (VFloat 0x1.3333333333333p-2);
    mk_argument ["--penal"] (Store TypeFloat None) (VFloat 3);
    mk_argument ["--rmin"] (Store TypeFloat None) (VFloat 3);
    mk_argument ["--disp_thres"] (Store TypeFloat None) (VFloat 0.5);
    (* 0.01 *)
    mk_argument ["--tolx"] (Store TypeFloat None)
      (VFloat 0x1.47ae147ae147bp-7);
    mk_argument ["--maxloop"] (Store TypeInt None) (VInt 2000);
    mk_argument ["--output"] (Store TypeStr None)
      (VStr "optimized_design.npy");
    mk_argument ["--export-stl"] StoreTrue (VBool false);
    mk_argument ["--stl-level"] (Store TypeFloat None) (VFloat 0.5);
    mk_argument ["--smooth-stl"] StoreTrue (VBool true);
    mk_argument ["--smooth-iterations"] (Store TypeInt None) (VInt 5);
    mk_argument ["--experiment-name"] (Store TypeStr None) VNone;
    mk_argument ["--description"] (Store TypeStr None) VNone;
    mk_argument ["--obstacle-config"] (Store TypeStr None) VNone;
    mk_argument ["--log-level"]
      (Store TypeStr (Some ["DEBUG"; "INFO"; "WARNING"; "ERROR"; "CRITICAL"]))
      (VStr "INFO");
    mk_argument ["--log-file"] (Store TypeStr None) VNone;
    mk_argument ["--verbose"; "-v"] StoreTrue (VBool false);
    mk_argument ["--quiet"; "-q"] StoreTrue (VBool false) ]%string.

(** ** Strings *)

Fixpoint lstrip (c : ascii) (s : string) : string :=
  match s with
  | String a s' => if Ascii.eqb a c then lstrip c s' else s
  | EmptyString => EmptyString
  end.

(** [s.replace(a, b)] for single characters. *)
Fixpoint replace_char (a b : ascii) (s : string) : string :=
  match s with
  | String c s' => String (if Ascii.eqb c a then b else c)
                     (replace_char a b s')
  | EmptyString => EmptyString
  end.

(** [s.rfind(c)]: the index of the last [c] in [s], or -1. *)
Fixpoint rfind (c : ascii) (s : string) : Z :=
  match s with
  | EmptyString => -1
  | String a s' =>
      let r := rfind c s' in
      if 0 <=? r then r + 1
      else if Ascii.eqb a c then 0 else -1
  end.

(** [s[n:]]. *)
Fixpoint string_drop (n : nat) (s : string) : string :=
  match n, s with
  | S n', String _ s' => string_drop n' s'
  | _, _ => s
  end.

(** [posixpath.basename]: [i = p.rfind('/') + 1; return p[i:]]. *)
Definition basename (p : string) : string :=
  string_drop (Z.to_nat (rfind "/" p + 1)) p.

(** [s.replace(old, new)] for a non-empty [old]: the occurrences of [old]
    are taken from the left and do not overlap; [skip] counts the
    characters of an occurrence still to be passed over. *)
Fixpoint replace_from (old new : string) (skip : nat) (s : string)
  : string :=
  match s with
  | EmptyString => EmptyString
  | String c s' =>
      match skip with
      | S skip' => replace_from old new skip' s'
      | O =>
          if String.prefix old s
          then new ++ replace_from old new (String.length old - 1)%nat s'
          else String c (replace_from old new 0 s')
      end
  end.

Definition str_replace (old new s : string) : string :=
  replace_from old new 0 s.

(** [str(n)] for an [int]. *)
Definition str_of_int (z : Z) : string :=
  NilZero.string_of_int (Z.to_int z).

(** Whether a character occurs in a string. *)
Fixpoint occurs (c : ascii) (s : string) : bool :=
  match s with
  | EmptyString => false
  | String a s' => Ascii.eqb a c || occurs c s'
  end.

(** ** [parse_args] (parser.py, lines 11-132) *)

(** The attribute an option is stored under: its first long option string
    (or else its first option string) without the leading dashes, and with
    every other dash turned into an underscore. *)
Definition is_long (flag : string) : bool :=
  match flag with
  | String _ (String b _) => Ascii.eqb b "-"
  | _ => false
  end.

Definition dest (a : argument) : string :=
  let flag :=
    match filter (fun f => is_long f = true) (arg_flags a) with
    | f :: _ => f
    | [] => hd EmptyString (arg_flags a)
    end in
  replace_char "-" "_" (lstrip "-" flag).

(** How [parser.parse_args()] ends: with the namespace, or by leaving the
    interpreter ([parser.error] exits with status 2, the help with 0). *)
Inductive parse_outcome (A : Type) : Type :=
| Parsed (a : A)
| SystemExit (status : Z).
Arguments Parsed {A} a.
Arguments SystemExit {A} status.

(** An option as argparse found it on the command line: the option string
    it was matched to, and the argument that came with it, if any. *)
Definition occurrence : Type := (string * option string)%type.

(** The namespace before the command line is read: every attribute at its
    default. *)
Definition initial_namespace : namespace :=
  foldl (fun (ns : namespace) a =>
           match ns !! dest a with
           | Some _ => ns
           | None => <[dest a := arg_default a]> ns
           end) ∅ arguments.

Section ParseArgs.

(** The conversions [int(s)] and [float(s)] of a string; [None] where
    Python raises [ValueError]. *)
Variable py_int : string -> option Z.
Variable py_float : string -> option float.

Definition get_value (t : arg_type) (s : string) : option value :=
  match t with
  | TypeInt => VInt <$> py_int s
  | TypeFloat => VFloat <$> py_float s
  | TypeStr => Some (VStr s)
  end.

Definition check_value (choices : option (list string)) (v : value)
  : bool :=
  match choices with
  | None => true
  | Some l => match v with
              | VStr s => existsb (String.eqb s) l
              | _ => false
              end
  end.

Definition find_argument (flag : string) : option argument :=
  find (fun a => existsb (String.eqb flag) (arg_flags a)) arguments.

(** One option of the command line acts on the namespace. *)
Definition take_action (ns : namespace) (o : occurrence)
  : parse_outcome namespace :=
  let '(flag, explicit_arg) := o in
  if (String.eqb flag "-h" || String.eqb flag "--help")%bool then
    match explicit_arg with
    | None => SystemExit 0
    | Some _ => SystemExit 2
    end
  else
    match find_argument flag with
    | None => SystemExit 2
    | Some a =>
        match arg_action_of a, explicit_arg with
        | Store t choices, Some s =>
            match get_value t s with
            | Some v =>
                if check_value choices v
                then Parsed (<[dest a := v]> ns)
                else SystemExit 2
            | None => SystemExit 2
            end
        | Store _ _, None => SystemExit 2
        | StoreTrue, None => Parsed (<[dest a := VBool true]> ns)
        | StoreTrue, Some _ => SystemExit 2
        end
    end.

Fixpoint take_actions (ns : namespace) (command_line : list occurrence)
  : parse_outcome namespace :=
  match command_line with
  | [] => Parsed ns
  | o :: rest =>
      match take_action ns o with
      | Parsed ns' => take_actions ns' rest
      | SystemExit status => SystemExit status
      end
  end.

(** [parse_args], on the options of [sys.argv] in their order.  (The
    defaults that are strings belong to options of type [str]: the
    conversion argparse applies to them afterwards leaves them as they
    are.) *)
Definition parse_args (command_line : list occurrence)
  : parse_outcome namespace :=
  take_actions initial_namespace command_line.

End ParseArgs.

(** ** [generate_experiment_name] (parser.py, lines 135-159) *)

(** [args.name]. *)
Definition getattr (args : namespace) (name : string) : res value :=
  match args !! name with
  | Some v => Return v
  | None => Throw AttributeError
  end.

(** The truth value of an object in a condition. *)
Definition truthy (v : value) : bool :=
  match v with
  | VNone => false
  | VBool b => b
  | VInt z => negb (z =? 0)
  | VFloat f => negb (f =? 0)%float
  | VStr s => negb (String.eqb s EmptyString)
  end.

Section GenerateExperimentName.

(** [repr] of a float, the text an f-string prints for it. *)
Variable float_repr : float -> string.

(** The text of [f"{v}"]. *)
Definition format_value (v : value) : string :=
  match v with
  | VNone => "None"
  | VBool true => "True"
  | VBool false => "False"
  | VInt z => str_of_int z
  | VFloat f => float_repr f
  | VStr s => s
  end.

(** Lines 155-157; [os.path.basename] takes a string. *)
Definition obstacle_type (obstacle_config : value) : res string :=
  if truthy obstacle_config then
    match obstacle_config with
    | VStr p => Return (str_replace ".json" "" (basename p))
    | _ => Throw TypeError
    end
  else Return "no_obstacle"%string.

Definition generate_experiment_name (args : namespace) : res value :=
  obind (getattr args "experiment_name") (fun experiment_name =>
  if truthy experiment_name then Return experiment_name
  else
    obind (getattr args "nelx") (fun nelx =>
    obind (getattr args "nely") (fun nely =>
    obind (getattr args "nelz") (fun nelz =>
    let dims := (format_value nelx ++ "x" ++ format_value nely ++ "x"
                 ++ format_value nelz)%string in
    obind (getattr args "obstacle_config") (fun obstacle_config =>
    obind (obstacle_type obstacle_config) (fun obstacle_type =>
    Return (VStr (dims ++ "_" ++ obstacle_type)%string))))))).

End GenerateExperimentName.

(** ** [create_config_dict] (parser.py, lines 162-178)

    [vars(args)] is the [__dict__] of the namespace, not a copy of it: the
    objects live in a store, and the function hands back the reference it
    was given.  [now] is the reading of the clock,
    [datetime.now().isoformat()]. *)

Definition loc : Type := nat.
Definition heap : Type := gmap loc namespace.

Definition create_config_dict (now : string) (args : loc) (h : heap)
  : res (loc * heap) :=
  match h !! args with
  | Some attributes =>
      let config := args in
      Return (config,
              <[config := <["timestamp"%string := VStr now]> attributes]> h)
  | None => Throw TypeError
  end.

(** What the table lets an attribute hold: the default, or a value of the
    option's type that passed its [choices]; [True] for a flag. *)
Definition admits (a : argument) (v : value) : Prop :=
  v = arg_default a \/
  match arg_action_of a with
  | Store TypeInt _ => exists z, v = VInt z
  | Store TypeFloat _ => exists f, v = VFloat f
  | Store TypeStr choices =>
      exists s, v = VStr s /\ check_value choices v = true
  | StoreTrue => v = VBool true
  end.

(** A namespace with the attributes of the table, and no other. *)
Definition conforms (ns : namespace) : Prop :=
  dom ns = list_to_set (dest <$> arguments) /\
  forall a, In a arguments -> exists v, ns !! dest a = Some v /\ admits a v.

Definition lookup_dest (d : string) : option argument :=
  find (fun a => String.eqb (dest a) d) arguments.

(** The occurrences of an option on a command line. *)
Definition given (a : argument) (command_line : list occurrence)
  : list occurrence :=
  filter (fun o : occurrence =>
            existsb (String.eqb o.1) (arg_flags a) = true) command_line.

(** * Around the run ([pytopo3d/runners/experiment.py]) *)

(** ** [setup_experiment]: the level of the logger (lines 56-61) *)

(** The level constants of the module [logging]. *)
Definition logging_levels : list (string * Z) :=
  [("CRITICAL", 50); ("FATAL", 50); ("ERROR", 40); ("WARNING", 30);
   ("WARN", 30); ("INFO", 20); ("DEBUG", 10); ("NOTSET", 0)]%Z%string.

Inductive logging_attribute : Type :=
| LevelNumber (n : Z)
| OtherAttribute.

Section LogLevel.

(** Whether the module [logging] has an attribute of that name which is
    not a level constant (a function, a class, ...). *)
Variable logging_has : string -> bool.

(** [getattr(logging, name)]. *)
Definition getattr_logging (name : string) : res logging_attribute :=
  match find (fun p : string * Z => String.eqb name p.1) logging_levels with
  | Some p => Return (LevelNumber p.2)
  | None =>
      if logging_has name then Return OtherAttribute
      else Throw AttributeError
  end.

Definition log_level_value (verbose quiet : bool) (log_level : string)
  : res logging_attribute :=
  if verbose then Return (LevelNumber 10%Z)
  else if quiet then Return (LevelNumber 30%Z)
  else getattr_logging log_level.

End LogLevel.

(** ** [export_result_to_stl] (lines 232-280) *)

(** [posixpath.join(a, b)]. *)
Definition path_join (a b : string) : string :=
  if String.prefix "/" b then b
  else if (String.eqb a EmptyString
           || String.eqb (string_drop (String.length a - 1)%nat a) "/")%bool
  then (a ++ b)%string
  else (a ++ "/" ++ b)%string.

(** What a call can raise: an exception of the class [Exception], or one
    outside of it ([KeyboardInterrupt], [SystemExit], ...). *)
Inductive raised : Type :=
| OfException (e : exn)
| NotOfException.

Inductive export_event : Type :=
| ExportInfoExporting
| VoxelToStl (input_file : option string) (output_file : string)
    (level : value) (smooth_mesh : value) (smooth_iterations : value)
| ExportInfoExported (stl_filename : string)
| ExportError (e : exn).

Section ExportResult.

(** [voxel_to_stl] of [pytopo3d.utils.export]: [None] when it returns. *)
Variable voxel_to_stl :
  option string -> string -> value -> value -> value -> option raised.

Definition if_logger (logger : option logger_object) (e : export_event)
  : list export_event :=
  match logger with
  | Some _ => [e]
  | None => []
  end.

(** The events of the call, and the value returned or what is raised out
    of the function.  [results_mgr] is the [experiment_dir] of the results
    manager, if there is a manager. *)
Definition export_result_to_stl (export_stl : bool)
    (stl_level smooth_stl smooth_iterations : value)
    (logger : option logger_object) (results_mgr : option string)
    (result_path : option string)
  : list export_event * (bool + raised) :=
  if negb export_stl then ([], inl false)
  else
    match results_mgr with
    | None =>
        (* results_mgr.experiment_dir on None, inside the try *)
        (if_logger logger (ExportError AttributeError), inl false)
    | Some experiment_dir =>
        let stl_filename :=
          path_join experiment_dir "optimized_design.stl" in
        let call :=
          if_logger logger ExportInfoExporting ++
          [VoxelToStl result_path stl_filename stl_level smooth_stl
             smooth_iterations] in
        match voxel_to_stl result_path stl_filename stl_level smooth_stl
                smooth_iterations with
        | None =>
            (call ++ if_logger logger (ExportInfoExported stl_filename),
             inl true)
        | Some (OfException e) =>
            (call ++ if_logger logger (ExportError e), inl false)
        | Some NotOfException => (call, inr NotOfException)
        end
    end.

End ExportResult.

(** A namespace that has no experiment name of its own (the attribute is
    [None] or empty), for a grid of [nelx] by [nely] by [nelz] elements. *)
Definition unnamed_grid (args : namespace) (nelx nely nelz : Z)
    (obstacle_config : value) : Prop :=
  (exists e, args !! "experiment_name"%string = Some e /\
             truthy e = false) /\
  args !! "nelx"%string = Some (VInt nelx) /\
  args !! "nely"%string = Some (VInt nely) /\
  args !! "nelz"%string = Some (VInt nelz) /\
  args !! "obstacle_config"%string = Some obstacle_config.

(** Stand-ins for the conversions of the command line, on which
    [parse_args] can be run: decimal integers, and the text [0.5]. *)
Module DemoCli.

Definition demo_int (s : string) : option Z :=
  Z.of_int <$> NilZero.int_of_string s.

Definition demo_float (s : string) : option float :=
  if String.eqb s "0.5" then Some 0.5%float else None.

Definition demo_repr (f : float) : string := "0.5"%string.

End DemoCli.

(** * Properties *)

(** ** Coordinates and [np.unique] *)

Lemma coord_compare_eq p q : coord_compare p q = Eq <-> p = q.
Proof.
  destruct p as [a b], q as [c d]. unfold coord_compare; simpl.
  destruct (Z.compare_spec a c); [destruct (Z.compare_spec b d) |..];
    split; intros E; try discriminate; try congruence;
    injection E; lia.
Qed.

Lemma coord_eqb_eq p q : coord_eqb p q = true <-> p = q.
Proof.
  destruct p as [a b], q as [c d]. unfold coord_eqb; simpl.
  rewrite andb_true_iff, !Z.eqb_eq. split; [intros []; congruence|].
  intros E; injection E; auto.
Qed.

Lemma coord_eqb_refl p : coord_eqb p p = true.
Proof. by apply coord_eqb_eq. Qed.

Lemma coord_eqb_neq p q : p <> q -> coord_eqb p q = false.
Proof.
  intros N. destruct (coord_eqb p q) eqn:E; [|done].
  by apply coord_eqb_eq in E.
Qed.

Lemma coord_lt_irrefl p : ~ coord_lt p p.
Proof.
  unfold coord_lt. by rewrite (proj2 (coord_compare_eq p p) eq_refl).
Qed.

Lemma coord_lt_trans p q r : coord_lt p q -> coord_lt q r -> coord_lt p r.
Proof.
  destruct p as [a b], q as [c d], r as [e f].
  unfold coord_lt, coord_compare; simpl.
  destruct (Z.compare_spec a c), (Z.compare_spec c e),
    (Z.compare_spec a e); try discriminate; try lia; auto.
  rewrite !Z.compare_lt_iff. lia.
Qed.

Lemma coord_compare_gt p q : coord_compare p q = Gt -> coord_lt q p.
Proof.
  destruct p as [a b], q as [c d]. unfold coord_lt, coord_compare; simpl.
  destruct (Z.compare_spec a c), (Z.compare_spec c a);
    try discriminate; try lia; auto.
  rewrite Z.compare_gt_iff, Z.compare_lt_iff. lia.
Qed.

Lemma insert_row_elem x p u : x ∈ insert_row p u <-> x = p \/ x ∈ u.
Proof.
  induction u as [|q u IH]; simpl.
  - rewrite list_elem_of_singleton, elem_of_nil. tauto.
  - destruct (coord_compare p q) eqn:E.
    + apply coord_compare_eq in E as ->. rewrite elem_of_cons. tauto.
    + rewrite !elem_of_cons. tauto.
    + rewrite !elem_of_cons, IH. tauto.
Qed.

Lemma insert_row_increasing p u : increasing u -> increasing (insert_row p u).
Proof.
  induction u as [|q u IH]; simpl; [by auto|].
  intros [Hq Hu]. destruct (coord_compare p q) eqn:E; simpl.
  - auto.
  - repeat split; auto. constructor; [done|].
    eapply Forall_impl; [exact Hq|]. intros r. by apply coord_lt_trans.
  - split; [|by auto]. apply Forall_forall. intros r Hr.
    apply insert_row_elem in Hr as [->|Hr].
    + by apply coord_compare_gt.
    + by eapply Forall_forall in Hq.
Qed.

Lemma fold_insert_row_increasing ps u :
  increasing u -> increasing (fold_left (fun u p => insert_row p u) ps u).
Proof.
  revert u. induction ps as [|p ps IH]; simpl; [done|].
  intros u Hu. by apply IH, insert_row_increasing.
Qed.

Lemma fold_insert_row_elem x ps u :
  x ∈ fold_left (fun u p => insert_row p u) ps u <-> x ∈ ps \/ x ∈ u.
Proof.
  revert u. induction ps as [|p ps IH]; simpl; intros u.
  - rewrite elem_of_nil. tauto.
  - rewrite IH, insert_row_elem, elem_of_cons. tauto.
Qed.

(** [unique_rows] is what [np.unique] returns: the rows of the input,
    each once, in increasing order. *)
Lemma unique_rows_increasing ps : increasing (unique_rows ps).
Proof. by apply fold_insert_row_increasing. Qed.

Lemma unique_rows_elem x ps : x ∈ unique_rows ps <-> x ∈ ps.
Proof.
  unfold unique_rows. rewrite fold_insert_row_elem, elem_of_nil. tauto.
Qed.

Lemma increasing_NoDup u : increasing u -> NoDup u.
Proof.
  induction u as [|p u IH]; simpl; [constructor|].
  intros [Hp Hu]. constructor; [|by auto].
  intros Hin. eapply Forall_forall in Hp; [|exact Hin].
  by apply coord_lt_irrefl in Hp.
Qed.

Lemma row_index_lt p u : p ∈ u -> (row_index p u < length u)%nat.
Proof.
  induction u as [|q u IH]; simpl; [by rewrite elem_of_nil|].
  rewrite elem_of_cons. intros Hin.
  destruct (coord_eqb p q) eqn:E; [lia|].
  destruct Hin as [->|Hin]; [by rewrite coord_eqb_refl in E|].
  specialize (IH Hin). lia.
Qed.

Lemma row_index_nth p u d : p ∈ u -> nth (row_index p u) u d = p.
Proof.
  induction u as [|q u IH]; simpl; [by rewrite elem_of_nil|].
  rewrite elem_of_cons. intros Hin.
  destruct (coord_eqb p q) eqn:E; [by apply coord_eqb_eq in E|].
  destruct Hin as [->|Hin]; [by rewrite coord_eqb_refl in E|auto].
Qed.

Lemma row_index_inj p q u :
  p ∈ u -> q ∈ u -> row_index p u = row_index q u -> p = q.
Proof.
  intros Hp Hq E.
  rewrite <- (row_index_nth p u (0, 0)%Z Hp), E. by apply row_index_nth.
Qed.

Lemma row_index_of_nth i u d :
  NoDup u -> (i < length u)%nat -> row_index (nth i u d) u = i.
Proof.
  intros Hu. revert i. induction Hu as [|q u Hq Hu IH]; simpl; [lia|].
  intros [|i] Hi; [by rewrite coord_eqb_refl|].
  assert (Hin : nth i u d ∈ u).
  { apply list_elem_of_In, nth_In. lia. }
  rewrite coord_eqb_neq; [|by intros E; rewrite E in Hin].
  rewrite IH; [done|lia].
Qed.

(** ** Summation through the index map against the rebuild *)

Lemma nth_insert_eq (l : list Q) i v d :
  (i < length l)%nat -> nth i (<[i:=v]> l) d = v.
Proof.
  intros Hi. by rewrite nth_lookup, list_lookup_insert_eq.
Qed.

Lemma nth_insert_ne (l : list Q) i j v d :
  i <> j -> nth j (<[i:=v]> l) d = nth j l d.
Proof.
  intros Hij. by rewrite !nth_lookup, list_lookup_insert_ne.
Qed.

Lemma coo_add_keys p v m :
  map fst (coo_add p v m) = insert_row p (map fst m).
Proof.
  induction m as [|[q w] m IH]; simpl; [done|].
  destruct (coord_compare p q); simpl; congruence.
Qed.

Lemma assoc_get_below p m :
  Forall (coord_lt p) (map fst m) -> assoc_get p m = 0.
Proof.
  induction m as [|[q w] m IH]; simpl; [done|].
  intros Hall. apply Forall_cons in Hall as [Hq Hm].
  rewrite coord_eqb_neq; [by auto|].
  intros ->. by apply coord_lt_irrefl in Hq.
Qed.

Lemma Qplus_0_l_eq (v : Q) : 0 + v = v.
Proof.
  destruct v as [n d]. unfold Qplus; simpl. by rewrite Z.mul_1_r.
Qed.

Lemma assoc_get_coo_add x p v m :
  increasing (map fst m) ->
  assoc_get x (coo_add p v m) =
    if coord_eqb x p then assoc_get p m + v else assoc_get x m.
Proof.
  induction m as [|[q w] m IH]; simpl.
  - intros _. destruct (coord_eqb x p); [|done]. by rewrite Qplus_0_l_eq.
  - intros [Hq Hm]. destruct (coord_compare p q) eqn:E; simpl.
    + apply coord_compare_eq in E as ->. rewrite coord_eqb_refl.
      by destruct (coord_eqb x q).
    + destruct (coord_eqb x p) eqn:Exp; [|done].
      rewrite (coord_eqb_neq p q).
      * rewrite assoc_get_below; [by rewrite Qplus_0_l_eq|].
        eapply Forall_impl; [exact Hq|]. intros r. by apply coord_lt_trans.
      * intros ->. by apply coord_lt_irrefl in E.
    + assert (Hpq : coord_eqb p q = false).
      { apply coord_eqb_neq. intros ->.
        by rewrite (proj2 (coord_compare_eq q q) eq_refl) in E. }
      rewrite Hpq. destruct (coord_eqb x q) eqn:Exq.
      * apply coord_eqb_eq in Exq as ->.
        rewrite coord_eqb_neq; [done|].
        intros ->. by rewrite coord_eqb_refl in Hpq.
      * by apply IH.
Qed.

Section IndexMap.
Variable u : list coord.

(** One triple consumed by both accumulations keeps them in step. *)
Lemma accumulate_step (t : coord * Q) (m : list (coord * Q)) (out : list Q) :
  increasing (map fst m) ->
  t.1 ∈ u ->
  length out = length u ->
  (forall p, p ∈ u -> assoc_get p m = nth (row_index p u) out 0) ->
  increasing (map fst (coo_add t.1 t.2 m)) /\
  length (bincount_step out (row_index t.1 u, t.2)) = length u /\
  (forall p, p ∈ u ->
     assoc_get p (coo_add t.1 t.2 m) =
       nth (row_index p u) (bincount_step out (row_index t.1 u, t.2)) 0).
Proof.
  destruct t as [q v]; simpl. intros Hm Hq Hlen Hget.
  unfold bincount_step; simpl. repeat split.
  - rewrite coo_add_keys. by apply insert_row_increasing.
  - by rewrite length_insert.
  - intros p Hp. rewrite assoc_get_coo_add by done.
    destruct (coord_eqb p q) eqn:E.
    + apply coord_eqb_eq in E as ->.
      rewrite nth_insert_eq; [by rewrite Hget|].
      rewrite Hlen. by apply row_index_lt.
    + rewrite nth_insert_ne; [by apply Hget|].
      intros Hidx. apply row_index_inj in Hidx; [|done..].
      subst q. by rewrite coord_eqb_refl in E.
Qed.

Lemma accumulate_fold (l : list (coord * Q)) :
  forall (m : list (coord * Q)) (out : list Q),
  increasing (map fst m) ->
  Forall (fun t : coord * Q => t.1 ∈ u) l ->
  length out = length u ->
  (forall p, p ∈ u -> assoc_get p m = nth (row_index p u) out 0) ->
  let m' := fold_left (fun m (t : coord * Q) => coo_add t.1 t.2 m) l m in
  let out' :=
    fold_left bincount_step
      (map (fun t : coord * Q => (row_index t.1 u, t.2)) l) out in
  increasing (map fst m') /\ length out' = length u /\
  (forall p, p ∈ u -> assoc_get p m' = nth (row_index p u) out' 0).
Proof.
  induction l as [|t l IH]; simpl; intros m out Hm Hl Hlen Hget; [done|].
  apply Forall_cons in Hl as [Ht Hl].
  destruct (accumulate_step t m out Hm Ht Hlen Hget) as (Hm' & Hlen' & Hget').
  by apply IH.
Qed.

End IndexMap.

(** A matrix with distinct coordinates is determined by the value it
    holds at each of them. *)
Lemma entries_by_value (m : list (coord * Q)) :
  forall out : list Q,
  NoDup (map fst m) ->
  length out = length m ->
  (forall p, p ∈ map fst m ->
     assoc_get p m = nth (row_index p (map fst m)) out 0) ->
  zip (map fst m) out = m.
Proof.
  induction m as [|[q w] m IH]; intros out; simpl; [done|].
  destruct out as [|o out]; simpl; [done|]. intros Hnd Hlen Hget.
  apply NoDup_cons in Hnd as [Hq Hnd].
  assert (Hw := Hget q). rewrite coord_eqb_refl in Hw. simpl in Hw.
  rewrite <- Hw by (rewrite elem_of_cons; auto). f_equal.
  apply IH; [done|lia|]. intros p Hp.
  assert (Hpq : coord_eqb p q = false).
  { apply coord_eqb_neq. by intros ->. }
  specialize (Hget p). rewrite Hpq in Hget. simpl in Hget.
  apply Hget. rewrite elem_of_cons. auto.
Qed.

Lemma bincount_length_bound (idx : list nat) (n : nat) :
  Forall (fun i => (i < n)%nat) idx ->
  foldr (fun i m => Nat.max (S i) m) n idx = n.
Proof.
  induction 1 as [|i idx Hi _ IH]; simpl; [done|]. rewrite IH. lia.
Qed.

Lemma zip_row_index (u pairs : list coord) (w : list Q) :
  zip (map (fun p => row_index p u) pairs) w =
  map (fun t : coord * Q => (row_index t.1 u, t.2)) (zip pairs w).
Proof.
  revert w. induction pairs as [|p pairs IH]; intros [|v w]; simpl;
    [done..|]. by rewrite IH.
Qed.

Lemma np_kron_length (a b : list Q) :
  length (np_kron a b) = (length a * length b)%nat.
Proof.
  unfold np_kron. induction a as [|v a IH]; simpl; [done|].
  by rewrite length_app, length_map, IH.
Qed.

(** The values that [np.bincount] leaves in the slots of the sorted
    distinct coordinates are the entries of the rebuilt matrix. *)
Lemma bincount_is_rebuild (pairs : list coord) (w : list Q) :
  length w = length pairs ->
  exists K_data,
    np_bincount (np_unique_rows pairs).2 w
      (length (np_unique_rows pairs).1) = Return K_data /\
    length K_data = length (unique_rows pairs) /\
    zip (unique_rows pairs) K_data =
      fold_left (fun m (t : coord * Q) => coo_add t.1 t.2 m)
        (zip pairs w) [].
Proof.
  intros Hlen. unfold np_unique_rows, np_bincount; simpl.
  set (u := unique_rows pairs).
  assert (Hu : NoDup u) by apply increasing_NoDup, unique_rows_increasing.
  rewrite length_map, <- Hlen, Nat.eqb_refl.
  rewrite bincount_length_bound.
  2:{ apply Forall_forall. intros i Hi.
      apply list_elem_of_fmap in Hi as (p & -> & Hp).
      by apply row_index_lt, unique_rows_elem. }
  eexists. split; [reflexivity|].
  rewrite zip_row_index.
  destruct (accumulate_fold u (zip pairs w) [] (replicate (length u) 0))
    as (Hinc & Hlen' & Hget).
  - done.
  - apply Forall_forall. intros [p v] Hin; simpl.
    apply unique_rows_elem. by apply elem_of_zip_l in Hin.
  - by rewrite length_replicate.
  - intros p Hp; simpl. rewrite nth_lookup, lookup_replicate_2; [done|].
    by apply row_index_lt.
  - set (m := fold_left _ (zip pairs w) []) in *.
    assert (Hkeys : map fst m = u).
    { unfold m, u, unique_rows. clear -Hlen.
      assert (G : forall l m0,
        map fst (fold_left (fun m (t : coord * Q) => coo_add t.1 t.2 m) l m0)
        = fold_left (fun u p => insert_row p u) (map fst l) (map fst m0)).
      { induction l as [|t l IH]; simpl; intros m0; [done|].
        by rewrite IH, coo_add_keys. }
      rewrite G; simpl. f_equal.
      change (map fst (zip pairs w)) with (fst <$> zip pairs w).
      rewrite fst_zip; [done|lia]. }
    split; [done|].
    set (out := fold_left bincount_step _ _) in *.
    pose proof (entries_by_value m out) as E.
    rewrite Hkeys in E. apply E; [done| |done].
    by rewrite Hlen', <- Hkeys, length_map.
Qed.

(** C7.  For all index arrays [iK], [jK] (whatever the grid they were built
    for) and every vector of element stiffness scalars, with one index
    pair per weighted local stiffness value: overwriting the stored values
    of the template with the sums taken through the precomputed index map
    succeeds and yields the matrix, coordinate by coordinate and value by
    value, that a rebuild from the triples (row, column, value) with
    duplicates summed yields. *)
Theorem assembly_map_matches_rebuild (iK jK : list Z) (ndof : Z)
    (assembly_map : list nat) (nUnique : nat) (K0 K_template : csr)
    (stiff_vals : list Q) (KE : list (list Q)) :
  build_assembly iK jK ndof = Return (assembly_map, nUnique, K0) ->
  csr_n K_template = csr_n K0 ->
  csr_coords K_template = csr_coords K0 ->
  length (csr_data K_template) = length (csr_data K0) ->
  length iK = (length stiff_vals * length (ravel_C KE))%nat ->
  exists K,
    assemble K_template assembly_map nUnique stiff_vals KE = Return K /\
    csr_n K = ndof /\
    csr_coords K = csr_coords K_template /\
    csr_entries K =
      rebuild_from_scratch iK jK (np_kron stiff_vals (ravel_C KE)).
Proof.
  intros Hbuild Hn Hcoords Hdata HiK.
  unfold build_assembly, vstack_T in Hbuild.
  rewrite !length_map in Hbuild.
  destruct (Nat.eqb_spec (length iK) (length jK)) as [HjK|]; [|done].
  simpl in Hbuild.
  set (pairs := zip (map (fun i => (i - 1)%Z) iK)
                    (map (fun j => (j - 1)%Z) jK)) in *.
  unfold csr_matrix in Hbuild.
  destruct (_ && _); [|done]. simpl in Hbuild.
  injection Hbuild as <- <- <-. simpl in *.
  set (w := np_kron stiff_vals (ravel_C KE)).
  destruct (bincount_is_rebuild pairs w) as (K_data & Hbin & Hlen & Hent).
  { unfold w, pairs. rewrite np_kron_length, length_zip_with, !length_map.
    lia. }
  simpl in Hbin. unfold assemble. fold w. rewrite Hbin. simpl.
  unfold assign_all.
  rewrite Hdata, length_replicate, Hlen, Nat.eqb_refl. simpl.
  eexists. split; [reflexivity|]. simpl. repeat split; [done|].
  unfold csr_entries; simpl. by rewrite Hcoords.
Qed.

(** The bar of three elements: twelve index pairs, ten of them distinct. *)
Lemma assembly_map_matches_rebuild_witness :
  exists K,
    assemble (mk_csr 48
                [(0, 0); (0, 1); (1, 0); (1, 1); (1, 2); (2, 1); (2, 2);
                 (2, 3); (3, 2); (3, 3)]%Z
                [1; 2; 3; 4; 5; 6; 7; 8; 9; 10])
      [0; 1; 2; 3; 3; 4; 5; 6; 6; 7; 8; 9]%nat 10
      [1 # 2; 1 # 4; 1 # 8] [[1; - (1)]; [- (1); 1]] = Return K /\
    csr_n K = 48%Z /\
    csr_coords K =
      [(0, 0); (0, 1); (1, 0); (1, 1); (1, 2); (2, 1); (2, 2); (2, 3);
       (3, 2); (3, 3)]%Z /\
    csr_entries K =
      rebuild_from_scratch [1; 1; 2; 2; 2; 2; 3; 3; 3; 3; 4; 4]%Z
        [1; 2; 1; 2; 2; 3; 2; 3; 3; 4; 3; 4]%Z
        (np_kron [1 # 2; 1 # 4; 1 # 8] (ravel_C [[1; - (1)]; [- (1); 1]])).
Proof.
  apply (assembly_map_matches_rebuild
           [1; 1; 2; 2; 2; 2; 3; 3; 3; 3; 4; 4]%Z
           [1; 2; 1; 2; 2; 3; 2; 3; 3; 4; 3; 4]%Z 48
           [0; 1; 2; 3; 3; 4; 5; 6; 6; 7; 8; 9]%nat 10
           (mk_csr 48
              [(0, 0); (0, 1); (1, 0); (1, 1); (1, 2); (2, 1); (2, 2);
               (2, 3); (3, 2); (3, 3)]%Z (replicate 10 0)));
    reflexivity.
Defined.

(** ** The effect monad *)

Lemma obind_Return {A B} (r : res A) (f : A -> res B) (b : B) :
  obind r f = Return b -> exists a, r = Return a /\ f a = Return b.
Proof. destruct r; simpl; [eauto|done]. Qed.

Lemma bind_Ok {A B} (m : M A) (f : A -> M B) (tr : list event) (b : B) :
  m ≫= f = (tr, Ok b) ->
  exists t1 a t2, m = (t1, Ok a) /\ f a = (t2, Ok b) /\ tr = t1 ++ t2.
Proof.
  destruct m as [t1 [a| |]]; unfold mbind, M_bind; [|done..].
  destruct (f a) as [t2 r] eqn:E. intros [= <- ->]. eauto 6.
Qed.

Lemma lift_Ok {A} (r : res A) (tr : list event) (a : A) :
  lift r = (tr, Ok a) -> r = Return a /\ tr = [].
Proof. unfold lift. destruct r; simpl; [|done]. by intros [= <- ->]. Qed.

Lemma call_Ok {A} (f : collaborator) (r : res A) (tr : list event)
    (a : A) :
  call f r = (tr, Ok a) -> r = Return a /\ tr = [Call f].
Proof. unfold call. destruct r; simpl; [|done]. by intros [= <- ->]. Qed.

Lemma mret_Ok {A} (a b : A) (tr : list event) :
  (mret a : M A) = (tr, Ok b) -> a = b /\ tr = [].
Proof. unfold mret, M_ret. by intros [= <- ->]. Qed.


Lemma bind_Raise {A B} (m : M A) (f : A -> M B) (t : list event) (e : exn) :
  m = (t, Raise e) -> m ≫= f = (t, Raise e).
Proof. by intros ->. Qed.

Lemma bind_step {A B} (m : M A) (f : A -> M B) (t : list event) (a : A) :
  m = (t, Ok a) -> m ≫= f = ((t ++ trace (f a)), result (f a)).
Proof. intros ->. unfold mbind, M_bind, trace, result. by destruct (f a). Qed.

(** Takes a successful run of a sequence of binds apart. *)
Ltac split_bind Hrun :=
  let t1 := fresh "t" in
  let t2 := fresh "t" in
  let a := fresh "a" in
  let Hm := fresh "Hm" in
  let Et := fresh "Et" in
  apply bind_Ok in Hrun as (t1 & a & t2 & Hm & Hrun & Et);
  cbv beta zeta in Hrun;
  first [ apply lift_Ok in Hm as [Hm ?]
        | apply call_Ok in Hm as [Hm ?]
        | apply mret_Ok in Hm as [Hm ?]
        | idtac ].

Lemma emit_Ok (e : event) (tr : list event) (u : unit) :
  emit e = (tr, Ok u) -> tr = [e].
Proof. unfold emit. by intros [= <-]. Qed.

Ltac simpl_state :=
  cbn [F freedofs0 fixeddof0 KE edofMat assembly_map nUnique H Hs mask
       design_nele K_template U x xPhys loop change c_prev c
       current_volume_fraction set_K_template set_U set_design set_loop
       set_objective set_current_volume_fraction] in *.

Ltac step_bind Hrun :=
  split_bind Hrun;
  try match goal with
      | Hm : log _ _ = (_, Ok _) |- _ => apply emit_Ok in Hm
      | Hm : emit _ = (_, Ok _) |- _ => apply emit_Ok in Hm
      end;
  simpl_state; subst.

(** ** One iteration and the setup, taken apart *)

Section Driver.
Context `{Collaborators}.
Variables nelx nely nelz : Z.
Variables volfrac penal rmin disp_thres : Q.
Variable obstacle_mask : option (ndarray bool).
Variable tolx : Q.
Variable maxloop : Z.

Lemma iteration_Ok s tr s' :
  iteration nelx nely nelz volfrac penal disp_thres s = (tr, Ok s') ->
  exists K U' cval c_delta dc dv xnew0 chg xnew xP0 xP vol,
    assemble (K_template s) (assembly_map s) (nUnique s)
      (map (fun v => Emin + float_power v penal * (E0 - Emin))
         (ravel_F (xPhys s))) (KE s) = Return K /\
    optimality_criteria_update (x s) dc dv volfrac (H s) (Hs s)
      (nele nelx nely nelz) (mask s) (design_nele s) = Return (xnew0, chg) /\
    mask_assign xnew0 (mask s) 0 = Return xnew /\
    filter_density (H s) (Hs s) xnew (nely, nelx, nelz) = Return xP0 /\
    mask_assign xP0 (mask s) 0 = Return xP /\
    s' = mk_state (F s) (freedofs0 s) (fixeddof0 s) (KE s) (edofMat s)
           (assembly_map s) (nUnique s) (H s) (Hs s) (mask s)
           (design_nele s) K U' xnew xP (loop s + 1)%Z chg (Some cval)
           (Some cval) (Some vol) /\
    tr = [Call Solver; Call ElementCompliance; Call OptimalityCriteriaUpdate;
          Log DEBUG (MsgIteration (loop s + 1) cval c_delta vol chg);
          PbarUpdate].
Proof.
  intros Hrun. unfold iteration in Hrun. cbv zeta in Hrun.
  do 12 (step_bind Hrun).
  match goal with
  | a : (ndarray Q * Q)%type |- _ => destruct a as [xnew0 chg]
  end.
  do 6 (step_bind Hrun).
  unfold displayflag in Hrun.
  step_bind Hrun.
  apply mret_Ok in Hrun as [<- ->].
  simpl_state.
  repeat eexists; eauto.
Qed.

Lemma top3d_setup_Ok s tr :
  top3d_setup nelx nely nelz volfrac rmin obstacle_mask tolx maxloop
    = (tr, Ok s) ->
  effective_mask nelx nely nelz obstacle_mask = Return (mask s) /\
  nele nelx nely nelz <> 0%Z /\
  build_filter nelx nely nelz rmin = Return (H s, Hs s) /\
  (exists iK jK,
     build_edof nelx nely nelz = Return (edofMat s, iK, jK) /\
     build_assembly iK jK (ndof nelx nely nelz)
       = Return (assembly_map s, nUnique s, K_template s)) /\
  (exists x0,
     np_full (nely, nelx, nelz) volfrac = Return x0 /\
     mask_assign x0 (mask s) 0 = Return (x s)) /\
  filter_density (H s) (Hs s) (x s) (nely, nelx, nelz) = Return (xPhys s) /\
  loop s = 0%Z /\ change s = 1 /\
  c_prev s = None /\ c s = None /\ current_volume_fraction s = None /\
  tr = setup_trace nelx nely nelz volfrac rmin obstacle_mask tolx maxloop.
Proof.
  intros Hrun. unfold top3d_setup in Hrun. cbv zeta in Hrun.
  split_bind Hrun.
  assert (Hmask : effective_mask nelx nely nelz obstacle_mask = Return a /\ t = []).
  { unfold effective_mask. destruct obstacle_mask.
    - by apply mret_Ok in Hm as [-> ->].
    - by apply lift_Ok in Hm. }
  destruct Hmask as [Hmask ->]. clear Hm.
  split_bind Hrun.
  destruct (Z.eqb_spec (nele nelx nely nelz) 0) as [|Hnele]; [done|].
  apply mret_Ok in Hm as [_ ->].
  do 4 (step_bind Hrun).
  match goal with
  | Hs : build_supports _ _ _ _ = Return ?a |- _ => destruct a as [fr fx]
  end.
  do 5 (step_bind Hrun).
  match goal with
  | He : build_edof _ _ _ = Return ?a |- _ => destruct a as [[ed iK] jK]
  end.
  step_bind Hrun.
  match goal with
  | Ha : build_assembly _ _ _ = Return ?a |- _ => destruct a as [[am nU] K0]
  end.
  do 2 (step_bind Hrun).
  match goal with
  | Hf : build_filter _ _ _ _ = Return ?a |- _ => destruct a as [Hf0 Hs0]
  end.
  do 7 (step_bind Hrun).
  apply mret_Ok in Hrun as [<- ->]. simpl_state.
  unfold setup_trace. rewrite Hmask.
  repeat split; eauto.
Qed.

End Driver.

(** Which form is applied to which field in a pass through the loop body:
    the sensitivity form to [dc] and [dv] (lines 180-181), the density
    form to the updated design (line 196). *)
Lemma iteration_filters `{Collaborators} (nelx nely nelz : Z)
    (volfrac penal disp_thres : Q) (s : state) (tr : list event)
    (s' : state) :
  iteration nelx nely nelz volfrac penal disp_thres s = (tr, Ok s') ->
  exists ce dc0 dv0 dc dv xnew0 chg xP0,
    filter_sensitivity (H s) (Hs s)
      (amul (amap (fun v => - penal * (E0 - Emin)
                            * float_power v (penal - 1)) (xPhys s)) ce)
      (nely, nelx, nelz) = Return dc0 /\
    filter_sensitivity (H s) (Hs s) (amap (fun _ => 1) (xPhys s))
      (nely, nelx, nelz) = Return dv0 /\
    mask_assign dc0 (mask s) 0 = Return dc /\
    mask_assign dv0 (mask s) 0 = Return dv /\
    optimality_criteria_update (x s) dc dv volfrac (H s) (Hs s)
      (nele nelx nely nelz) (mask s) (design_nele s) = Return (xnew0, chg) /\
    mask_assign xnew0 (mask s) 0 = Return (x s') /\
    filter_density (H s) (Hs s) (x s') (nely, nelx, nelz) = Return xP0 /\
    mask_assign xP0 (mask s) 0 = Return (xPhys s').
Proof.
  intros Hrun. unfold iteration in Hrun. cbv zeta in Hrun.
  do 12 (step_bind Hrun).
  match goal with
  | Hoc : optimality_criteria_update _ _ _ _ _ _ _ _ _ = Return ?a |- _ =>
      destruct a as [xnew0 chg]
  end.
  do 6 (step_bind Hrun).
  unfold displayflag in Hrun.
  step_bind Hrun.
  apply mret_Ok in Hrun as [<- ->].
  simpl_state.
  repeat eexists; eauto.
Qed.

(** ** The loop *)

Lemma bind_no_fuel {A B} (m : M A) (f : A -> M B) :
  result m <> OutOfFuel -> (forall a, result (f a) <> OutOfFuel) ->
  result (m ≫= f) <> OutOfFuel.
Proof.
  destruct m as [t [a| |]]; unfold mbind, M_bind, result; simpl;
    intros Hm Hf; [|done..].
  specialize (Hf a). by destruct (f a).
Qed.

Lemma bind_no_fuel_run {A B} (m : M A) (f : A -> M B) :
  result m <> OutOfFuel ->
  (forall t a, m = (t, Ok a) -> result (f a) <> OutOfFuel) ->
  result (m ≫= f) <> OutOfFuel.
Proof.
  destruct m as [t [a| |]]; unfold mbind, M_bind, result; simpl;
    intros Hm Hf; [|done..].
  specialize (Hf t a eq_refl). by destruct (f a).
Qed.

Lemma lift_no_fuel {A} (r : res A) : result (lift r) <> OutOfFuel.
Proof. by destruct r. Qed.

Lemma call_no_fuel {A} (f : collaborator) (r : res A) :
  result (call f r) <> OutOfFuel.
Proof. by destruct r. Qed.

Ltac no_fuel :=
  repeat first
    [ apply bind_no_fuel; [|intros]
    | apply lift_no_fuel
    | apply call_no_fuel
    | match goal with
      | |- result (let '(_, _) := ?p in _) <> _ => destruct p
      | |- result (match ?o with Some _ => _ | None => _ end) <> _ =>
          destruct o
      | |- result (if ?b then _ else _) <> _ => destruct b
      end
    | done ].

Section Loop.
Context `{Collaborators}.
Variables nelx nely nelz : Z.
Variables volfrac penal rmin disp_thres : Q.
Variable obstacle_mask : option (ndarray bool).
Variable tolx : Q.
Variable maxloop : Z.

Lemma iteration_no_fuel s :
  result (iteration nelx nely nelz volfrac penal disp_thres s) <> OutOfFuel.
Proof. unfold iteration. cbv zeta. no_fuel. Qed.

Lemma top3d_setup_no_fuel :
  result (top3d_setup nelx nely nelz volfrac rmin obstacle_mask tolx maxloop)
    <> OutOfFuel.
Proof. unfold top3d_setup. cbv zeta. no_fuel. Qed.

Lemma top3d_finish_no_fuel s :
  result (top3d_finish volfrac maxloop s) <> OutOfFuel.
Proof. unfold top3d_finish. no_fuel. Qed.

Lemma iteration_loop s tr s' :
  iteration nelx nely nelz volfrac penal disp_thres s = (tr, Ok s') ->
  loop s' = (loop s + 1)%Z.
Proof.
  intros Hrun. apply iteration_Ok in Hrun.
  destruct Hrun as (?&?&?&?&?&?&?&?&?&?&?&?&_&_&_&_&_&->&_). done.
Qed.

Lemma while_loop_exit fuel s :
  loop_condition tolx maxloop s = false ->
  while_loop nelx nely nelz volfrac penal disp_thres tolx maxloop fuel s
    = mret s.
Proof. intros Hc. destruct fuel; simpl; by rewrite Hc. Qed.

(** The fuel handed to the loop by [top3d] is never used up. *)
Lemma while_loop_no_fuel fuel s :
  (maxloop - loop s <= Z.of_nat fuel)%Z ->
  result (while_loop nelx nely nelz volfrac penal disp_thres tolx maxloop
            fuel s) <> OutOfFuel.
Proof.
  revert s. induction fuel as [|fuel IH]; intros s Hfuel; simpl.
  - destruct (loop_condition tolx maxloop s) eqn:Hc; [|done].
    unfold loop_condition in Hc.
    apply andb_true_iff in Hc as [_ Hc]. apply Z.ltb_lt in Hc. lia.
  - destruct (loop_condition tolx maxloop s) eqn:Hc; [|done].
    apply bind_no_fuel_run; [apply iteration_no_fuel|]. intros t s' Hit.
    apply IH. apply iteration_loop in Hit. lia.
Qed.

(** A property of the state that every iteration preserves holds when the
    loop is left, and the loop is left because its condition fails. *)
Lemma while_loop_invariant (P : state -> Prop) :
  (forall s t s',
     P s -> loop_condition tolx maxloop s = true ->
     iteration nelx nely nelz volfrac penal disp_thres s = (t, Ok s') ->
     P s') ->
  forall fuel s tr s',
  P s ->
  while_loop nelx nely nelz volfrac penal disp_thres tolx maxloop fuel s
    = (tr, Ok s') ->
  P s' /\ loop_condition tolx maxloop s' = false.
Proof.
  intros Hstep. induction fuel as [|fuel IH]; intros s tr s' HP; simpl.
  - destruct (loop_condition tolx maxloop s) eqn:Hc; [done|].
    by intros [-> ->]%mret_Ok.
  - destruct (loop_condition tolx maxloop s) eqn:Hc.
    + intros Hrun. split_bind Hrun. eapply IH; [|exact Hrun]. eauto.
    + by intros [-> ->]%mret_Ok.
Qed.

(** The loop counter counts the passes through the body, one solve each,
    and stops at [maxloop]. *)
Lemma while_loop_count fuel s tr s' :
  while_loop nelx nely nelz volfrac penal disp_thres tolx maxloop fuel s
    = (tr, Ok s') ->
  (loop s <= loop s')%Z /\ (loop s' <= Z.max (loop s) maxloop)%Z /\
  Z.of_nat (solver_calls tr) = (loop s' - loop s)%Z.
Proof.
  revert s tr. induction fuel as [|fuel IH]; intros s tr; simpl.
  - destruct (loop_condition tolx maxloop s) eqn:Hc; [done|].
    intros [-> ->]%mret_Ok. unfold solver_calls; simpl. lia.
  - destruct (loop_condition tolx maxloop s) eqn:Hc.
    + intros Hrun. split_bind Hrun. subst tr.
      apply IH in Hrun as (Hle & Hmax & Hcalls).
      apply andb_true_iff in Hc as [_ Hc]. apply Z.ltb_lt in Hc.
      pose proof (iteration_loop _ _ _ Hm) as Hl.
      apply iteration_Ok in Hm.
      destruct Hm as (?&?&?&?&?&?&?&?&?&?&?&?&_&_&_&_&_&_&->).
      unfold solver_calls in *. rewrite List.filter_app, length_app.
      simpl. lia.
    + intros [-> ->]%mret_Ok. unfold solver_calls; simpl. lia.
Qed.

End Loop.

(** ** Termination *)

Section Termination.
Context `{Collaborators}.
Variables nelx nely nelz : Z.
Variables volfrac penal rmin disp_thres : Q.
Variable obstacle_mask : option (ndarray bool).
Variable tolx : Q.
Variable maxloop : Z.

(** [top3d] ends, by returning or by raising: the fuel of the model is
    never what stops the loop. *)
Lemma top3d_no_fuel :
  result (top3d nelx nely nelz volfrac penal rmin disp_thres obstacle_mask
            tolx maxloop) <> OutOfFuel.
Proof.
  unfold top3d, top3d_loop.
  apply bind_no_fuel; [|intros s; apply top3d_finish_no_fuel].
  apply bind_no_fuel_run; [apply top3d_setup_no_fuel|].
  intros t s Hs. apply while_loop_no_fuel.
  destruct (top3d_setup_Ok _ _ _ _ _ _ _ _ _ _ Hs)
    as (_&_&_&_&_&_&Hl&_).
  rewrite Hl. lia.
Qed.

(** The loop makes at most [maxloop] passes, one linear solve each, and
    is left because [change <= tolx] or because the cap is reached. *)
Lemma top3d_loop_bounded tr s :
  top3d_loop nelx nely nelz volfrac penal rmin disp_thres obstacle_mask
    tolx maxloop = (tr, Ok s) ->
  (0 <= loop s <= Z.max 0 maxloop)%Z /\
  Z.of_nat (solver_calls tr) = loop s /\
  (change s <= tolx \/ (maxloop <= loop s)%Z).
Proof.
  unfold top3d_loop. intros Hrun. split_bind Hrun. subst tr.
  destruct (top3d_setup_Ok _ _ _ _ _ _ _ _ _ _ Hm)
    as (_&_&_&_&_&_&Hl&_&_&_&_&->).
  destruct (while_loop_count _ _ _ _ _ _ _ _ _ _ _ _ Hrun)
    as (Hle & Hmax & Hcalls).
  apply (while_loop_invariant nelx nely nelz volfrac penal disp_thres
           tolx maxloop (fun _ => True)) in Hrun as [_ Hcond]; [|done..].
  rewrite Hl in *. repeat split; try lia.
  - unfold solver_calls in *. rewrite List.filter_app, length_app.
    simpl. lia.
  - unfold loop_condition in Hcond. apply andb_false_iff in Hcond as [Hc|Hc].
    + left. apply negb_false_iff in Hc. by apply Qle_bool_iff.
    + right. by apply Z.ltb_ge.
Qed.

End Termination.

(** What holds of every run that does return: the array is the physical
    density of the last pass, at least one pass and at most [maxloop]
    were made, and reaching the cap shows as a warning only. *)
Lemma top3d_returns_latest_density `{Collaborators} (nelx nely nelz : Z)
    (volfrac penal rmin disp_thres : Q)
    (obstacle_mask : option (ndarray bool)) (tolx : Q) (maxloop : Z)
    (tr : list event) (a : ndarray Q) :
  top3d nelx nely nelz volfrac penal rmin disp_thres obstacle_mask tolx
    maxloop = (tr, Ok a) ->
  exists t s cv vol,
    top3d_loop nelx nely nelz volfrac penal rmin disp_thres obstacle_mask
      tolx maxloop = (t, Ok s) /\
    a = xPhys s /\
    (1 <= loop s <= maxloop)%Z /\
    (change s <= tolx \/ loop s = maxloop) /\
    tr = t ++ [PbarClose;
               if (maxloop <=? loop s)%Z
               then Log WARNING (MsgMaxIterations maxloop)
               else Log INFO (MsgConverged (loop s));
               Log INFO (MsgFinalObjective cv);
               Log INFO (MsgFinalVolume vol volfrac)].
Proof.
  intros Hrun. unfold top3d in Hrun. split_bind Hrun. rename a0 into s.
  destruct (top3d_loop_bounded _ _ _ _ _ _ _ _ _ _ _ _ Hm)
    as ([Hlo Hhi] & _ & Hexit).
  assert (Hpass : c s = None \/ (1 <= loop s)%Z).
  { unfold top3d_loop in Hm. split_bind Hm.
    destruct (top3d_setup_Ok _ _ _ _ _ _ _ _ _ _ Hm0)
      as (_&_&_&_&_&_&Hl&_&_&Hc&_).
    apply (while_loop_invariant nelx nely nelz volfrac penal disp_thres
             tolx maxloop
             (fun s => (0 <= loop s)%Z /\ (c s = None \/ (1 <= loop s)%Z)))
      in Hm as [[_ Hor] _]; [done| |].
    - intros s1 t' s2 [Hnn _] _ Hit. apply iteration_loop in Hit. lia.
    - split; [lia|by left]. }
  unfold top3d_finish in Hrun.
  step_bind Hrun.
  split_bind Hrun.
  match goal with
  | Hif : (if _ then _ else _) = (?tl, Ok _) |- _ =>
      assert (Hlog : tl = [if (maxloop <=? loop s)%Z
                           then Log WARNING (MsgMaxIterations maxloop)
                           else Log INFO (MsgConverged (loop s))])
        by (destruct (maxloop <=? loop s)%Z; by apply emit_Ok in Hif);
      clear Hif
  end.
  subst.
  split_bind Hrun. destruct (c s) as [cv|] eqn:Hc; [|done].
  match goal with
  | Hret : mret _ = (_, Ok _) |- _ => apply mret_Ok in Hret as [<- ->]
  end.
  step_bind Hrun.
  split_bind Hrun.
  destruct (current_volume_fraction s) as [vol|]; [|done].
  match goal with
  | Hret : mret _ = (_, Ok _) |- _ => apply mret_Ok in Hret as [<- ->]
  end.
  step_bind Hrun. apply mret_Ok in Hrun as [<- ->].
  destruct Hpass as [|Hpass]; [done|].
  exists t, s, cv, vol. repeat split; try done; try lia.
  destruct Hexit as [|Hcap]; [by left|right; lia].
Qed.

(** ** The claims about the control flow of [top3d] *)

Section ControlFlow.
Context `{Collaborators}.
Variables nelx nely nelz : Z.
Variables volfrac penal rmin disp_thres : Q.
Variable tolx : Q.
Variable maxloop : Z.

(** C10.  For all grid dimensions (none negative, so that the mask
    exists) and all optimisation parameters, [top3d] called with
    [obstacle_mask=None] does exactly what it does when called with the
    all-[False] mask of shape (nely, nelx, nelz): the same events and the
    same result. *)
Theorem top3d_default_mask :
  (0 <= nelx)%Z -> (0 <= nely)%Z -> (0 <= nelz)%Z ->
  top3d nelx nely nelz volfrac penal rmin disp_thres None tolx maxloop =
  top3d nelx nely nelz volfrac penal rmin disp_thres
    (Some (all_false_mask (nely, nelx, nelz))) tolx maxloop.
Proof.
  intros Hx Hy Hz. unfold top3d, top3d_loop, top3d_setup, np_full.
  assert (Hsh : shape_nonneg (nely, nelx, nelz) = true).
  { unfold shape_nonneg. rewrite !andb_true_iff, !Z.leb_le. done. }
  by rewrite Hsh.
Qed.

Variable obstacle_mask : option (ndarray bool).

Lemma loop_condition_initial s :
  loop s = 0%Z -> change s = 1 ->
  1 <= tolx \/ (maxloop <= 0)%Z ->
  loop_condition tolx maxloop s = false.
Proof.
  intros Hl Hc Hor. unfold loop_condition. rewrite Hl, Hc.
  apply andb_false_iff. destruct Hor as [Ht|Hm].
  - left. apply negb_false_iff. by apply Qle_bool_iff.
  - right. apply Z.ltb_ge. lia.
Qed.

Lemma top3d_loop_skipped :
  1 <= tolx \/ (maxloop <= 0)%Z ->
  top3d_loop nelx nely nelz volfrac penal rmin disp_thres obstacle_mask
    tolx maxloop =
  top3d_setup nelx nely nelz volfrac rmin obstacle_mask tolx maxloop.
Proof.
  intros Hor. unfold top3d_loop.
  destruct (top3d_setup _ _ _ _ _ _ _ _) as [t [s| |]] eqn:Hs; [|done..].
  destruct (top3d_setup_Ok _ _ _ _ _ _ _ _ _ _ Hs)
    as (_&_&_&_&_&_&Hl&Hc&_).
  rewrite (bind_step _ _ t s eq_refl).
  rewrite while_loop_exit by (by apply loop_condition_initial).
  unfold trace, result; simpl. by rewrite app_nil_r.
Qed.

(** C4 (as amended).  If [tolx] is at least 1.0 (10, for example), the
    loop of [top3d] terminates after zero iterations: [change] starts at
    1.0 and the test at the top of the loop fails the first time it is
    made, so the loop is left in the state the setup produced, with the
    counter at 0 and no linear solve. *)
Theorem large_tolx_zero_iterations :
  1 <= tolx ->
  top3d_loop nelx nely nelz volfrac penal rmin disp_thres obstacle_mask
    tolx maxloop =
  top3d_setup nelx nely nelz volfrac rmin obstacle_mask tolx maxloop /\
  forall tr s,
    top3d_loop nelx nely nelz volfrac penal rmin disp_thres obstacle_mask
      tolx maxloop = (tr, Ok s) ->
    loop s = 0%Z /\ solver_calls tr = 0%nat.
Proof.
  intros Ht. assert (E := top3d_loop_skipped (or_introl Ht)).
  split; [done|]. intros tr s Hrun. rewrite E in Hrun.
  destruct (top3d_setup_Ok _ _ _ _ _ _ _ _ _ _ Hrun)
    as (_&_&_&_&_&_&Hl&_&_&_&_&->).
  done.
Qed.

(** C9.  If the body of the loop never executes, which is the case
    whenever [tolx >= 1.0] or [maxloop <= 0], [top3d] returns no density
    array; once the setup has gone through, it closes the progress bar,
    logs how the loop ended and fails with [UnboundLocalError] at the
    log line of the final objective, [c] never having been bound. *)
Theorem top3d_unbound_local :
  1 <= tolx \/ (maxloop <= 0)%Z ->
  (forall a,
     result (top3d nelx nely nelz volfrac penal rmin disp_thres
               obstacle_mask tolx maxloop) <> Ok a) /\
  (forall tr s,
     top3d_setup nelx nely nelz volfrac rmin obstacle_mask tolx maxloop
       = (tr, Ok s) ->
     top3d nelx nely nelz volfrac penal rmin disp_thres obstacle_mask
       tolx maxloop =
     (tr ++ [PbarClose;
             if (maxloop <=? 0)%Z then Log WARNING (MsgMaxIterations maxloop)
             else Log INFO (MsgConverged 0)],
      Raise UnboundLocalError)).
Proof.
  intros Hor.
  assert (Hfail : forall tr s,
    top3d_setup nelx nely nelz volfrac rmin obstacle_mask tolx maxloop
      = (tr, Ok s) ->
    top3d nelx nely nelz volfrac penal rmin disp_thres obstacle_mask
      tolx maxloop =
    (tr ++ [PbarClose;
            if (maxloop <=? 0)%Z then Log WARNING (MsgMaxIterations maxloop)
            else Log INFO (MsgConverged 0)],
     Raise UnboundLocalError)).
  { intros tr s Hs. unfold top3d. rewrite (top3d_loop_skipped Hor).
    rewrite (bind_step _ _ tr s Hs).
    destruct (top3d_setup_Ok _ _ _ _ _ _ _ _ _ _ Hs)
      as (_&_&_&_&_&_&Hl&_&_&Hc&_&_).
    unfold top3d_finish. rewrite Hl, Hc.
    by destruct (maxloop <=? 0)%Z. }
  split; [|done]. intros a. unfold top3d. rewrite (top3d_loop_skipped Hor).
  destruct (top3d_setup _ _ _ _ _ _ _ _) as [t [s| |]] eqn:Hs; [|done..].
  specialize (Hfail t s eq_refl). unfold top3d in Hfail.
  rewrite (top3d_loop_skipped Hor), Hs in Hfail. by rewrite Hfail.
Qed.

End ControlFlow.

(** ** No validation step *)

Section Validation.
Context `{Collaborators}.
Variables nelx nely nelz : Z.
Variables volfrac penal rmin disp_thres : Q.
Variable obstacle_mask : option (ndarray bool).
Variable tolx : Q.
Variable maxloop : Z.




(** The complementary case: with no element in the grid, or with no mask
    supplied and a negative dimension, the call fails before the first
    event, the former at the division in the first debug line. *)
Lemma top3d_rejects_degenerate_grid :
  (exists e, effective_mask nelx nely nelz obstacle_mask = Throw e) \/
  nele nelx nely nelz = 0%Z ->
  exists e,
    top3d nelx nely nelz volfrac penal rmin disp_thres obstacle_mask
      tolx maxloop = ([], Raise e).
Proof.
  intros Hor. unfold top3d, top3d_loop, top3d_setup. cbv zeta.
  destruct (effective_mask nelx nely nelz obstacle_mask) as [m|e] eqn:Hmask.
  - destruct Hor as [[e He]|Hnele]; [done|].
    exists ZeroDivisionError.
    unfold effective_mask in Hmask. rewrite Hnele.
    destruct obstacle_mask; [done|].
    unfold lift. by rewrite Hmask.
  - exists e. unfold effective_mask in Hmask.
    destruct obstacle_mask; [done|].
    unfold lift. by rewrite Hmask.
Qed.

End Validation.

(** ** Runs of the bar example *)

Lemma top3d_default_mask_witness :
  (0 <= 3)%Z /\ (0 <= 1)%Z /\ (0 <= 1)%Z /\
  Demo.run 0 None (1 # 100) 5 =
  Demo.run 0 (Some (all_false_mask (1, 3, 1)%Z)) (1 # 100) 5.
Proof.
  split; [lia|]. split; [lia|]. split; [lia|].
  unfold Demo.run.
  apply (@top3d_default_mask (Demo.collaborators 0)); lia.
Defined.

(** C4, the claim as stated: with [tolx = 10] the loop of the bar example
    is left with the counter at 0, not 1, and without a single solve. *)
Lemma large_tolx_not_one_iteration :
  exists tr s,
    @top3d_loop (Demo.collaborators 0) 3 1 1 (1 # 2) 3 (3 # 2) (1 # 2) None
      10 2000 = (tr, Ok s) /\
    loop s = 0%Z /\ loop s <> 1%Z /\ solver_calls tr = 0%nat.
Proof.
  eexists _, _. split; [vm_compute; reflexivity|]. by simpl.
Qed.

Lemma large_tolx_zero_iterations_witness :
  1 <= 10 /\
  (@top3d_loop (Demo.collaborators 0) 3 1 1 (1 # 2) 3 (3 # 2) (1 # 2) None
     10 2000 =
   @top3d_setup (Demo.collaborators 0) 3 1 1 (1 # 2) (3 # 2) None 10 2000 /\
   forall tr s,
     @top3d_loop (Demo.collaborators 0) 3 1 1 (1 # 2) 3 (3 # 2) (1 # 2) None
       10 2000 = (tr, Ok s) ->
     loop s = 0%Z /\ solver_calls tr = 0%nat).
Proof.
  assert (Ht : 1 <= 10) by (unfold Qle; simpl; lia).
  split; [exact Ht|].
  exact (@large_tolx_zero_iterations (Demo.collaborators 0) 3 1 1 (1 # 2) 3
           (3 # 2) (1 # 2) 10 2000 None Ht).
Defined.

Lemma top3d_unbound_local_witness :
  (1 <= 1 \/ (10 <= 0)%Z) /\
  (forall a, result (Demo.run 0 None 1 10) <> Ok a) /\
  (forall tr s,
     @top3d_setup (Demo.collaborators 0) 3 1 1 (1 # 2) (3 # 2) None 1 10
       = (tr, Ok s) ->
     Demo.run 0 None 1 10 =
     (tr ++ [PbarClose;
             if (10 <=? 0)%Z then Log WARNING (MsgMaxIterations 10)
             else Log INFO (MsgConverged 0)],
      Raise UnboundLocalError)).
Proof.
  assert (Hor : 1 <= 1 \/ (10 <= 0)%Z) by (left; unfold Qle; simpl; lia).
  split; [exact Hor|]. unfold Demo.run.
  exact (@top3d_unbound_local (Demo.collaborators 0) 3 1 1 (1 # 2) 3 (3 # 2)
           (1 # 2) 1 10 None Hor).
Defined.

(** C6, at an input that is valid (positive dimensions, [volfrac = 0.5],
    [penal = 3], [rmin = 1.5], [tolx = 1.0], [maxloop = 10], no mask): the
    loop is left as converged before its first pass, and [top3d] raises
    [UnboundLocalError] where the claim has it return the density. *)
Theorem top3d_valid_input_raises :
  result (Demo.run 0 None 1 10) = Raise UnboundLocalError /\
  solver_calls (trace (Demo.run 0 None 1 10)) = 0%nat /\
  last (trace (Demo.run 0 None 1 10)) = Some (Log INFO (MsgConverged 0)).
Proof. by vm_compute. Qed.



(** ** What the loop leaves alone *)

Lemma assemble_pattern K am n sv ke K' :
  assemble K am n sv ke = Return K' ->
  csr_n K' = csr_n K /\ csr_coords K' = csr_coords K.
Proof.
  unfold assemble. intros Hrun.
  apply obind_Return in Hrun as (K_data & _ & Hrun).
  apply obind_Return in Hrun as (data & _ & Hrun).
  by injection Hrun as <-.
Qed.

Lemma same_setup_refl s : same_setup s s.
Proof. by repeat split. Qed.

Lemma same_setup_trans s1 s2 s3 :
  same_setup s1 s2 -> same_setup s2 s3 -> same_setup s1 s3.
Proof.
  unfold same_setup. intros H12 H23.
  destruct H12 as (?&?&?&?&?&?&?&?&?&?&?&?&?).
  destruct H23 as (?&?&?&?&?&?&?&?&?&?&?&?&?).
  repeat split; congruence.
Qed.

Section Frame.
Context `{Collaborators}.
Variables nelx nely nelz : Z.
Variables volfrac penal rmin disp_thres : Q.
Variable obstacle_mask : option (ndarray bool).
Variable tolx : Q.
Variable maxloop : Z.

Lemma iteration_frame s tr s' :
  iteration nelx nely nelz volfrac penal disp_thres s = (tr, Ok s') ->
  same_setup s s'.
Proof.
  intros Hrun. apply iteration_Ok in Hrun.
  destruct Hrun as (K&?&?&?&?&?&?&?&?&?&?&?&HK&_&_&_&_&->&_).
  apply assemble_pattern in HK as [Hn Hc].
  unfold same_setup; simpl. by repeat split.
Qed.

(** C8.  However many iterations the loop of [top3d] makes, from whatever
    state, the free/fixed partition of the degrees of freedom, the filter
    matrix [H] and its normalisation [Hs], the force vector [F], the
    element table [edofMat], the assembly index map and the sparsity
    pattern of the stiffness matrix are, when the loop is left, what they
    were when it was entered; of the matrix only the stored values can
    differ. *)
Theorem while_loop_frame fuel s tr s' :
  while_loop nelx nely nelz volfrac penal disp_thres tolx maxloop fuel s
    = (tr, Ok s') ->
  same_setup s s'.
Proof.
  intros Hrun.
  apply (while_loop_invariant nelx nely nelz volfrac penal disp_thres
           tolx maxloop (same_setup s)) in Hrun as [Hs _]; [done| |].
  - intros s1 t s2 H1 _ Hit.
    eapply same_setup_trans; [exact H1|]. by eapply iteration_frame.
  - apply same_setup_refl.
Qed.

End Frame.

(** Two iterations of the bar example with the middle element masked. *)
Lemma while_loop_frame_witness :
  exists t0 s tr s',
    @top3d_setup (Demo.collaborators (1 # 2)) 3 1 1 (1 # 2) (3 # 2)
      (Some Demo.middle_mask) (1 # 100) 2 = (t0, Ok s) /\
    @while_loop (Demo.collaborators (1 # 2)) 3 1 1 (1 # 2) 3 (1 # 2)
      (1 # 100) 2 2 s = (tr, Ok s') /\
    loop s' = 2%Z /\
    same_setup s s'.
Proof.
  eexists _, _, _, _.
  split; [vm_compute; reflexivity|].
  match goal with
  | |- ?P /\ _ => assert (Hrun : P) by (vm_compute; reflexivity)
  end.
  split; [exact Hrun|]. split; [reflexivity|].
  exact (@while_loop_frame (Demo.collaborators (1 # 2)) 3 1 1 (1 # 2) 3
           (1 # 2) (1 # 100) 2 2 _ _ _ Hrun).
Defined.

(** ** The range of the densities *)

Lemma fold_left_Qplus (l : list Q) (acc : Q) :
  fold_left Qplus l acc == acc + qsum l.
Proof.
  unfold qsum. revert acc. induction l as [|a l IH]; intros acc; simpl.
  - lra.
  - rewrite IH, (IH (0 + a)). lra.
Qed.

Lemma qsum_cons (a : Q) (l : list Q) : qsum (a :: l) == a + qsum l.
Proof. unfold qsum at 1; simpl. rewrite fold_left_Qplus. lra. Qed.

Lemma in_unit_interval_nth (v : list Q) (j : nat) :
  Forall in_unit_interval v -> in_unit_interval (nth j v 0).
Proof.
  intros Hv. rewrite nth_lookup. destruct (v !! j) as [q|] eqn:E; simpl.
  - by eapply Forall_lookup_1 in Hv.
  - unfold in_unit_interval. lra.
Qed.

Lemma row_dot_bounds (v : list Q) (row : list (nat * Q)) :
  Forall in_unit_interval v ->
  Forall (fun p : nat * Q => 0 <= p.2) row ->
  0 <= row_dot v row <= qsum (map snd row).
Proof.
  intros Hv. unfold row_dot. induction 1 as [|[j h] row Hh _ IH]; simpl.
  - unfold qsum; simpl. lra.
  - rewrite !qsum_cons. simpl in *.
    destruct (in_unit_interval_nth v j Hv) as [H0 H1]. nra.
Qed.

Lemma filter_density_bounds (H : sparse) (Hs : list Q) (v : ndarray Q)
    (sh : shape3) (a : ndarray Q) :
  filter_weights_ok H Hs ->
  Forall in_unit_interval (items v) ->
  filter_density H Hs v sh = Return a ->
  shape a = sh /\ Forall in_unit_interval (items a) /\
  shape_nonneg sh = true /\
  Z.of_nat (length (items a)) = shape_size sh.
Proof.
  unfold filter_weights_ok, filter_density, ravel_F. intros Hw Hv Hrun.
  apply obind_Return in Hrun as (Hv' & Hspmv & Hrun).
  apply obind_Return in Hrun as (q & Hdiv & Hrun).
  unfold reshape_F in Hrun.
  destruct (shape_nonneg sh && _) eqn:Hsh; [|done].
  injection Hrun as <-. simpl.
  apply andb_true_iff in Hsh as [Hnn Hlen]. apply Z.eqb_eq in Hlen.
  repeat split; [|done..].
  unfold spmv in Hspmv. destruct (_ =? _)%nat; [|done].
  injection Hspmv as <-.
  unfold broadcast2 in Hdiv.
  rewrite length_map, (Forall2_length _ _ _ Hw), Nat.eqb_refl in Hdiv.
  injection Hdiv as <-. clear Hlen Hnn.
  induction Hw as [|row hs rws hss (Hpos & Hsum & Hhs) _ IH]; simpl;
    constructor; [|done].
  destruct (row_dot_bounds (items v) row Hv Hpos) as [Hlo Hhi].
  rewrite <- Hsum in Hhi. split.
  - apply Qle_shift_div_l; [done|]. lra.
  - apply Qle_shift_div_r; [done|]. lra.
Qed.

Lemma mask_assign_bounds (a : ndarray Q) (m : ndarray bool) (b : ndarray Q) :
  mask_assign a m 0 = Return b ->
  Forall in_unit_interval (items a) ->
  shape b = shape a /\ shape m = shape a /\
  Forall in_unit_interval (items b).
Proof.
  unfold mask_assign. destruct (shape_eqb _ _) eqn:Hsh; [|done].
  intros [= <-] Ha; simpl. split; [done|]. split.
  - destruct (shape a) as [[a0 a1] a2], (shape m) as [[b0 b1] b2].
    unfold shape_eqb in Hsh. rewrite !andb_true_iff, !Z.eqb_eq in Hsh.
    destruct Hsh as [[-> ->] ->]. done.
  - revert Ha. generalize (items a). induction (items m) as [|x l IH];
      intros [|u us] Hus; simpl; [done..|].
    apply Forall_cons in Hus as [Hu Hus]. constructor; [|by apply IH].
    destruct x; [|done]. unfold in_unit_interval. lra.
Qed.

Lemma mask_assign_zero (a : ndarray Q) (m : ndarray bool) (b : ndarray Q)
    (i : nat) :
  mask_assign a m 0 = Return b ->
  length (items m) = length (items a) ->
  items m !! i = Some true ->
  items b !! i = Some 0.
Proof.
  unfold mask_assign. destruct (shape_eqb _ _); [|done].
  intros [= <-] Hlen Hi; simpl.
  destruct (items a !! i) as [u|] eqn:Hu.
  - rewrite lookup_zip_with, Hi, Hu. done.
  - apply lookup_ge_None in Hu. apply lookup_lt_Some in Hi. lia.
Qed.

Lemma np_full_wf {A} (sh : shape3) (v : A) (a : ndarray A) :
  np_full sh v = Return a -> shape a = sh /\ wf_ndarray a.
Proof.
  unfold np_full, wf_ndarray. destruct (shape_nonneg sh) eqn:Hsh; [|done].
  intros [= <-]; simpl. by rewrite length_replicate.
Qed.

Section Bounds.
Context `{Collaborators}.
Variables nelx nely nelz : Z.
Variables volfrac penal rmin disp_thres : Q.
Variable obstacle_mask : option (ndarray bool).
Variable tolx : Q.
Variable maxloop : Z.

Lemma top3d_finish_Ok s tr a :
  top3d_finish volfrac maxloop s = (tr, Ok a) ->
  a = xPhys s /\ c s <> None /\ current_volume_fraction s <> None.
Proof.
  unfold top3d_finish. intros Hrun.
  do 2 (step_bind Hrun).
  split_bind Hrun. destruct (c s) as [cv|]; [|done].
  step_bind Hrun.
  split_bind Hrun. destruct (current_volume_fraction s) as [vol|]; [|done].
  step_bind Hrun.
  by apply mret_Ok in Hrun as [<- _].
Qed.

Lemma setup_design_in_box s tr :
  0 < volfrac < 1 ->
  top3d_setup nelx nely nelz volfrac rmin obstacle_mask tolx maxloop
    = (tr, Ok s) ->
  Forall in_unit_interval (items (x s)).
Proof.
  intros Hvf Hs.
  destruct (top3d_setup_Ok _ _ _ _ _ _ _ _ _ _ Hs)
    as (_&_&_&_&(x0 & Hfull & Hx)&_).
  eapply mask_assign_bounds; [exact Hx|].
  unfold np_full in Hfull. destruct (shape_nonneg _); [|done].
  injection Hfull as <-. simpl. apply Forall_forall.
  intros v ->%elem_of_replicate_inv. unfold in_unit_interval. lra.
Qed.

Lemma iteration_density_ok s tr s' :
  (forall x dc dv H Hs m dn xnew chg,
     Forall in_unit_interval (items x) ->
     optimality_criteria_update x dc dv volfrac H Hs (nele nelx nely nelz)
       m dn = Return (xnew, chg) ->
     Forall in_unit_interval (items xnew)) ->
  filter_weights_ok (H s) (Hs s) ->
  wf_ndarray (mask s) ->
  Forall in_unit_interval (items (x s)) ->
  iteration nelx nely nelz volfrac penal disp_thres s = (tr, Ok s') ->
  density_ok (nely, nelx, nelz) (mask s) (xPhys s') /\
  Forall in_unit_interval (items (x s')) /\ c s' <> None.
Proof.
  intros Hupd Hw [Hnn Hlen] Hx Hrun. apply iteration_Ok in Hrun.
  destruct Hrun
    as (K&U'&cv&cd&dc&dv&xnew0&chg&xnew&xP0&xP&vol&_&Hoc&Hm1&Hf&Hm2&->&_).
  simpl.
  apply (Hupd _ _ _ _ _ _ _ _ _ Hx) in Hoc.
  destruct (mask_assign_bounds _ _ _ Hm1 Hoc) as (_ & _ & Hxnew).
  destruct (filter_density_bounds _ _ _ _ _ Hw Hxnew Hf)
    as (Hsh & HxP0 & Hshnn & Hsize).
  destruct (mask_assign_bounds _ _ _ Hm2 HxP0) as (HshP & Hshm & HxP).
  split; [|done].
  repeat split; [congruence|done|].
  intros i Hi. eapply mask_assign_zero; [exact Hm2| |exact Hi].
  rewrite Hlen, Hshm, Hsh, <- Hsize. lia.
Qed.

(** C2.  Let the input be valid: [volfrac] in (0, 1), [rmin > 0], and the
    mask, if one is given, an array of its own shape (the other
    conditions of validity are not needed).  Let the filter be as the
    specification describes it for a positive radius (non-negative
    weights, [Hs] the row sums of [H], positive) and let the update keep
    a design that lies in the box [0, 1] inside it.  Then every entry of
    the array returned by [top3d] lies in [0, 1], the array has the shape
    (nely, nelx, nelz), and its entry is exactly 0 at every cell where
    the obstacle mask is true. *)
Theorem top3d_density_bounds tr a :
  0 < volfrac < 1 ->
  0 < rmin ->
  (forall m, obstacle_mask = Some m -> wf_ndarray m) ->
  (0 < rmin ->
   forall H Hs,
     build_filter nelx nely nelz rmin = Return (H, Hs) ->
     filter_weights_ok H Hs) ->
  (forall x dc dv H Hs m dn xnew chg,
     Forall in_unit_interval (items x) ->
     optimality_criteria_update x dc dv volfrac H Hs (nele nelx nely nelz)
       m dn = Return (xnew, chg) ->
     Forall in_unit_interval (items xnew)) ->
  top3d nelx nely nelz volfrac penal rmin disp_thres obstacle_mask
    tolx maxloop = (tr, Ok a) ->
  shape a = (nely, nelx, nelz) /\
  Forall in_unit_interval (items a) /\
  forall m i,
    obstacle_mask = Some m ->
    items m !! i = Some true -> items a !! i = Some 0.
Proof.
  intros Hvf Hrmin Hwf Hfil Hupd Hrun. unfold top3d in Hrun.
  split_bind Hrun. rename a0 into s.
  apply top3d_finish_Ok in Hrun as (-> & Hc & _).
  unfold top3d_loop in Hm. split_bind Hm. rename a into s0.
  assert (Hx0 := setup_design_in_box _ _ Hvf Hm0).
  destruct (top3d_setup_Ok _ _ _ _ _ _ _ _ _ _ Hm0)
    as (Hmask & _ & Hfilter & _ & _ & _ & _ & _ & _ & Hc0 & _).
  assert (Hwf0 : wf_ndarray (mask s0)).
  { unfold effective_mask in Hmask. destruct obstacle_mask as [m|].
    - injection Hmask as <-. by apply Hwf.
    - by apply np_full_wf in Hmask as [_ ?]. }
  apply (while_loop_invariant nelx nely nelz volfrac penal disp_thres
           tolx maxloop
           (fun s =>
              same_setup s0 s /\
              Forall in_unit_interval (items (x s)) /\
              (c s = None \/
               density_ok (nely, nelx, nelz) (mask s0) (xPhys s))))
    in Hm as [(Hsame & _ & Hgood) _].
  - destruct Hgood as [|(Hsh & Hrange & Hzero)]; [done|].
    repeat split; [done..|].
    intros m i -> Hi. apply Hzero.
    unfold effective_mask in Hmask. by injection Hmask as <-.
  - intros s1 t' s2 (Hsame & Hx1 & _) _ Hit. split.
    + eapply same_setup_trans; [exact Hsame|]. by eapply iteration_frame.
    + destruct Hsame as (_&_&HH&HHs&_&_&_&_&_&_&_&Hmk&_).
      rewrite <- Hmk.
      destruct (iteration_density_ok s1 t' s2) as (Hd & Hx2 & _);
        [done| |by rewrite Hmk|done|done|by auto].
      rewrite HH, HHs. by apply Hfil.
  - split; [apply same_setup_refl|]. split; [done|by left].
Qed.

End Bounds.

Lemma demo_filter_contract (H : sparse) (Hs : list Q) :
  Demo.demo_build_filter 3 1 1 (3 # 2) = Return (H, Hs) ->
  filter_weights_ok H Hs.
Proof.
  intros [= <- <-]. unfold filter_weights_ok.
  repeat constructor; vm_compute; discriminate.
Qed.

Lemma demo_update_contract (chg : Q) (x dc dv : ndarray Q) (vf : Q)
    (H : sparse) (Hs : list Q) (n : Z) (m : ndarray bool) (dn : Z)
    (xnew : ndarray Q) (chg' : Q) :
  Demo.demo_oc chg x dc dv vf H Hs n m dn = Return (xnew, chg') ->
  Forall in_unit_interval (items xnew).
Proof.
  intros [= <- _]. simpl. apply Forall_forall. intros v Hv.
  apply list_elem_of_fmap in Hv as (u & -> & _). split.
  - apply Q.min_glb; [lra|apply Q.le_max_l].
  - apply Q.le_min_l.
Qed.

Lemma top3d_density_bounds_witness :
  0 < 1 # 2 < 1 /\ 0 < 3 # 2 /\ wf_ndarray Demo.middle_mask /\
  exists tr a,
    @top3d (Demo.collaborators 0) 3 1 1 (1 # 2) 3 (3 # 2) (1 # 2)
      (Some Demo.middle_mask) (1 # 100) 5 = (tr, Ok a) /\
    shape a = (1, 3, 1)%Z /\
    Forall in_unit_interval (items a) /\
    forall m i,
      Some Demo.middle_mask = Some m ->
      items m !! i = Some true -> items a !! i = Some 0.
Proof.
  assert (Hvf : 0 < 1 # 2 < 1) by (split; reflexivity).
  assert (Hrmin : 0 < 3 # 2) by reflexivity.
  assert (Hwf : wf_ndarray Demo.middle_mask) by (split; reflexivity).
  split; [exact Hvf|]. split; [exact Hrmin|]. split; [exact Hwf|].
  eexists _, _.
  match goal with
  | |- ?P /\ _ => assert (Hrun : P) by (vm_compute; reflexivity)
  end.
  split; [exact Hrun|].
  refine (@top3d_density_bounds (Demo.collaborators 0) 3 1 1 (1 # 2) 3
            (3 # 2) (1 # 2) (Some Demo.middle_mask) (1 # 100) 5 _ _
            Hvf Hrmin _ (fun _ => demo_filter_contract)
            (fun x dc dv H Hs m dn xnew chg _ =>
               demo_update_contract 0 x dc dv _ H Hs _ m dn xnew chg)
            Hrun).
  by intros m [= <-].
Defined.

(** ** The two forms of the filter *)

Lemma nth_zip_with_Qdiv (u v : list Q) (j : nat) :
  length u = length v ->
  nth j (zip_with Qdiv u v) 0 = nth j u 0 / nth j v 0.
Proof.
  revert v j. induction u as [|a u IH]; intros [|b v] j Hlen; simpl in *;
    try done.
  - by destruct j.
  - destruct j as [|j]; [done|]. apply IH. lia.
Qed.

(** What a filter call that returns has computed, entry by entry. *)
Lemma filter_density_entries (H : sparse) (Hs : list Q) (v : ndarray Q)
    (sh : shape3) (a : ndarray Q) :
  filter_density H Hs v sh = Return a ->
  length Hs = length (rows H) ->
  density_form H Hs v a.
Proof.
  unfold filter_density, ravel_F. intros Hrun Hlen i row Hi.
  apply obind_Return in Hrun as (Hv & Hspmv & Hrun).
  apply obind_Return in Hrun as (q & Hdiv & Hrun).
  unfold reshape_F in Hrun. destruct (_ && _); [|done].
  injection Hrun as <-. cbn [items].
  unfold spmv in Hspmv. destruct (_ =? _)%nat; [|done].
  injection Hspmv as <-.
  unfold broadcast2 in Hdiv.
  rewrite length_map, Hlen, Nat.eqb_refl in Hdiv. injection Hdiv as <-.
  rewrite lookup_zip_with, list_lookup_fmap, Hi. cbn.
  assert (Hlt : (i < length Hs)%nat).
  { apply lookup_lt_Some in Hi. lia. }
  destruct (lookup_lt_is_Some_2 Hs i Hlt) as [hs Ehs].
  rewrite Ehs. cbn. by rewrite (nth_lookup_Some _ _ _ _ Ehs).
Qed.

Lemma filter_sensitivity_entries (H : sparse) (Hs : list Q) (v : ndarray Q)
    (sh : shape3) (b : ndarray Q) :
  filter_sensitivity H Hs v sh = Return b ->
  length (items v) = length Hs ->
  sensitivity_form H Hs v b /\ Z.of_nat (length (rows H)) = shape_size sh.
Proof.
  unfold filter_sensitivity, ravel_F. intros Hrun Hlen.
  apply obind_Return in Hrun as (q & Hdiv & Hrun).
  apply obind_Return in Hrun as (Hq & Hspmv & Hrun).
  unfold broadcast2 in Hdiv. rewrite Hlen, Nat.eqb_refl in Hdiv.
  injection Hdiv as <-.
  unfold spmv in Hspmv. destruct (_ =? _)%nat; [|done].
  injection Hspmv as <-.
  unfold reshape_F in Hrun.
  destruct (shape_nonneg sh); [|done]. cbn [andb] in Hrun.
  destruct (Z.eqb_spec (Z.of_nat (length (map (row_dot (zip_with Qdiv
              (items v) Hs)) (rows H)))) (shape_size sh)) as [Hsz|];
    [|done].
  injection Hrun as <-. rewrite length_map in Hsz. split; [|exact Hsz].
  intros i row Hi. cbn [items].
  rewrite list_lookup_fmap, Hi. cbn. f_equal. unfold row_dot.
  f_equal. apply map_ext. intros p. by rewrite nth_zip_with_Qdiv.
Qed.

(** The fields of a pass through the loop body, and the calls that make
    and consume them (lines 168-197). *)
Lemma iteration_fields `{Collaborators} (nelx nely nelz : Z)
    (volfrac penal disp_thres : Q) (s : state) (tr : list event)
    (s' : state) :
  iteration nelx nely nelz volfrac penal disp_thres s = (tr, Ok s') ->
  exists ce_flat ce dc0 dv0 dc dv xnew0 chg xP0,
    element_compliance (U s') (edofMat s) (KE s) = Return ce_flat /\
    reshape_F ce_flat (nely, nelx, nelz) = Return ce /\
    filter_sensitivity (H s) (Hs s)
      (amul (amap (fun v => - penal * (E0 - Emin)
                            * float_power v (penal - 1)) (xPhys s)) ce)
      (nely, nelx, nelz) = Return dc0 /\
    filter_sensitivity (H s) (Hs s) (amap (fun _ => 1) (xPhys s))
      (nely, nelx, nelz) = Return dv0 /\
    mask_assign dc0 (mask s) 0 = Return dc /\
    mask_assign dv0 (mask s) 0 = Return dv /\
    optimality_criteria_update (x s) dc dv volfrac (H s) (Hs s)
      (nele nelx nely nelz) (mask s) (design_nele s) = Return (xnew0, chg) /\
    mask_assign xnew0 (mask s) 0 = Return (x s') /\
    filter_density (H s) (Hs s) (x s') (nely, nelx, nelz) = Return xP0 /\
    mask_assign xP0 (mask s) 0 = Return (xPhys s').
Proof.
  intros Hrun. unfold iteration in Hrun. cbv zeta in Hrun.
  do 12 (step_bind Hrun).
  match goal with
  | Hoc : optimality_criteria_update _ _ _ _ _ _ _ _ _ = Return ?a |- _ =>
      destruct a as [xnew0 chg]
  end.
  do 6 (step_bind Hrun).
  unfold displayflag in Hrun.
  step_bind Hrun.
  apply mret_Ok in Hrun as [<- ->].
  simpl_state.
  repeat eexists; eauto.
Qed.

(** Sums over a row of [H], term by term. *)
Lemma qsum_map_eq {A} (f g : A -> Q) (l : list A) :
  (forall p, In p l -> f p == g p) ->
  qsum (map f l) == qsum (map g l).
Proof.
  induction l as [|a l IH]; intros Hfg; [reflexivity|].
  cbn [map]. rewrite !qsum_cons, IH, (Hfg a).
  - reflexivity.
  - by left.
  - intros p Hp. apply Hfg. by right.
Qed.

Lemma qsum_map_le {A} (f g : A -> Q) (l : list A) :
  (forall p, In p l -> f p <= g p) ->
  qsum (map f l) <= qsum (map g l).
Proof.
  induction l as [|a l IH]; intros Hfg; [apply Qle_refl|].
  cbn [map]. rewrite !qsum_cons.
  apply Qplus_le_compat; [apply Hfg; by left|].
  apply IH. intros p Hp. apply Hfg. by right.
Qed.

Lemma qsum_map_lt {A} (f g : A -> Q) (l : list A) :
  (forall p, In p l -> f p <= g p) ->
  (exists p, In p l /\ f p < g p) ->
  qsum (map f l) < qsum (map g l).
Proof.
  induction l as [|a l IH]; intros Hfg (p & Hp & Hlt); [destruct Hp|].
  cbn [map]. rewrite !qsum_cons.
  assert (Hrest : forall q, In q l -> f q <= g q)
    by (intros q Hq; apply Hfg; by right).
  destruct Hp as [->|Hp].
  - pose proof (qsum_map_le f g l Hrest). lra.
  - assert (Hhead : f a <= g a) by (apply Hfg; by left).
    assert (Htail : qsum (map f l) < qsum (map g l))
      by (apply IH; [exact Hrest|by exists p]).
    lra.
Qed.

Lemma qsum_map_over (c : Q) (row : list (nat * Q)) :
  qsum (map (fun p : nat * Q => p.2 * (1 / c)) row)
  == qsum (map snd row) / c.
Proof.
  induction row as [|a row IH]; cbn [map].
  - unfold qsum; cbn. unfold Qdiv. ring.
  - rewrite !qsum_cons, IH. unfold Qdiv. ring.
Qed.

Lemma Qmult_le_nonneg_l (w a b : Q) : 0 <= w -> a <= b -> w * a <= w * b.
Proof.
  intros Hw Hab. rewrite (Qmult_comm w a), (Qmult_comm w b).
  by apply Qmult_le_compat_r.
Qed.

Lemma nth_ones {A} (l : list A) (j : nat) :
  (j < length l)%nat -> nth j (map (fun _ => 1) l) 0 = 1.
Proof.
  revert j. induction l as [|a l IH]; intros [|j] Hj; cbn in *;
    try lia; [done|]. apply IH. lia.
Qed.

(** C3 (as amended).  Which form of the filter [top3d] applies to which
    field.  Before the loop (line 129) the physical density is the
    density form of the design [x]: apply [H], then divide by [Hs].  In
    a pass through the loop body (lines 168-197), from any state whose
    filter has one normaliser per row and one row per entry of the
    density: the raw [dc] and the field [dv] of ones are filtered in the
    sensitivity form (divide by [Hs], then apply [H]; lines 180-181), and
    it is these fields, reset in the obstacle, that the update receives;
    the new design is filtered in the density form (line 196) and gives
    the new physical density.  The two forms are not the same: at an
    element [i] the filtered [dv] equals the normalised average
    [(H * 1)_i / Hs_i] when row [i] weights only elements whose [Hs] is
    that of [i], and is strictly above it when the row has non-negative
    weights on elements whose [Hs] is positive and at most that of [i],
    one of them with a positive weight and a smaller [Hs]. *)
Theorem filter_forms `{Collaborators} (nelx nely nelz : Z)
    (volfrac penal rmin disp_thres : Q)
    (obstacle_mask : option (ndarray bool)) (tolx : Q) (maxloop : Z) :
  (forall tr0 s0,
     top3d_setup nelx nely nelz volfrac rmin obstacle_mask tolx maxloop
       = (tr0, Ok s0) ->
     length (Hs s0) = length (rows (H s0)) ->
     density_form (H s0) (Hs s0) (x s0) (xPhys s0)) /\
  (forall s tr s',
     iteration nelx nely nelz volfrac penal disp_thres s = (tr, Ok s') ->
     length (Hs s) = length (rows (H s)) ->
     length (items (xPhys s)) = length (rows (H s)) ->
     exists ce_flat ce dc0 dv0 dc dv xnew0 chg xP0,
       element_compliance (U s') (edofMat s) (KE s) = Return ce_flat /\
       reshape_F ce_flat (nely, nelx, nelz) = Return ce /\
       sensitivity_form (H s) (Hs s)
         (amul (amap (fun v => - penal * (E0 - Emin)
                               * float_power v (penal - 1)) (xPhys s)) ce)
         dc0 /\
       sensitivity_form (H s) (Hs s) (amap (fun _ => 1) (xPhys s)) dv0 /\
       mask_assign dc0 (mask s) 0 = Return dc /\
       mask_assign dv0 (mask s) 0 = Return dv /\
       optimality_criteria_update (x s) dc dv volfrac (H s) (Hs s)
         (nele nelx nely nelz) (mask s) (design_nele s)
         = Return (xnew0, chg) /\
       mask_assign xnew0 (mask s) 0 = Return (x s') /\
       density_form (H s) (Hs s) (x s') xP0 /\
       mask_assign xP0 (mask s) 0 = Return (xPhys s') /\
       forall i row v,
         rows (H s) !! i = Some row ->
         items dv0 !! i = Some v ->
         ((forall p, In p row ->
                     (p.1 < length (rows (H s)))%nat /\
                     nth p.1 (Hs s) 0 == nth i (Hs s) 0) ->
          v == qsum (map snd row) / nth i (Hs s) 0) /\
         ((forall p, In p row ->
                     (p.1 < length (rows (H s)))%nat /\ 0 <= p.2 /\
                     0 < nth p.1 (Hs s) 0 /\
                     nth p.1 (Hs s) 0 <= nth i (Hs s) 0) ->
          (exists p, In p row /\ 0 < p.2 /\
                     nth p.1 (Hs s) 0 < nth i (Hs s) 0) ->
          qsum (map snd row) / nth i (Hs s) 0 < v)).
Proof.
  split.
  - intros tr0 s0 Hsetup Hlen.
    destruct (top3d_setup_Ok _ _ _ _ _ _ _ _ _ _ Hsetup)
      as (_ & _ & _ & _ & _ & HxP & _).
    by apply (filter_density_entries _ _ _ _ _ HxP).
  - intros s tr s' Hrun HHs Hn.
    destruct (iteration_fields _ _ _ _ _ _ _ _ _ Hrun)
      as (ce_flat & ce & dc0 & dv0 & dc & dv & xnew0 & chg & xP0 & Hce &
          Hshape & Hdc0 & Hdv0 & Hdc & Hdv & Hoc & Hxnew & HxP0 & HxP).
    assert (Hones : length (items (amap (fun _ : Q => 1) (xPhys s)))
                    = length (Hs s)).
    { cbn [amap items]. rewrite length_map. lia. }
    destruct (filter_sensitivity_entries _ _ _ _ _ Hdv0 Hones)
      as [Hdvform Hsize].
    assert (Hraw : length (items
                     (amul (amap (fun v => - penal * (E0 - Emin)
                                           * float_power v (penal - 1))
                              (xPhys s)) ce)) = length (Hs s)).
    { unfold reshape_F in Hshape.
      destruct (shape_nonneg (nely, nelx, nelz)); [|done].
      cbn [andb] in Hshape.
      destruct (Z.eqb_spec (Z.of_nat (length ce_flat))
                  (shape_size (nely, nelx, nelz))) as [Hsz|]; [|done].
      injection Hshape as <-.
      cbn [amul amap items]. rewrite length_zip_with, length_map. lia. }
    destruct (filter_sensitivity_entries _ _ _ _ _ Hdc0 Hraw)
      as [Hdcform _].
    exists ce_flat, ce, dc0, dv0, dc, dv, xnew0, chg, xP0.
    do 9 (split; [first [done|by apply (filter_density_entries _ _ _ _ _
                                          HxP0)]|]).
    split; [done|].
    intros i row v Hrow Hv.
    rewrite (Hdvform i row Hrow) in Hv. injection Hv as <-.
    assert (Hterm : forall p, In p row ->
              (p.1 < length (rows (H s)))%nat ->
              p.2 * (nth p.1 (items (amap (fun _ : Q => 1) (xPhys s))) 0
                     / nth p.1 (Hs s) 0)
              == p.2 * (1 / nth p.1 (Hs s) 0)).
    { intros p _ Hp. cbn [amap items]. by rewrite nth_ones by lia. }
    split.
    + intros Hsame. rewrite <- qsum_map_over. apply qsum_map_eq.
      intros p Hp. destruct (Hsame p Hp) as [Hlt Heq].
      by rewrite (Hterm p Hp Hlt), Heq.
    + intros Hbelow (p0 & Hp0 & Hpos & Hless).
      rewrite <- qsum_map_over. apply qsum_map_lt.
      * intros p Hp. destruct (Hbelow p Hp) as (Hlt & Hw & Hj & Hle).
        rewrite (Hterm p Hp Hlt).
        apply Qmult_le_nonneg_l; [exact Hw|].
        unfold Qdiv. rewrite !Qmult_1_l.
        apply Qle_lteq in Hle as [Hstrict|Heq].
        -- apply Qlt_le_weak.
           apply (proj1 (Qinv_lt_contravar _ _ Hj
                           (Qlt_trans _ _ _ Hj Hstrict))).
           exact Hstrict.
        -- rewrite Heq. apply Qle_refl.
      * exists p0. split; [exact Hp0|].
        destruct (Hbelow p0 Hp0) as (Hlt & _ & Hj & _).
        rewrite (Hterm p0 Hp0 Hlt).
        apply Qmult_lt_l; [exact Hpos|].
        unfold Qdiv. rewrite !Qmult_1_l.
        apply (proj1 (Qinv_lt_contravar _ _ Hj
                        (Qlt_trans _ _ _ Hj Hless))).
        exact Hless.
Qed.

(** The first pass of the bar of three elements with [rmin = 1.5]. *)
Lemma filter_forms_witness :
  exists tr0 s0 tr s',
    @top3d_setup (Demo.collaborators 0) 3 1 1 (1 # 2) (3 # 2) None
      (1 # 100) 5 = (tr0, Ok s0) /\
    length (Hs s0) = length (rows (H s0)) /\
    length (items (xPhys s0)) = length (rows (H s0)) /\
    @iteration (Demo.collaborators 0) 3 1 1 (1 # 2) 3 (1 # 2) s0
      = (tr, Ok s') /\
    density_form (H s0) (Hs s0) (x s0) (xPhys s0) /\
    exists dv0 xP0,
      sensitivity_form (H s0) (Hs s0) (amap (fun _ => 1) (xPhys s0)) dv0 /\
      density_form (H s0) (Hs s0) (x s') xP0 /\
      mask_assign xP0 (mask s0) 0 = Return (xPhys s').
Proof.
  assert (Hruns : exists tr0 s0 tr s',
    @top3d_setup (Demo.collaborators 0) 3 1 1 (1 # 2) (3 # 2) None
      (1 # 100) 5 = (tr0, Ok s0) /\
    length (Hs s0) = length (rows (H s0)) /\
    length (items (xPhys s0)) = length (rows (H s0)) /\
    @iteration (Demo.collaborators 0) 3 1 1 (1 # 2) 3 (1 # 2) s0
      = (tr, Ok s')).
  { eexists _, _, _, _.
    split; [vm_compute; reflexivity|].
    split; [reflexivity|]. split; [reflexivity|].
    vm_compute. reflexivity. }
  destruct Hruns as (tr0 & s0 & tr & s' & Hsetup & HHs & Hn & Hrun).
  destruct (@filter_forms (Demo.collaborators 0) 3 1 1 (1 # 2) 3 (3 # 2)
              (1 # 2) None (1 # 100) 5) as [Hbefore Hpass].
  destruct (Hpass s0 tr s' Hrun HHs Hn)
    as (ce_flat & ce & dc0 & dv0 & dc & dv & xnew0 & chg & xP0 & _ & _ &
        _ & Hdv0 & _ & _ & _ & _ & HxP0 & HxP & _).
  exists tr0, s0, tr, s'.
  split; [exact Hsetup|]. split; [exact HHs|]. split; [exact Hn|].
  split; [exact Hrun|].
  split; [exact (Hbefore tr0 s0 Hsetup HHs)|].
  exists dv0, xP0. split; [exact Hdv0|]. split; [exact HxP0|exact HxP].
Defined.

(** C3, the claim as stated: in the first pass of [top3d] on the bar of
    three elements with [rmin = 1.5], run with an update that hands the
    [dv] it receives back as the design, that [dv] is
    (0.95, 1.1, 0.95), whereas the normalised average [(H * dv) / Hs] of
    the field of ones from which it is made is (1, 1, 1). *)
Lemma sensitivity_filter_not_normalized_average :
  exists tr0 s0 tr s' a,
    @top3d_setup dv_probe 3 1 1 (1 # 2) (3 # 2) None (1 # 100) 5
      = (tr0, Ok s0) /\
    @iteration dv_probe 3 1 1 (1 # 2) 3 (1 # 2) s0 = (tr, Ok s') /\
    Forall2 Qeq (items (x s')) [19 # 20; 11 # 10; 19 # 20] /\
    filter_density (H s0) (Hs s0) (amap (fun _ => 1) (xPhys s0))
      (1, 3, 1)%Z = Return a /\
    Forall2 Qeq (items a) [1; 1; 1] /\
    ~ Forall2 Qeq (items (x s')) (items a).
Proof.
  eexists _, _, _, _, _.
  split; [vm_compute; reflexivity|].
  split; [vm_compute; reflexivity|].
  split; [by repeat constructor|].
  split; [vm_compute; reflexivity|].
  split; [by repeat constructor|].
  intros Hall. apply Forall2_cons in Hall as [Hneq _]. by vm_compute in Hneq.
Qed.

(** ** The call made by [execute_optimization] *)

Section Caller.
Context `{Collaborators}.

Lemma call_top3d_unexpected_keyword (positional : list pyval)
    (obstacle tol cap history frequency tracker : pyval) :
  length positional = 7%nat ->
  call_top3d positional
    [("obstacle_mask", obstacle); ("tolx", tol); ("maxloop", cap);
     ("save_history", history); ("history_frequency", frequency);
     ("benchmark_tracker", tracker)]%string
  = ([], Raise TypeError).
Proof.
  intros Hlen. unfold call_top3d, bind_arguments.
  rewrite Hlen. reflexivity.
Qed.

(** C1, on the code.  Whatever its arguments, with a logger at hand the
    call that [execute_optimization] makes,
    [top3d(..., save_history=..., history_frequency=...,
    benchmark_tracker=...)], raises [TypeError] while the arguments are
    bound: the signature of [top3d] has none of the three keywords.  No
    utility is called, no density and no history come back, whether
    [create_animation] is set or not. *)
Theorem execute_optimization_raises (benchmarking_importable : bool)
    (nelx nely nelz : Z) (volfrac penal rmin disp_thres tolx : Q)
    (maxloop : Z) (create_animation : bool) (animation_frequency : Z)
    (combined_obstacle_mask : option (ndarray bool)) (benchmark : bool) :
  result (execute_optimization benchmarking_importable nelx nely nelz
            volfrac penal rmin disp_thres tolx maxloop create_animation
            animation_frequency (Some Logger) combined_obstacle_mask
            benchmark) = Raise TypeError /\
  forall f,
    ~ In (Call f)
        (trace (execute_optimization benchmarking_importable nelx nely nelz
                  volfrac penal rmin disp_thres tolx maxloop
                  create_animation animation_frequency (Some Logger)
                  combined_obstacle_mask benchmark)).
Proof.
  assert (Hcall := fun tracker =>
    call_top3d_unexpected_keyword
      [PyInt nelx; PyInt nely; PyInt nelz; PyFloat volfrac; PyFloat penal;
       PyFloat rmin; PyFloat disp_thres]
      match combined_obstacle_mask with
      | Some m => PyMask m
      | None => PyNone
      end (PyFloat tolx) (PyInt maxloop) (PyBool create_animation)
      (PyInt animation_frequency) tracker eq_refl).
  unfold execute_optimization.
  destruct benchmark, benchmarking_importable;
    cbn [when_logger log emit mbind M_bind mret M_ret app];
    rewrite Hcall;
    (split; [reflexivity|]); intros f; simpl; intuition discriminate.
Qed.

(** Without a logger the function does not get as far as the call. *)
Lemma execute_optimization_without_logger (benchmarking_importable : bool)
    (nelx nely nelz : Z) (volfrac penal rmin disp_thres tolx : Q)
    (maxloop : Z) (create_animation : bool) (animation_frequency : Z)
    (combined_obstacle_mask : option (ndarray bool)) (benchmark : bool) :
  execute_optimization benchmarking_importable nelx nely nelz volfrac penal
    rmin disp_thres tolx maxloop create_animation animation_frequency None
    combined_obstacle_mask benchmark = ([], Raise AttributeError).
Proof.
  unfold execute_optimization.
  by destruct benchmark, benchmarking_importable.
Qed.

End Caller.

(** * Further properties of the code *)

(** ** The index map as built (optimizer.py, lines 107-114) *)

(** X1.  What lines 107-114 deliver: the coordinates of the template are
    strictly increasing (so distinct) and inside the matrix, [nUnique] is
    their number, the stored values start at zero, and the index map is a
    true inverse: it has one entry per pair of [iK], [jK], each below
    [nUnique], and reading the coordinates through it gives the pairs
    [(iK - 1, jK - 1)] back, in order. *)
Theorem build_assembly_inverse (iK jK : list Z) (ndof : Z)
    (assembly_map : list nat) (nUnique : nat) (K_template : csr) :
  build_assembly iK jK ndof = Return (assembly_map, nUnique, K_template) ->
  increasing (csr_coords K_template) /\
  forallb (coord_in_range ndof) (csr_coords K_template) = true /\
  nUnique = length (csr_coords K_template) /\
  csr_data K_template = replicate nUnique 0 /\
  length assembly_map = length iK /\
  Forall (fun i => (i < nUnique)%nat) assembly_map /\
  map (fun i => nth i (csr_coords K_template) (0, 0)%Z) assembly_map =
    zip (map (fun i => (i - 1)%Z) iK) (map (fun j => (j - 1)%Z) jK).
Proof.
  unfold build_assembly, vstack_T. rewrite !length_map.
  destruct (Nat.eqb_spec (length iK) (length jK)) as [HjK|]; [|done].
  simpl.
  set (pairs := zip (map (fun i => (i - 1)%Z) iK)
                    (map (fun j => (j - 1)%Z) jK)).
  unfold csr_matrix.
  destruct (0 <=? ndof)%Z; [|done]. simpl.
  destruct (forallb _ _) eqn:Hrange; [|done]. simpl.
  intros [= <- <- <-]. simpl.
  split; [apply unique_rows_increasing|].
  split; [done|]. split; [done|]. split; [done|].
  split.
  { unfold pairs. rewrite length_map, length_zip_with, !length_map. lia. }
  split.
  { apply Forall_forall. intros i Hi.
    apply list_elem_of_fmap in Hi as (p & -> & Hp).
    by apply row_index_lt, unique_rows_elem. }
  rewrite map_map. rewrite <- (map_id pairs) at 2.
  apply map_ext_in. intros p Hp.
  apply row_index_nth, unique_rows_elem. by apply list_elem_of_In.
Qed.

Lemma build_assembly_inverse_witness :
  build_assembly [1; 1; 2; 2; 2; 2; 3; 3; 3; 3; 4; 4]%Z
    [1; 2; 1; 2; 2; 3; 2; 3; 3; 4; 3; 4]%Z 48 =
  Return ([0; 1; 2; 3; 3; 4; 5; 6; 6; 7; 8; 9]%nat, 10%nat,
          mk_csr 48
            [(0, 0); (0, 1); (1, 0); (1, 1); (1, 2); (2, 1); (2, 2);
             (2, 3); (3, 2); (3, 3)]%Z (replicate 10 0)) /\
  map (fun i => nth i [(0, 0); (0, 1); (1, 0); (1, 1); (1, 2); (2, 1);
                       (2, 2); (2, 3); (3, 2); (3, 3)]%Z (0, 0)%Z)
    [0; 1; 2; 3; 3; 4; 5; 6; 6; 7; 8; 9]%nat =
  zip (map (fun i => (i - 1)%Z) [1; 1; 2; 2; 2; 2; 3; 3; 3; 3; 4; 4]%Z)
      (map (fun j => (j - 1)%Z) [1; 2; 1; 2; 2; 3; 2; 3; 3; 4; 3; 4]%Z).
Proof.
  assert (Hb : build_assembly [1; 1; 2; 2; 2; 2; 3; 3; 3; 3; 4; 4]%Z
                 [1; 2; 1; 2; 2; 3; 2; 3; 3; 4; 3; 4]%Z 48 =
               Return ([0; 1; 2; 3; 3; 4; 5; 6; 6; 7; 8; 9]%nat, 10%nat,
                       mk_csr 48
                         [(0, 0); (0, 1); (1, 0); (1, 1); (1, 2); (2, 1);
                          (2, 2); (2, 3); (3, 2); (3, 3)]%Z
                         (replicate 10 0))) by reflexivity.
  split; [exact Hb|].
  exact (proj2 (proj2 (proj2 (proj2 (proj2 (proj2
    (build_assembly_inverse _ _ _ _ _ _ Hb))))))).
Defined.

(** ** What the summation through the index map conserves
    (optimizer.py, lines 152-158) *)

Lemma qsum_app (l k : list Q) : qsum (l ++ k) == qsum l + qsum k.
Proof.
  induction l as [|a l IH]; simpl.
  - unfold qsum at 2; simpl. lra.
  - rewrite !qsum_cons, IH. lra.
Qed.

Lemma qsum_insert (l : list Q) (i : nat) (v : Q) :
  (i < length l)%nat -> qsum (<[i:=v]> l) == qsum l - nth i l 0 + v.
Proof.
  revert i. induction l as [|a l IH]; intros [|i] Hi; simpl in *; try lia.
  - rewrite !qsum_cons. lra.
  - rewrite !qsum_cons, IH by lia. lra.
Qed.

Lemma qsum_replicate_0 (n : nat) : qsum (replicate n 0) == 0.
Proof.
  induction n as [|n IH]; simpl; [done|]. rewrite qsum_cons, IH. lra.
Qed.

Lemma qsum_scale (a : Q) (v : list Q) : qsum (map (Qmult a) v) == a * qsum v.
Proof.
  induction v as [|b v IH]; simpl.
  - unfold qsum; simpl. lra.
  - rewrite !qsum_cons, IH. lra.
Qed.

Lemma qsum_np_kron (a b : list Q) : qsum (np_kron a b) == qsum a * qsum b.
Proof.
  unfold np_kron. induction a as [|u a IH]; simpl.
  - unfold qsum; simpl. lra.
  - rewrite qsum_app, qsum_scale, IH, qsum_cons. lra.
Qed.

Lemma bincount_fold_conserves (l : list (nat * Q)) :
  forall out : list Q,
  Forall (fun p : nat * Q => (p.1 < length out)%nat) l ->
  qsum (fold_left bincount_step l out) == qsum out + qsum (map snd l).
Proof.
  induction l as [|[i v] l IH]; intros out Hl; simpl.
  - unfold qsum at 3; simpl. lra.
  - apply Forall_cons in Hl as [Hi Hl]. simpl in Hi.
    rewrite IH.
    + unfold bincount_step; simpl. rewrite qsum_insert by done.
      rewrite qsum_cons. lra.
    + unfold bincount_step; simpl. rewrite length_insert. exact Hl.
Qed.

(** X2.  Summing through the index map loses and invents nothing: when
    the template has [nUnique] stored values and the index map stays
    below [nUnique] (which is how lines 107-114 build them), the stored
    values after lines 150-158 add up to the sum of all weighted local
    stiffness values, i.e. to the sum of the element stiffness scalars
    times the sum of the entries of [KE]. *)
Theorem assemble_conserves_total (K_template : csr)
    (assembly_map : list nat) (nUnique : nat) (stiff_vals : list Q)
    (KE : list (list Q)) (K : csr) :
  length (csr_data K_template) = nUnique ->
  Forall (fun i => (i < nUnique)%nat) assembly_map ->
  assemble K_template assembly_map nUnique stiff_vals KE = Return K ->
  qsum (csr_data K) == qsum stiff_vals * qsum (ravel_C KE).
Proof.
  intros Hdata Hidx Hrun. unfold assemble in Hrun.
  apply obind_Return in Hrun as (K_data & Hbin & Hrun).
  apply obind_Return in Hrun as (data & Hassign & Hrun).
  injection Hrun as <-. simpl.
  unfold np_bincount in Hbin.
  destruct (Nat.eqb_spec (length assembly_map)
              (length (np_kron stiff_vals (ravel_C KE)))) as [Hlen|];
    [|done].
  rewrite bincount_length_bound in Hbin by done.
  injection Hbin as <-.
  assert (Hfold :
    qsum (fold_left bincount_step
            (zip assembly_map (np_kron stiff_vals (ravel_C KE)))
            (replicate nUnique 0))
    == qsum (np_kron stiff_vals (ravel_C KE))).
  { rewrite bincount_fold_conserves.
    - rewrite qsum_replicate_0.
      change (map snd (zip assembly_map (np_kron stiff_vals (ravel_C KE))))
        with ((zip assembly_map (np_kron stiff_vals (ravel_C KE))).*2).
      rewrite snd_zip by lia. lra.
    - rewrite length_replicate. apply Forall_forall. intros [i v] Hin.
      simpl. apply elem_of_zip_l in Hin.
      by eapply Forall_forall in Hidx. }
  unfold assign_all in Hassign.
  assert (Hl : length (fold_left bincount_step
                 (zip assembly_map (np_kron stiff_vals (ravel_C KE)))
                 (replicate nUnique 0)) = nUnique).
  { clear. generalize (zip assembly_map (np_kron stiff_vals (ravel_C KE))).
    intros l. rewrite <- (length_replicate nUnique 0) at 2.
    generalize (replicate nUnique 0).
    induction l as [|p l IH]; intros out; simpl; [done|].
    rewrite IH. unfold bincount_step. by rewrite length_insert. }
  rewrite Hl, Hdata, Nat.eqb_refl in Hassign. injection Hassign as <-.
  by rewrite Hfold, qsum_np_kron.
Qed.

Lemma assemble_conserves_total_witness :
  exists K,
    length [1; 2; 3; 4; 5; 6; 7; 8; 9; 10] = 10%nat /\
    Forall (fun i => (i < 10)%nat)
      [0; 1; 2; 3; 3; 4; 5; 6; 6; 7; 8; 9]%nat /\
    assemble (mk_csr 48
                [(0, 0); (0, 1); (1, 0); (1, 1); (1, 2); (2, 1); (2, 2);
                 (2, 3); (3, 2); (3, 3)]%Z
                [1; 2; 3; 4; 5; 6; 7; 8; 9; 10])
      [0; 1; 2; 3; 3; 4; 5; 6; 6; 7; 8; 9]%nat 10
      [1 # 2; 1 # 4; 1 # 8] [[2; - (1)]; [- (1); 3]] = Return K /\
    qsum (csr_data K) ==
      qsum [1 # 2; 1 # 4; 1 # 8] * qsum (ravel_C [[2; - (1)]; [- (1); 3]]).
Proof.
  eexists.
  assert (Hlen : length [1; 2; 3; 4; 5; 6; 7; 8; 9; 10] = 10%nat)
    by reflexivity.
  assert (Hidx : Forall (fun i => (i < 10)%nat)
                   [0; 1; 2; 3; 3; 4; 5; 6; 6; 7; 8; 9]%nat)
    by (repeat constructor; lia).
  split; [exact Hlen|]. split; [exact Hidx|].
  match goal with
  | |- ?P /\ _ => assert (Hrun : P) by (vm_compute; reflexivity)
  end.
  split; [exact Hrun|].
  exact (assemble_conserves_total (mk_csr 48 _ [1; 2; 3; 4; 5; 6; 7; 8; 9; 10])
           _ 10 _ _ _ Hlen Hidx Hrun).
Defined.

(** ** The design variable and the obstacle (optimizer.py, lines 125-129
    and 188-199) *)

Lemma mask_assign_shape {A} (a : ndarray A) (m : ndarray bool) (v : A)
    (b : ndarray A) :
  mask_assign a m v = Return b -> shape b = shape a /\ shape m = shape a.
Proof.
  unfold mask_assign. destruct (shape_eqb _ _) eqn:Hsh; [|done].
  intros [= <-]; simpl. split; [done|].
  destruct (shape a) as [[a0 a1] a2], (shape m) as [[b0 b1] b2].
  unfold shape_eqb in Hsh. rewrite !andb_true_iff, !Z.eqb_eq in Hsh.
  destruct Hsh as [[-> ->] ->]. done.
Qed.

Lemma mask_assign_set {A} (a : ndarray A) (m : ndarray bool) (v : A)
    (b : ndarray A) (i : nat) (u : A) :
  mask_assign a m v = Return b ->
  items m !! i = Some true -> items b !! i = Some u -> u = v.
Proof.
  unfold mask_assign. destruct (shape_eqb _ _); [|done].
  intros [= <-] Hi; simpl. rewrite lookup_zip_with, Hi. simpl.
  destruct (items a !! i); simpl; congruence.
Qed.

Lemma filter_density_shape (H : sparse) (Hs : list Q) (v : ndarray Q)
    (sh : shape3) (a : ndarray Q) :
  filter_density H Hs v sh = Return a -> shape a = sh.
Proof.
  unfold filter_density. intros Hrun.
  apply obind_Return in Hrun as (? & _ & Hrun).
  apply obind_Return in Hrun as (? & _ & Hrun).
  unfold reshape_F in Hrun. destruct (_ && _); [|done].
  by injection Hrun as <-.
Qed.

Section Design.
Context `{Collaborators}.
Variables nelx nely nelz : Z.
Variables volfrac penal rmin disp_thres : Q.
Variable obstacle_mask : option (ndarray bool).
Variable tolx : Q.
Variable maxloop : Z.

(** X3.  In the state in which the loop is left, after any number of
    passes, zero included, and whatever the utilities return: the mask
    is the one the run started with, the design [x], the physical
    density [xPhys] and the mask have the shape (nely, nelx, nelz), and
    [x] is 0 in every cell where the mask is set. *)
Theorem design_zero_in_obstacle tr s :
  top3d_loop nelx nely nelz volfrac penal rmin disp_thres obstacle_mask
    tolx maxloop = (tr, Ok s) ->
  effective_mask nelx nely nelz obstacle_mask = Return (mask s) /\
  shape (mask s) = (nely, nelx, nelz) /\
  shape (x s) = (nely, nelx, nelz) /\
  shape (xPhys s) = (nely, nelx, nelz) /\
  forall i v,
    items (mask s) !! i = Some true -> items (x s) !! i = Some v -> v = 0.
Proof.
  unfold top3d_loop. intros Hrun. split_bind Hrun. rename a into s0.
  destruct (top3d_setup_Ok _ _ _ _ _ _ _ _ _ _ Hm)
    as (Hmask & _ & _ & _ & (x0 & Hfull & Hx) & HxP & _).
  assert (Hx0 : shape x0 = (nely, nelx, nelz)).
  { unfold np_full in Hfull. destruct (shape_nonneg _); [|done].
    by injection Hfull as <-. }
  destruct (mask_assign_shape _ _ _ _ Hx) as [Hsx Hsm].
  apply (while_loop_invariant nelx nely nelz volfrac penal disp_thres
           tolx maxloop
           (fun s =>
              mask s = mask s0 /\
              shape (x s) = (nely, nelx, nelz) /\
              shape (xPhys s) = (nely, nelx, nelz) /\
              forall i v,
                items (mask s0) !! i = Some true ->
                items (x s) !! i = Some v -> v = 0))
    in Hrun as [(Hmk & Hshx & HshP & Hzero) _].
  - rewrite Hmk. repeat split; try done; congruence.
  - intros s1 t' s2 (Hmk & Hshx & HshP & Hzero) _ Hit.
    apply iteration_Ok in Hit.
    destruct Hit
      as (K&U'&cv&cd&dc&dv&xnew0&chg&xnew&xP0&xP&vol&_&_&Hm1&Hf&Hm2&->&_).
    simpl. rewrite Hmk in *.
    destruct (mask_assign_shape _ _ _ _ Hm1) as [Hs1 Hs1m].
    destruct (mask_assign_shape _ _ _ _ Hm2) as [Hs2 _].
    apply filter_density_shape in Hf.
    repeat split; try congruence.
    intros i v Hi Hv. exact (mask_assign_set _ _ _ _ _ _ Hm1 Hi Hv).
  - repeat split; try congruence.
    + by apply filter_density_shape in HxP.
    + intros i v Hi Hv. exact (mask_assign_set _ _ _ _ _ _ Hx Hi Hv).
Qed.

End Design.

Lemma design_zero_in_obstacle_witness :
  exists tr s,
    @top3d_loop (Demo.collaborators (1 # 2)) 3 1 1 (1 # 2) 3 (3 # 2) (1 # 2)
      (Some Demo.middle_mask) (1 # 100) 2 = (tr, Ok s) /\
    loop s = 2%Z /\
    effective_mask 3 1 1 (Some Demo.middle_mask) = Return (mask s) /\
    shape (mask s) = (1, 3, 1)%Z /\
    shape (x s) = (1, 3, 1)%Z /\
    shape (xPhys s) = (1, 3, 1)%Z /\
    forall i v,
      items (mask s) !! i = Some true -> items (x s) !! i = Some v -> v = 0.
Proof.
  eexists _, _.
  match goal with
  | |- ?P /\ _ => assert (Hrun : P) by (vm_compute; reflexivity)
  end.
  split; [exact Hrun|]. split; [reflexivity|].
  exact (@design_zero_in_obstacle (Demo.collaborators (1 # 2)) 3 1 1 (1 # 2)
           3 (3 # 2) (1 # 2) (Some Demo.middle_mask) (1 # 100) 2 _ _ Hrun).
Defined.

(** ** The physical density before the first pass (optimizer.py, lines
    125-129) *)

Lemma filter_density_items (H : sparse) (Hs : list Q) (v : ndarray Q)
    (sh : shape3) (a : ndarray Q) :
  length Hs = length (rows H) ->
  filter_density H Hs v sh = Return a ->
  items a = zip_with Qdiv (map (row_dot (items v)) (rows H)) Hs.
Proof.
  unfold filter_density, ravel_F. intros Hlen Hrun.
  apply obind_Return in Hrun as (Hv & Hspmv & Hrun).
  apply obind_Return in Hrun as (q & Hdiv & Hrun).
  unfold reshape_F in Hrun. destruct (_ && _); [|done].
  injection Hrun as <-. simpl.
  unfold spmv in Hspmv. destruct (_ =? _)%nat; [|done].
  injection Hspmv as <-.
  unfold broadcast2 in Hdiv.
  rewrite length_map, Hlen, Nat.eqb_refl in Hdiv. by injection Hdiv as <-.
Qed.

Lemma nth_masked_full (m : ndarray bool) (n : nat) (vf : Q) (j : nat) :
  length (items m) = n ->
  nth j (zip_with (fun (b : bool) u => if b then 0 else u)
           (items m) (replicate n vf)) 0 =
  if free_cell m j then vf else 0.
Proof.
  intros Hlen. unfold free_cell.
  rewrite nth_lookup, lookup_zip_with.
  destruct (items m !! j) as [b|] eqn:Hj; simpl; [|done].
  rewrite lookup_replicate_2; [by destruct b|].
  apply lookup_lt_Some in Hj. lia.
Qed.

Lemma row_dot_masked_full (m : ndarray bool) (n : nat) (vf : Q)
    (row : list (nat * Q)) :
  length (items m) = n ->
  row_dot (zip_with (fun (b : bool) u => if b then 0 else u)
             (items m) (replicate n vf)) row ==
  vf * qsum (map snd (List.filter (fun p : nat * Q => free_cell m p.1) row)).
Proof.
  intros Hlen. unfold row_dot.
  induction row as [|[j h] row IH]; simpl.
  - unfold qsum; simpl. lra.
  - rewrite qsum_cons, IH, (nth_masked_full m n vf j Hlen).
    destruct (free_cell m j); simpl; [rewrite qsum_cons|]; lra.
Qed.

Section InitialDensity.
Context `{Collaborators}.
Variables nelx nely nelz : Z.
Variables volfrac rmin : Q.
Variable obstacle_mask : option (ndarray bool).
Variable tolx : Q.
Variable maxloop : Z.

(** X4.  The physical density that the first pass of the loop works with
    is the filtered initial design and is not reset in the obstacle: in
    the state after the setup, with a mask that is an array of its own
    shape and a filter with one normaliser per row, the entry of [xPhys]
    at element [i] is [volfrac] times the sum of the weights that row [i]
    of [H] gives to cells outside the obstacle, divided by [Hs_i],
    whether or not [i] itself lies in the obstacle. *)
Theorem initial_density_not_masked tr s :
  (forall m, obstacle_mask = Some m -> wf_ndarray m) ->
  top3d_setup nelx nely nelz volfrac rmin obstacle_mask tolx maxloop
    = (tr, Ok s) ->
  length (Hs s) = length (rows (H s)) ->
  forall i row,
    rows (H s) !! i = Some row ->
    exists v,
      items (xPhys s) !! i = Some v /\
      v == volfrac
           * qsum (map snd (List.filter
                              (fun p : nat * Q => free_cell (mask s) p.1)
                              row))
           / nth i (Hs s) 0.
Proof.
  intros Hwf Hrun Hlen i row Hrow.
  destruct (top3d_setup_Ok _ _ _ _ _ _ _ _ _ _ Hrun)
    as (Hmask & _ & _ & _ & (x0 & Hfull & Hx) & HxP & _).
  assert (Hwfm : wf_ndarray (mask s)).
  { unfold effective_mask in Hmask. destruct obstacle_mask as [m|].
    - injection Hmask as <-. by apply Hwf.
    - by apply np_full_wf in Hmask as [_ ?]. }
  destruct (mask_assign_shape _ _ _ _ Hx) as [_ Hsm].
  unfold np_full in Hfull. destruct (shape_nonneg _); [|done].
  injection Hfull as <-. cbn [shape items] in Hsm.
  unfold mask_assign in Hx. cbn [shape items] in Hx.
  destruct (shape_eqb _ _); [|done]. injection Hx as Hx.
  rewrite (filter_density_items _ _ _ _ _ Hlen HxP).
  rewrite lookup_zip_with, list_lookup_fmap, Hrow. simpl.
  assert (Hi : (i < length (Hs s))%nat).
  { apply lookup_lt_Some in Hrow. lia. }
  destruct (lookup_lt_is_Some_2 (Hs s) i Hi) as [hs Ehs].
  rewrite Ehs. simpl. eexists. split; [reflexivity|].
  rewrite (nth_lookup_Some _ _ _ _ Ehs), <- Hx. simpl.
  rewrite row_dot_masked_full; [done|].
  destruct Hwfm as [_ Hl]. by rewrite Hl, Hsm.
Qed.

End InitialDensity.

(** The bar of three elements with the middle one masked: the physical
    density of the masked element starts at 0.2, not at 0. *)
Lemma initial_density_not_masked_witness :
  exists tr s,
    @top3d_setup (Demo.collaborators 0) 3 1 1 (1 # 2) (3 # 2)
      (Some Demo.middle_mask) (1 # 100) 5 = (tr, Ok s) /\
    length (Hs s) = length (rows (H s)) /\
    rows (H s) !! 1%nat
      = Some [(0%nat, 1 # 2); (1%nat, 3 # 2); (2%nat, 1 # 2)] /\
    exists v,
      items (xPhys s) !! 1%nat = Some v /\
      v == (1 # 2)
           * qsum (map snd (List.filter
                              (fun p : nat * Q => free_cell (mask s) p.1)
                              [(0%nat, 1 # 2); (1%nat, 3 # 2);
                               (2%nat, 1 # 2)]))
           / nth 1 (Hs s) 0 /\
      v == 1 # 5.
Proof.
  eexists _, _.
  match goal with
  | |- ?P /\ _ => assert (Hrun : P) by (vm_compute; reflexivity)
  end.
  split; [exact Hrun|].
  assert (Hlen : forall m, Some Demo.middle_mask = Some m -> wf_ndarray m).
  { intros m [= <-]. split; reflexivity. }
  split; [reflexivity|]. split; [reflexivity|].
  destruct (@initial_density_not_masked (Demo.collaborators 0) 3 1 1 (1 # 2)
              (3 # 2) (Some Demo.middle_mask) (1 # 100) 5 _ _ Hlen Hrun
              eq_refl 1%nat _ eq_refl) as (v & Hv & Hval).
  exists v. split; [exact Hv|]. split; [exact Hval|].
  rewrite Hval. reflexivity.
Defined.

(** ** The displacement vector (optimizer.py, lines 160-165) *)

Lemma norm_index_lt (n : nat) (i : Z) (j : nat) :
  norm_index n i = Return j -> (j < n)%nat.
Proof.
  unfold norm_index.
  destruct ((0 <=? i)%Z && (i <? Z.of_nat n)%Z) eqn:E1.
  - intros [= <-]. apply andb_true_iff in E1 as [E0 E1].
    apply Z.leb_le in E0. apply Z.ltb_lt in E1. lia.
  - destruct ((- Z.of_nat n <=? i)%Z && (i <? 0)%Z) eqn:E2; [|done].
    intros [= <-]. apply andb_true_iff in E2 as [E0 E2].
    apply Z.leb_le in E0. apply Z.ltb_lt in E2. lia.
Qed.

Lemma norm_indices_lt (n : nat) (idx : list Z) (js : list nat) :
  norm_indices n idx = Return js ->
  length js = length idx /\ Forall (fun j => (j < n)%nat) js.
Proof.
  revert js. induction idx as [|i idx IH]; intros js; simpl.
  - by intros [= <-].
  - intros Hrun. apply obind_Return in Hrun as (j & Hj & Hrun).
    apply obind_Return in Hrun as (js' & Hjs & Hrun).
    injection Hrun as <-. destruct (IH js' Hjs) as [Hlen Hall].
    split; [simpl; lia|]. constructor; [|done]. by eapply norm_index_lt.
Qed.

Lemma scatter_length (l : list (nat * Q)) (v : list Q) :
  length (fold_left (fun acc (p : nat * Q) => <[p.1 := p.2]> acc) l v)
  = length v.
Proof.
  revert v. induction l as [|p l IH]; intros v; simpl; [done|].
  by rewrite IH, length_insert.
Qed.

Lemma scatter_outside (l : list (nat * Q)) (v : list Q) (i : nat) :
  i ∉ map fst l ->
  fold_left (fun acc (p : nat * Q) => <[p.1 := p.2]> acc) l v !! i = v !! i.
Proof.
  revert v. induction l as [|[j a] l IH]; intros v Hi; simpl; [done|].
  simpl in Hi. apply not_elem_of_cons in Hi as [Hij Hi].
  rewrite IH by done. by apply list_lookup_insert_ne.
Qed.

Lemma scatter_gather (js : list nat) (vals v : list Q) :
  NoDup js -> length vals = length js ->
  Forall (fun j => (j < length v)%nat) js ->
  map (fun j =>
         nth j (fold_left (fun acc (p : nat * Q) => <[p.1 := p.2]> acc)
                  (zip js vals) v) 0) js = vals.
Proof.
  intros Hnd. revert vals v.
  induction Hnd as [|j js Hj Hnd IH]; intros [|a vals] v Hlen Hlt;
    simpl in *; try done.
  apply Forall_cons in Hlt as [Hjlt Hlt]. f_equal.
  - rewrite nth_lookup, scatter_outside.
    + by rewrite list_lookup_insert_eq.
    + change (map fst (zip js vals)) with ((zip js vals).*1).
      rewrite fst_zip by lia. done.
  - apply IH; [lia|]. by rewrite length_insert.
Qed.

Section Displacement.
Context `{Collaborators}.
Variables nelx nely nelz : Z.
Variables volfrac penal disp_thres : Q.

Lemma iteration_solve s tr s' :
  iteration nelx nely nelz volfrac penal disp_thres s = (tr, Ok s') ->
  exists K K_ff F_f U_f,
    assemble (K_template s) (assembly_map s) (nUnique s)
      (map (fun v => Emin + float_power v penal * (E0 - Emin))
         (ravel_F (xPhys s))) (KE s) = Return K /\
    submatrix K (freedofs0 s) = Return K_ff /\
    take (F s) (freedofs0 s) = Return F_f /\
    solver K_ff F_f = Return U_f /\
    put (map (fun _ => 0) (U s)) (freedofs0 s) U_f = Return (U s').
Proof.
  intros Hrun. unfold iteration in Hrun. cbv zeta in Hrun.
  do 12 (step_bind Hrun).
  match goal with
  | Hoc : optimality_criteria_update _ _ _ _ _ _ _ _ _ = Return ?a |- _ =>
      destruct a as [xnew0 chg]
  end.
  do 6 (step_bind Hrun).
  unfold displayflag in Hrun.
  step_bind Hrun.
  apply mret_Ok in Hrun as [<- ->].
  simpl_state.
  repeat eexists; eauto.
Qed.

(** X5.  After a pass through the loop body the displacement vector has
    the length it had, is 0 at every degree of freedom that [freedofs0]
    does not name (the supports carry no displacement, whatever the
    vector held before) and, when [freedofs0] names no degree of freedom
    twice and the solver returns one value per free degree of freedom,
    reading it back at [freedofs0] gives exactly the solution of the
    solver. *)
Theorem displacement_after_solve s tr s' :
  iteration nelx nely nelz volfrac penal disp_thres s = (tr, Ok s') ->
  length (U s') = length (U s) /\
  exists js K_ff F_f U_f,
    norm_indices (length (U s)) (freedofs0 s) = Return js /\
    solver K_ff F_f = Return U_f /\
    (forall i, (i < length (U s))%nat -> i ∉ js -> U s' !! i = Some 0) /\
    (NoDup js -> length U_f = length js ->
     take (U s') (freedofs0 s) = Return U_f).
Proof.
  intros Hrun.
  destruct (iteration_solve _ _ _ Hrun)
    as (K & K_ff & F_f & U_f & _ & _ & _ & Hsolve & Hput).
  unfold put in Hput. rewrite length_map in Hput.
  apply obind_Return in Hput as (vals & Hvals & Hput).
  apply obind_Return in Hput as (js & Hjs & Hput).
  injection Hput as Hput.
  destruct (norm_indices_lt _ _ _ Hjs) as [Hlen Hlt].
  assert (HlenU : length (U s') = length (U s)).
  { by rewrite <- Hput, scatter_length, length_map. }
  split; [done|].
  exists js, K_ff, F_f, U_f. repeat split; [done..| |].
  - intros i Hi Hni. rewrite <- Hput, scatter_outside.
    + rewrite list_lookup_fmap.
      destruct (lookup_lt_is_Some_2 (U s) i Hi) as [u ->]. done.
    + intros Hin. apply Hni.
      apply list_elem_of_fmap in Hin as ([j a] & -> & Hin).
      by apply elem_of_zip_l in Hin.
  - intros Hnd HUf. unfold take. rewrite HlenU, Hjs. simpl. f_equal.
    assert (vals = U_f) as ->.
    { destruct U_f as [|a [|b U_f]].
      - destruct (_ =? _)%nat in Hvals; [|done]. by injection Hvals as <-.
      - injection Hvals as <-.
        destruct (freedofs0 s) as [|k [|??]]; simpl in *; try lia. done.
      - destruct (_ =? _)%nat in Hvals; [|done]. by injection Hvals as <-. }
    rewrite <- Hput. apply scatter_gather; [done|lia|].
    by rewrite length_map.
Qed.

End Displacement.

(** The first pass of the bar example: 48 degrees of freedom, of which
    1, 2 and 3 are free. *)
Lemma displacement_after_solve_witness :
  exists t0 s tr s',
    @top3d_setup (Demo.collaborators 0) 3 1 1 (1 # 2) (3 # 2) None
      (1 # 100) 5 = (t0, Ok s) /\
    @iteration (Demo.collaborators 0) 3 1 1 (1 # 2) 3 (1 # 2) s
      = (tr, Ok s') /\
    length (U s') = length (U s) /\
    exists js K_ff F_f U_f,
      norm_indices (length (U s)) (freedofs0 s) = Return js /\
      @solver (Demo.collaborators 0) K_ff F_f = Return U_f /\
      (forall i, (i < length (U s))%nat -> i ∉ js -> U s' !! i = Some 0) /\
      (NoDup js -> length U_f = length js ->
       take (U s') (freedofs0 s) = Return U_f).
Proof.
  eexists _, _, _, _.
  split; [vm_compute; reflexivity|].
  match goal with
  | |- ?P /\ _ => assert (Hrun : P) by (vm_compute; reflexivity)
  end.
  split; [exact Hrun|].
  exact (@displacement_after_solve (Demo.collaborators 0) 3 1 1 (1 # 2) 3
           (1 # 2) _ _ _ Hrun).
Defined.

(** ** Runs that return (optimizer.py, lines 146-147 and 227-243) *)

Lemma top3d_returns_latest_density_witness :
  exists tr a t s cv vol,
    @top3d (Demo.collaborators (1 # 2)) 3 1 1 (1 # 2) 3 (3 # 2) (1 # 2)
      (Some Demo.middle_mask) (1 # 100) 2 = (tr, Ok a) /\
    @top3d_loop (Demo.collaborators (1 # 2)) 3 1 1 (1 # 2) 3 (3 # 2) (1 # 2)
      (Some Demo.middle_mask) (1 # 100) 2 = (t, Ok s) /\
    a = xPhys s /\
    (1 <= loop s <= 2)%Z /\
    (change s <= 1 # 100 \/ loop s = 2%Z) /\
    tr = t ++ [PbarClose;
               if (2 <=? loop s)%Z
               then Log WARNING (MsgMaxIterations 2)
               else Log INFO (MsgConverged (loop s));
               Log INFO (MsgFinalObjective cv);
               Log INFO (MsgFinalVolume vol (1 # 2))].
Proof.
  assert (Hrun : exists tr a,
    @top3d (Demo.collaborators (1 # 2)) 3 1 1 (1 # 2) 3 (3 # 2) (1 # 2)
      (Some Demo.middle_mask) (1 # 100) 2 = (tr, Ok a)).
  { eexists _, _. vm_compute. reflexivity. }
  destruct Hrun as (tr & a & Hrun).
  destruct (@top3d_returns_latest_density (Demo.collaborators (1 # 2)) 3 1 1
              (1 # 2) 3 (3 # 2) (1 # 2) (Some Demo.middle_mask) (1 # 100) 2
              tr a Hrun) as (t & s & cv & vol & Hconcl).
  exists tr, a, t, s, cv, vol. split; [exact Hrun|exact Hconcl].
Defined.

(** ** The number of linear solves, whatever the outcome *)

Lemma trace_bind {A B} (m : M A) (f : A -> M B) :
  trace (m ≫= f) =
  trace m ++ match result m with
             | Ok a => trace (f a)
             | _ => []
             end.
Proof.
  destruct m as [t [a| |]]; unfold mbind, M_bind, trace, result; simpl.
  - by destruct (f a).
  - by rewrite app_nil_r.
  - by rewrite app_nil_r.
Qed.

Lemma solver_calls_app (t1 t2 : list event) :
  solver_calls (t1 ++ t2) = (solver_calls t1 + solver_calls t2)%nat.
Proof. unfold solver_calls. by rewrite List.filter_app, length_app. Qed.

Lemma bind_calls {A B} (m : M A) (f : A -> M B) (a b : nat) :
  (solver_calls (trace m) <= a)%nat ->
  (forall x, (solver_calls (trace (f x)) <= b)%nat) ->
  (solver_calls (trace (m ≫= f)) <= a + b)%nat.
Proof.
  intros Hm Hf. rewrite trace_bind, solver_calls_app.
  destruct (result m) as [x| |]; [specialize (Hf x)|..];
    unfold solver_calls in *; simpl in *; lia.
Qed.

Lemma bind_calls_none {A B} (m : M A) (f : A -> M B) (b : nat) :
  solver_calls (trace m) = 0%nat ->
  (forall x, (solver_calls (trace (f x)) <= b)%nat) ->
  (solver_calls (trace (m ≫= f)) <= b)%nat.
Proof.
  intros Hm Hf. apply (bind_calls m f 0 b); [lia|done].
Qed.

Lemma bind_calls_solver {A B} (r : res A) (f : A -> M B) :
  (forall x, (solver_calls (trace (f x)) <= 0)%nat) ->
  (solver_calls (trace (call Solver r ≫= f)) <= 1)%nat.
Proof.
  intros Hf. apply (bind_calls (call Solver r) f 1 0); [|done].
  by destruct r.
Qed.

(** Walks down a sequence of binds none of which is the solver call. *)
Ltac no_solver_call :=
  repeat first
    [ apply bind_calls_none; [by repeat case_match|intros]
    | match goal with
      | |- (solver_calls (trace (let '(_, _) := ?p in _)) <= _)%nat =>
          destruct p
      end
    | done ].

Section Work.
Context `{Collaborators}.
Variables nelx nely nelz : Z.
Variables volfrac penal rmin disp_thres : Q.
Variable obstacle_mask : option (ndarray bool).
Variable tolx : Q.
Variable maxloop : Z.

Lemma iteration_calls s :
  (solver_calls
     (trace (iteration nelx nely nelz volfrac penal disp_thres s)) <= 1)%nat.
Proof.
  unfold iteration. cbv zeta.
  do 3 (apply bind_calls_none; [by repeat case_match|intros]).
  apply bind_calls_solver. intros U_f.
  unfold displayflag. no_solver_call.
Qed.

Lemma top3d_setup_calls :
  solver_calls
    (trace (top3d_setup nelx nely nelz volfrac rmin obstacle_mask tolx
              maxloop)) = 0%nat.
Proof.
  apply Nat.le_0_r. unfold top3d_setup. cbv zeta. no_solver_call.
Qed.

Lemma top3d_finish_calls s :
  solver_calls (trace (top3d_finish volfrac maxloop s)) = 0%nat.
Proof.
  apply Nat.le_0_r. unfold top3d_finish. no_solver_call.
Qed.

Lemma while_loop_calls fuel s :
  (solver_calls
     (trace (while_loop nelx nely nelz volfrac penal disp_thres tolx maxloop
               fuel s)) <= Z.to_nat (maxloop - loop s))%nat.
Proof.
  revert s. induction fuel as [|fuel IH]; intros s; simpl.
  - destruct (loop_condition tolx maxloop s); unfold solver_calls; simpl; lia.
  - destruct (loop_condition tolx maxloop s) eqn:Hc;
      [|unfold solver_calls; simpl; lia].
    apply andb_true_iff in Hc as [_ Hc]. apply Z.ltb_lt in Hc.
    rewrite trace_bind, solver_calls_app.
    pose proof (iteration_calls s) as Hit.
    destruct (iteration nelx nely nelz volfrac penal disp_thres s)
      as [t [s'| |]] eqn:Hrun; unfold result, trace in *; simpl in *.
    + specialize (IH s'). apply iteration_loop in Hrun.
      rewrite Hrun in IH. unfold trace in IH. lia.
    + unfold solver_calls at 2. simpl. lia.
    + unfold solver_calls at 2. simpl. lia.
Qed.

(** X7.  Whatever the arguments and whatever the utilities do, and whether
    [top3d] returns or raises: the linear solver is called at most
    [maxloop] times (never, when [maxloop] is not positive). *)
Theorem top3d_solves_at_most_maxloop :
  (solver_calls
     (trace (top3d nelx nely nelz volfrac penal rmin disp_thres
               obstacle_mask tolx maxloop)) <= Z.to_nat maxloop)%nat.
Proof.
  unfold top3d. rewrite <- (Nat.add_0_r (Z.to_nat maxloop)).
  apply bind_calls; [|intros s; by rewrite top3d_finish_calls].
  unfold top3d_loop. rewrite trace_bind, solver_calls_app, top3d_setup_calls.
  destruct (top3d_setup nelx nely nelz volfrac rmin obstacle_mask tolx
              maxloop) as [t0 [s0| |]] eqn:Hs;
    unfold result; cbn [snd]; try (unfold solver_calls; simpl; lia).
  pose proof (while_loop_calls (Z.to_nat maxloop) s0) as Hloop.
  destruct (top3d_setup_Ok _ _ _ _ _ _ _ _ _ _ Hs)
    as (_&_&_&_&_&_&Hl&_).
  rewrite Hl, Z.sub_0_r in Hloop. exact Hloop.
Qed.

End Work.

(** ** Binding the arguments of a call of [top3d] *)

Lemma fill_parameters_missing (params : list string)
    (given defaults : list (string * pyval)) (k : string) :
  In k params ->
  lookup_name k given = None ->
  lookup_name k defaults = None ->
  fill_parameters params given defaults = Throw TypeError.
Proof.
  intros Hin Hg Hd. induction params as [|p params IH]; [done|].
  assert (Hthrow : forall e, fill_parameters (p :: params) given defaults
                               = Throw e -> e = TypeError).
  { clear. generalize (p :: params). intros l.
    induction l as [|q l IHl]; intros e; [done|]. simpl.
    destruct (lookup_name q given); [|destruct (lookup_name q defaults)];
      cbn [obind]; try congruence;
      destruct (fill_parameters l given defaults) eqn:Hl; cbn [obind];
      try congruence; intros [= <-]; eauto. }
  destruct (fill_parameters (p :: params) given defaults) as [vs|e] eqn:Hrun;
    [|by rewrite (Hthrow e eq_refl)].
  exfalso. simpl in Hrun. destruct Hin as [->|Hin].
  - by rewrite Hg, Hd in Hrun.
  - rewrite (IH Hin) in Hrun.
    destruct (lookup_name p given); [|destruct (lookup_name p defaults)];
      done.
Qed.

Lemma lookup_name_None (k : string) (l : list (string * pyval)) :
  ~ In k l.*1 -> lookup_name k l = None.
Proof.
  intros Hk. unfold lookup_name.
  destruct (find _ l) as [p|] eqn:Hf; [|done].
  apply find_some in Hf as [Hin Heq]. apply String.eqb_eq in Heq.
  destruct Hk. rewrite Heq. apply in_map_iff. by exists p.
Qed.

Lemma lookup_name_app (k : string) (l1 l2 : list (string * pyval)) :
  lookup_name k l1 = None ->
  lookup_name k (l1 ++ l2) = lookup_name k l2.
Proof.
  unfold lookup_name. induction l1 as [|p l1 IH]; [done|]. simpl.
  destruct (String.eqb k p.1); [done|]. exact IH.
Qed.

(** X8.  The calls of [top3d] that Python refuses.  More than ten
    positional arguments, a keyword that is not one of the ten parameters,
    a keyword for a parameter already given by position, or one of the
    seven parameters without default given neither way: each is a
    [TypeError] raised before the body of the function has logged or
    called anything, whatever the values are. *)
Theorem call_top3d_refused `{Collaborators} (positional : list pyval)
    (keywords : list (string * pyval)) :
  (10 < length positional)%nat \/
  (exists kw, In kw keywords /\ ~ In kw.1 top3d_parameters) \/
  (exists i kw, (i < length positional)%nat /\ In kw keywords /\
                top3d_parameters !! i = Some kw.1) \/
  (exists i k, (length positional <= i < 7)%nat /\
               top3d_parameters !! i = Some k /\ ~ In k keywords.*1) ->
  call_top3d positional keywords = ([], Raise TypeError).
Proof.
  intros Hbad.
  enough (Hb : bind_arguments top3d_parameters top3d_defaults positional
                 keywords = Throw TypeError)
    by (unfold call_top3d; by rewrite Hb).
  unfold bind_arguments.
  destruct (length top3d_parameters <? length positional)%nat eqn:Hlen;
    [done|].
  apply Nat.ltb_ge in Hlen. change (length top3d_parameters) with 10%nat in Hlen.
  destruct (existsb _ keywords) eqn:Hunknown; [done|].
  cbv zeta.
  destruct (existsb _ keywords) eqn:Htwice in |- * at 1; [done|].
  destruct Hbad as [Hmany|[(kw & Hin & Hno)|[(i & kw & Hi & Hin & Hp)
                                            |(i & k & Hi & Hp & Hno)]]].
  - lia.
  - exfalso. apply not_true_iff_false in Hunknown. apply Hunknown.
    apply existsb_exists. exists kw. split; [done|].
    apply negb_true_iff, not_true_iff_false. intros Hex.
    apply existsb_exists in Hex as (p & Hp & Heq).
    apply String.eqb_eq in Heq. by subst p.
  - exfalso. apply not_true_iff_false in Htwice. apply Htwice.
    apply existsb_exists. exists kw. split; [done|].
    apply existsb_exists.
    destruct (lookup_lt_is_Some_2 positional i Hi) as [v Hv].
    exists (kw.1, v). split; [|by apply String.eqb_eq].
    apply list_elem_of_In, list_elem_of_lookup. exists i.
    by rewrite lookup_zip_with, Hp; cbn; rewrite Hv.
  - apply (fill_parameters_missing _ _ _ k).
    + apply list_elem_of_In, list_elem_of_lookup. by exists i.
    + rewrite lookup_name_app; [by apply lookup_name_None|].
      apply lookup_name_None. intros Hk.
      apply list_elem_of_In, list_elem_of_fmap in Hk as ([k' v] & -> & Hkv).
      apply list_elem_of_lookup in Hkv as [j Hj].
      rewrite lookup_zip_with in Hj.
      destruct (top3d_parameters !! j) as [kj|] eqn:Hkj; [|done].
      destruct (positional !! j) as [vj|] eqn:Hvj; [|done].
      cbn in Hj. injection Hj as <- <-. cbn in Hp.
      apply lookup_lt_Some in Hvj.
      assert (Hnd : NoDup top3d_parameters).
      { unfold top3d_parameters.
        repeat (apply NoDup_cons_2;
                [rewrite ?elem_of_cons, elem_of_nil; intros Hor;
                 repeat (destruct Hor as [Hor|Hor]; [discriminate Hor|]);
                 exact Hor|]).
        apply NoDup_nil_2. }
      pose proof (NoDup_lookup _ _ _ _ Hnd Hp Hkj). lia.
    + do 7 (destruct i as [|i]; [by injection Hp as <-|]). lia.
Qed.

Lemma call_top3d_refused_witness :
  @call_top3d (Demo.collaborators 0)
    [PyInt 3; PyInt 1; PyInt 1; PyFloat (1 # 2); PyFloat 3]
    [("disp_thres", PyFloat (1 # 2)); ("maxloop", PyInt 5)]%string
  = ([], Raise TypeError).
Proof.
  apply (@call_top3d_refused (Demo.collaborators 0)).
  right. right. right. exists 5%nat, "rmin"%string.
  split; [simpl; lia|]. split; [reflexivity|].
  simpl. intros [Hk|[Hk|[]]]; discriminate Hk.
Defined.

Lemma existsb_Forall_false {A} (f : A -> bool) (l : list A) :
  Forall (fun a => f a = false) l -> existsb f l = false.
Proof. induction 1 as [|a l Ha _ IH]; [done|]. simpl. by rewrite Ha. Qed.

(** X9.  The calls that are accepted the way [execute_optimization] means
    to call: seven positional arguments, and keywords only among
    [obstacle_mask], [tolx] and [maxloop].  The ten parameters are then
    the positional arguments in their order, followed by each keyword
    given or else its default: [None], [0.01], [2000]. *)
Theorem bind_arguments_top3d (positional : list pyval)
    (keywords : list (string * pyval)) :
  length positional = 7%nat ->
  Forall (fun kw : string * pyval =>
            In kw.1 ["obstacle_mask"; "tolx"; "maxloop"]%string) keywords ->
  bind_arguments top3d_parameters top3d_defaults positional keywords =
  Return (positional ++
          [default PyNone (lookup_name "obstacle_mask" keywords);
           default (PyFloat (1 # 100)) (lookup_name "tolx" keywords);
           default (PyInt 2000) (lookup_name "maxloop" keywords)]).
Proof.
  intros Hlen Hkw.
  do 7 (destruct positional as [|? positional]; [done|]).
  destruct positional; [|done]. clear Hlen.
  unfold bind_arguments. cbn [length top3d_parameters Nat.ltb Nat.leb].
  rewrite existsb_Forall_false.
  2:{ eapply Forall_impl; [exact Hkw|]. intros [k v] Hk. cbn in *.
      by destruct Hk as [<-|[<-|[<-|[]]]]. }
  cbv zeta. rewrite existsb_Forall_false.
  2:{ eapply Forall_impl; [exact Hkw|]. intros [k v] Hk. cbn in *.
      by destruct Hk as [<-|[<-|[<-|[]]]]. }
  cbn. unfold lookup_name.
  by destruct (find _ keywords) as [[]|], (find _ keywords) as [[]|],
    (find _ keywords) as [[]|].
Qed.

Lemma bind_arguments_top3d_witness :
  bind_arguments top3d_parameters top3d_defaults
    [PyInt 3; PyInt 1; PyInt 1; PyFloat (1 # 2); PyFloat 3;
     PyFloat (3 # 2); PyFloat (1 # 2)]
    [("maxloop", PyInt 5)]%string =
  Return [PyInt 3; PyInt 1; PyInt 1; PyFloat (1 # 2); PyFloat 3;
          PyFloat (3 # 2); PyFloat (1 # 2); PyNone; PyFloat (1 # 100);
          PyInt 5].
Proof.
  apply (bind_arguments_top3d
           [PyInt 3; PyInt 1; PyInt 1; PyFloat (1 # 2); PyFloat 3;
            PyFloat (3 # 2); PyFloat (1 # 2)]
           [("maxloop", PyInt 5)]%string).
  - reflexivity.
  - constructor; [simpl; auto|constructor].
Defined.

(** A grid without elements along x: the call fails at the division of
    the first debug line. *)
Lemma top3d_rejects_degenerate_grid_witness :
  exists e, @top3d (Demo.collaborators 0) 0 1 1 (1 # 2) 3 (3 # 2) (1 # 2)
              None (1 # 100) 5 = ([], Raise e).
Proof.
  apply (@top3d_rejects_degenerate_grid (Demo.collaborators 0)).
  right. reflexivity.
Defined.

(** ** The namespace of [parse_args] *)

Ltac each_argument H :=
  unfold arguments in H; cbn [In] in H;
  repeat (destruct H as [<-|H]; [|]); [..|destruct H].

Lemma lookup_dest_argument (a : argument) :
  In a arguments -> lookup_dest (dest a) = Some a.
Proof. intros Hin. each_argument Hin; vm_compute; reflexivity. Qed.

Lemma dest_inj (a b : argument) :
  In a arguments -> In b arguments -> dest a = dest b -> a = b.
Proof.
  intros Ha Hb Heq. apply lookup_dest_argument in Ha, Hb.
  rewrite Heq in Ha. congruence.
Qed.

Lemma find_argument_In py_flag a :
  find_argument py_flag = Some a -> In a arguments.
Proof. intros Hf. by apply find_some in Hf as [Hin _]. Qed.

(** Setting the defaults gives the namespace one attribute per option. *)
Lemma dom_defaults (l : list argument) (ns0 : gmap string value) :
  dom (foldl (fun (ns : gmap string value) a =>
                match ns !! dest a with
                | Some _ => ns
                | None => <[dest a := arg_default a]> ns
                end) ns0 l)
  = dom ns0 ∪ list_to_set (dest <$> l).
Proof.
  revert ns0. induction l as [|a l IH]; intros ns0.
  - cbn [foldl fmap list_fmap list_to_set].
    symmetry. apply (right_id_L ∅ (∪)).
  - cbn [foldl fmap list_fmap list_to_set]. rewrite IH.
    rewrite (assoc_L (∪)). f_equal.
    destruct (ns0 !! dest a) as [v|] eqn:Ha.
    + apply elem_of_dom_2 in Ha. symmetry.
      rewrite (comm_L (∪)).
      by apply subseteq_union_1_L, singleton_subseteq_l.
    + rewrite dom_insert_L. apply (comm_L (∪)).
Qed.

Lemma initial_namespace_conforms : conforms initial_namespace.
Proof.
  split.
  - unfold initial_namespace, namespace. rewrite dom_defaults, dom_empty_L.
    apply (left_id_L ∅ (∪)).
  - intros a Hin. exists (arg_default a). split; [|by left].
    each_argument Hin; vm_compute; reflexivity.
Qed.

Lemma find_argument_flag (a : argument) (flag : string) :
  In a arguments -> In flag (arg_flags a) -> find_argument flag = Some a.
Proof.
  intros Hin Hflag.
  each_argument Hin; cbn [arg_flags In] in Hflag;
    repeat (destruct Hflag as [<-|Hflag]; [vm_compute; reflexivity|]);
    destruct Hflag.
Qed.

Section ParseArgsFacts.
Variable py_int : string -> option Z.
Variable py_float : string -> option float.

(** What one option does to the namespace. *)
Lemma take_action_Parsed ns flag explicit_arg ns' :
  take_action py_int py_float ns (flag, explicit_arg) = Parsed ns' ->
  exists a v,
    find_argument flag = Some a /\ ns' = <[dest a := v]> ns /\
    match arg_action_of a with
    | Store t choices =>
        exists s, explicit_arg = Some s /\
                  get_value py_int py_float t s = Some v /\
                  check_value choices v = true
    | StoreTrue => explicit_arg = None /\ v = VBool true
    end.
Proof.
  unfold take_action.
  destruct (_ || _)%bool; [by destruct explicit_arg|].
  destruct (find_argument flag) as [a|]; [|done].
  destruct (arg_action_of a) as [t choices|] eqn:Ha,
    explicit_arg as [s|]; try done.
  - destruct (get_value py_int py_float t s) as [v|] eqn:Hv; [|done].
    destruct (check_value choices v) eqn:Hc; [|done].
    intros [= <-]. exists a, v. rewrite Ha. eauto 10.
  - intros [= <-]. exists a, (VBool true). by rewrite Ha.
Qed.

Lemma take_action_admits ns flag explicit_arg ns' :
  take_action py_int py_float ns (flag, explicit_arg) = Parsed ns' ->
  exists a v, In a arguments /\ ns' = <[dest a := v]> ns /\ admits a v.
Proof.
  intros (a & v & Hfind & -> & Hact)%take_action_Parsed.
  exists a, v. split; [by eapply find_argument_In|]. split; [done|].
  right. destruct (arg_action_of a) as [t choices|].
  - destruct Hact as (s & _ & Hv & Hc).
    destruct t; simpl in Hv.
    + destruct (py_int s); [|done]. injection Hv as <-. eauto.
    + destruct (py_float s); [|done]. injection Hv as <-. eauto.
    + injection Hv as <-. eauto.
  - by destruct Hact.
Qed.

Lemma take_actions_conforms command_line ns ns' :
  conforms ns ->
  take_actions py_int py_float ns command_line = Parsed ns' ->
  conforms ns'.
Proof.
  revert ns. induction command_line as [|[flag arg] rest IH]; intros ns Hns.
  - by intros [= <-].
  - cbn [take_actions].
    destruct (take_action py_int py_float ns (flag, arg)) as [ns1|] eqn:Hact;
      [|done].
    apply IH. clear IH.
    apply take_action_admits in Hact as (a & v & Hin & -> & Hv).
    destruct Hns as [Hdom Hattr]. split; unfold namespace in *.
    + rewrite dom_insert_L, <- Hdom.
      destruct (Hattr a Hin) as (v0 & Hv0 & _).
      apply elem_of_dom_2 in Hv0.
      by apply subseteq_union_1_L, singleton_subseteq_l.
    + intros b Hb. destruct (decide (dest a = dest b)) as [Heq|Hne].
      * rewrite (dest_inj a b Hin Hb Heq) in *. exists v.
        split; [apply lookup_insert_eq|done].
      * destruct (Hattr b Hb) as (vb & Hvb & Hadm). exists vb.
        split; [by rewrite lookup_insert_ne|done].
Qed.

(** X10.  The namespace that [parse_args] returns, whatever the command
    line: it has the twenty-one attributes of the table and no other, and
    each holds its default or a value of the option's type (for
    [log_level], one of the five choices). *)
Theorem parse_args_conforms (command_line : list occurrence)
    (ns : namespace) :
  parse_args py_int py_float command_line = Parsed ns -> conforms ns.
Proof.
  unfold parse_args. apply take_actions_conforms.
  apply initial_namespace_conforms.
Qed.

(** X11.  [--smooth-stl] is a flag whose default is already [True]: no
    command line turns the smoothing off. *)
Theorem parse_args_smooth_stl (command_line : list occurrence)
    (ns : namespace) :
  parse_args py_int py_float command_line = Parsed ns ->
  ns !! "smooth_stl"%string = Some (VBool true).
Proof.
  intros Hp.
  destruct (take_actions_conforms _ _ _ initial_namespace_conforms Hp)
    as [_ Hattr].
  destruct (Hattr (mk_argument ["--smooth-stl"%string] StoreTrue
                     (VBool true))) as (v & Hv & [->| ->]);
    [|exact Hv..].
  unfold arguments. cbn [In]. tauto.
Qed.

Lemma take_actions_lookup (a : argument) command_line ns ns' :
  In a arguments ->
  take_actions py_int py_float ns command_line = Parsed ns' ->
  match last (given a command_line) with
  | None => ns' !! dest a = ns !! dest a
  | Some (_, explicit_arg) =>
      match arg_action_of a with
      | Store t _ =>
          exists s v, explicit_arg = Some s /\
                      get_value py_int py_float t s = Some v /\
                      ns' !! dest a = Some v
      | StoreTrue => ns' !! dest a = Some (VBool true)
      end
  end.
Proof.
  intros Hin. revert ns.
  induction command_line as [|[flag arg] rest IH]; intros ns.
  - by intros [= <-].
  - cbn [take_actions].
    destruct (take_action py_int py_float ns (flag, arg)) as [ns1|] eqn:Hact;
      [|done].
    intros Hrest. specialize (IH _ Hrest).
    unfold given in *. rewrite filter_cons. cbn [fst].
    destruct (decide (existsb (String.eqb flag) (arg_flags a) = true))
      as [Hmine|Hother].
    + rewrite last_cons.
      destruct (last (filter _ rest)) as [[? later]|]; [exact IH|].
      rewrite IH. clear IH Hrest.
      apply existsb_exists in Hmine as (f & Hf & ->%String.eqb_eq).
      apply take_action_Parsed in Hact as (a' & v & Hfind & -> & Hact).
      rewrite (find_argument_flag a f Hin Hf) in Hfind.
      injection Hfind as <-.
      destruct (arg_action_of a) as [t choices|].
      * destruct Hact as (s & -> & Hv & _). exists s, v.
        unfold namespace in *. by rewrite lookup_insert_eq.
      * destruct Hact as [_ ->].
        unfold namespace in *. by rewrite lookup_insert_eq.
    + destruct (last (filter _ rest)) as [[? later]|]; [exact IH|].
      rewrite IH. clear IH Hrest.
      apply take_action_Parsed in Hact as (a' & v & Hfind & -> & _).
      assert (Hne : dest a' <> dest a).
      { intros Heq. apply Hother.
        rewrite (dest_inj a' a (find_argument_In _ _ Hfind) Hin Heq)
          in Hfind.
        apply find_some in Hfind as [_ Hflag]. exact Hflag. }
      unfold namespace in *. by rewrite lookup_insert_ne.
Qed.

(** X12.  What an attribute of the parsed namespace holds: the default of
    its option when the option is not on the command line, otherwise
    [True] for a flag and the converted argument of the last occurrence
    for an option with an argument. *)
Theorem parse_args_last_occurrence (a : argument)
    (command_line : list occurrence) (ns : namespace) :
  In a arguments ->
  parse_args py_int py_float command_line = Parsed ns ->
  match last (given a command_line) with
  | None => ns !! dest a = Some (arg_default a)
  | Some (_, explicit_arg) =>
      match arg_action_of a with
      | Store t _ =>
          exists s v, explicit_arg = Some s /\
                      get_value py_int py_float t s = Some v /\
                      ns !! dest a = Some v
      | StoreTrue => ns !! dest a = Some (VBool true)
      end
  end.
Proof.
  intros Hin Hp.
  pose proof (take_actions_lookup a _ _ _ Hin Hp) as Hl.
  destruct (last (given a command_line)) as [[? arg]|]; [exact Hl|].
  rewrite Hl. clear Hl Hp. each_argument Hin; vm_compute; reflexivity.
Qed.

(** The attribute of an option of the table, in a namespace that conforms
    to it. *)
Lemma conforms_attribute (ns : namespace) (a : argument) :
  conforms ns -> In a arguments ->
  exists v, ns !! dest a = Some v /\ admits a v.
Proof. intros [_ Hattr]. apply Hattr. Qed.

(** Reads the attribute [name] of the option [a] off a namespace that
    conforms to the table. *)
Ltac attribute Hns a name v Hv Hadm :=
  match type of Hns with
  | conforms ?ns =>
      destruct (conforms_attribute ns a Hns) as (v & Hv & Hadm);
      [unfold arguments; cbn [In]; tauto|];
      change (ns !! name%string = Some v) in Hv;
      unfold admits in Hadm; cbn [arg_action_of arg_default] in Hadm
  end.

(** X13.  On a namespace of [parse_args], [generate_experiment_name]
    does not fail, whatever the command line was: the attributes it reads
    are there, the obstacle configuration is a string or [None], and the
    name it returns is a string. *)
Theorem parse_args_then_generate_experiment_name
    (float_repr : float -> string) (command_line : list occurrence)
    (ns : namespace) :
  parse_args py_int py_float command_line = Parsed ns ->
  exists name, generate_experiment_name float_repr ns = Return (VStr name).
Proof.
  intros Hp.
  pose proof (take_actions_conforms _ _ _ initial_namespace_conforms Hp)
    as Hns.
  attribute Hns (mk_argument ["--experiment-name"%string]
                   (Store TypeStr None) VNone)
    "experiment_name" name Hname Hadm.
  attribute Hns (mk_argument ["--nelx"%string] (Store TypeInt None)
                   (VInt 60)) "nelx" nelx Hnelx Hx.
  attribute Hns (mk_argument ["--nely"%string] (Store TypeInt None)
                   (VInt 30)) "nely" nely Hnely Hy.
  attribute Hns (mk_argument ["--nelz"%string] (Store TypeInt None)
                   (VInt 20)) "nelz" nelz Hnelz Hz.
  attribute Hns (mk_argument ["--obstacle-config"%string]
                   (Store TypeStr None) VNone)
    "obstacle_config" cfg Hcfg Hc.
  unfold generate_experiment_name, getattr.
  rewrite Hname, Hnelx, Hnely, Hnelz, Hcfg. cbn [obind].
  assert (Hot : exists t, obstacle_type cfg = Return t).
  { unfold obstacle_type.
    destruct Hc as [->|(p & -> & _)]; cbn [truthy]; [by eexists|].
    destruct (negb _); by eexists. }
  destruct Hot as [t ->]. cbn [obind].
  destruct Hadm as [->|(s & -> & _)]; cbn [truthy]; [by eexists|].
  destruct (negb _); by eexists.
Qed.

(** X14.  The level names that [parse_args] lets through are ones that
    the level selection of [setup_experiment] resolves: with the
    [verbose], [quiet] and [log_level] attributes of a parsed namespace
    it yields one of the five standard levels, [DEBUG] under [--verbose]
    even when [--quiet] is given as well. *)
Theorem parse_args_log_level (logging_has : string -> bool)
    (command_line : list occurrence) (ns : namespace) :
  parse_args py_int py_float command_line = Parsed ns ->
  exists verbose quiet log_level n,
    ns !! "verbose"%string = Some (VBool verbose) /\
    ns !! "quiet"%string = Some (VBool quiet) /\
    ns !! "log_level"%string = Some (VStr log_level) /\
    log_level_value logging_has verbose quiet log_level
      = Return (LevelNumber n) /\
    In n [10; 20; 30; 40; 50]%Z /\
    (verbose = true -> n = 10%Z).
Proof.
  intros Hp.
  pose proof (take_actions_conforms _ _ _ initial_namespace_conforms Hp)
    as Hns.
  attribute Hns (mk_argument ["--verbose"; "-v"]%string StoreTrue
                   (VBool false)) "verbose" verbose Hverbose Hv.
  attribute Hns (mk_argument ["--quiet"; "-q"]%string StoreTrue
                   (VBool false)) "quiet" quiet Hquiet Hq.
  attribute Hns (mk_argument ["--log-level"%string]
                   (Store TypeStr
                      (Some ["DEBUG"; "INFO"; "WARNING"; "ERROR";
                             "CRITICAL"]%string))
                   (VStr "INFO")) "log_level" lvl Hlevel Hl.
  assert (exists l, lvl = VStr l /\
                    In l ["DEBUG"; "INFO"; "WARNING"; "ERROR";
                          "CRITICAL"]%string) as (l & -> & Hchoice).
  { destruct Hl as [->|(l & -> & Hc)].
    - exists "INFO"%string. cbn. tauto.
    - exists l. split; [done|]. cbn [check_value] in Hc.
      by apply existsb_exists in Hc as (c & Hin & ->%String.eqb_eq). }
  assert (exists b, verbose = VBool b) as [bv ->]
    by (destruct Hv as [->| ->]; by eexists).
  assert (exists b, quiet = VBool b) as [bq ->]
    by (destruct Hq as [->| ->]; by eexists).
  exists bv, bq, l.
  destruct bv; [exists 10%Z; cbn; tauto|].
  destruct bq; [exists 30%Z; cbn; intuition discriminate|].
  cbn [In] in Hchoice.
  destruct Hchoice as [<-|[<-|[<-|[<-|[<-|[]]]]]];
    eexists; (split; [done|]); (split; [done|]); (split; [done|]);
    (split; [vm_compute; reflexivity|]); cbn; intuition discriminate.
Qed.

End ParseArgsFacts.

(** ** Strings: characters, the base name of a path, replacement *)

Lemma occurs_app (c : ascii) (s1 s2 : string) :
  occurs c (s1 ++ s2) = (occurs c s1 || occurs c s2)%bool.
Proof.
  induction s1 as [|a s1 IH]; [done|]. simpl.
  rewrite IH. by destruct (Ascii.eqb a c).
Qed.

(** Two texts that agree after a separator which neither has before it
    agree part by part. *)
Lemma append_separator (c : ascii) (s1 s2 r1 r2 : string) :
  occurs c s1 = false -> occurs c s2 = false ->
  (s1 ++ String c r1)%string = (s2 ++ String c r2)%string ->
  s1 = s2 /\ r1 = r2.
Proof.
  revert s2. induction s1 as [|a s1 IH]; intros [|b s2] H1 H2 Heq;
    simpl in *.
  - by injection Heq as ->.
  - injection Heq as <- _. by rewrite Ascii.eqb_refl in H2.
  - injection Heq as -> _. by rewrite Ascii.eqb_refl in H1.
  - injection Heq as -> Heq.
    apply orb_false_iff in H1 as [_ H1], H2 as [_ H2].
    by destruct (IH s2 H1 H2 Heq) as [-> ->].
Qed.

Lemma string_of_uint_digits (c : ascii) (d : Decimal.uint) :
  occurs c (NilEmpty.string_of_uint d) = true ->
  In c ["0"; "1"; "2"; "3"; "4"; "5"; "6"; "7"; "8"; "9"]%char.
Proof.
  induction d as [|d IH|d IH|d IH|d IH|d IH|d IH|d IH|d IH|d IH|d IH];
    cbn [NilEmpty.string_of_uint occurs]; [done|..];
    (intros [Hc|Hc]%orb_true_iff; [|by apply IH]);
    apply Ascii.eqb_eq in Hc as <-; cbn; tauto.
Qed.

Lemma nilzero_string_of_uint_digits (c : ascii) (d : Decimal.uint) :
  occurs c (NilZero.string_of_uint d) = true ->
  In c ["0"; "1"; "2"; "3"; "4"; "5"; "6"; "7"; "8"; "9"]%char.
Proof.
  destruct d; try apply string_of_uint_digits.
  unfold NilZero.string_of_uint. cbn [occurs].
  intros [Hc|Hc]%orb_true_iff; [|done].
  apply Ascii.eqb_eq in Hc as <-. cbn [In]. tauto.
Qed.

(** The text of an [int] is made of digits and the minus sign. *)
Lemma str_of_int_characters (c : ascii) (z : Z) :
  occurs c (str_of_int z) = true ->
  In c ["-"; "0"; "1"; "2"; "3"; "4"; "5"; "6"; "7"; "8"; "9"]%char.
Proof.
  unfold str_of_int, NilZero.string_of_int.
  destruct (Z.to_int z) as [d|d].
  - intros Hc. right. by apply (nilzero_string_of_uint_digits c d).
  - cbn [occurs]. intros [Hc|Hc]%orb_true_iff.
    + apply Ascii.eqb_eq in Hc as <-. by left.
    + right. by apply (nilzero_string_of_uint_digits c d).
Qed.

Lemma str_of_int_without (c : ascii) (z : Z) :
  ~ In c ["-"; "0"; "1"; "2"; "3"; "4"; "5"; "6"; "7"; "8"; "9"]%char ->
  occurs c (str_of_int z) = false.
Proof.
  intros Hc. apply not_true_iff_false. intros Ho.
  by apply Hc, (str_of_int_characters c z).
Qed.

Lemma str_of_int_inj (a b : Z) : str_of_int a = str_of_int b -> a = b.
Proof.
  unfold str_of_int. intros Heq. apply DecimalZ.to_int_inj.
  assert (Hnil : forall z, Z.to_int z <> Decimal.Pos Decimal.Nil /\
                           Z.to_int z <> Decimal.Neg Decimal.Nil).
  { intros [|p|p]; cbn; split; try discriminate;
      intros [= Hp]; by apply DecimalPos.Unsigned.to_uint_nonnil in Hp. }
  destruct (Hnil a) as [Ha1 Ha2], (Hnil b) as [Hb1 Hb2].
  apply (f_equal NilZero.int_of_string) in Heq.
  rewrite !NilZero.isi in Heq by done. congruence.
Qed.

(** The last separator of a path. *)
Lemma rfind_ge (c : ascii) (s : string) : (-1 <= rfind c s)%Z.
Proof.
  induction s as [|a s IH]; cbn [rfind]; [lia|].
  destruct (0 <=? rfind c s)%Z eqn:Hr; [lia|].
  destruct (Ascii.eqb a c); lia.
Qed.

Lemma rfind_absent (c : ascii) (s : string) :
  occurs c s = false -> rfind c s = (-1)%Z.
Proof.
  induction s as [|a s IH]; [done|]. cbn [rfind occurs].
  intros [Ha Hs]%orb_false_iff. by rewrite (IH Hs), Ha.
Qed.

Lemma rfind_append (c : ascii) (d n : string) :
  occurs c n = false ->
  rfind c (d ++ String c n) = Z.of_nat (String.length d).
Proof.
  intros Hn. induction d as [|a d IH]; simpl.
  - by rewrite (rfind_absent c n Hn), Ascii.eqb_refl.
  - rewrite IH.
    destruct (0 <=? Z.of_nat (String.length d))%Z eqn:Hle; [lia|].
    apply Z.leb_gt in Hle. lia.
Qed.

Lemma string_drop_append (d n : string) :
  string_drop (String.length d) (d ++ n) = n.
Proof. induction d as [|a d IH]; [by destruct n|]. exact IH. Qed.

Lemma basename_append (d n : string) :
  occurs "/" n = false -> basename (d ++ String "/" n) = n.
Proof.
  intros Hn. unfold basename. rewrite (rfind_append _ _ _ Hn).
  replace (Z.to_nat (Z.of_nat (String.length d) + 1))
    with (String.length (d ++ "/")) .
  - replace (d ++ String "/" n)%string with ((d ++ "/") ++ n)%string.
    + apply string_drop_append.
    + clear. induction d as [|a d IH]; [done|].
      change (String a ((d ++ "/") ++ n) = String a (d ++ String "/" n)).
      by f_equal.
  - clear. induction d as [|a d IH]; [done|].
    change (S (String.length (d ++ "/")) =
            Z.to_nat (Z.of_nat (S (String.length d)) + 1)).
    rewrite IH. lia.
Qed.

Lemma basename_plain (n : string) :
  occurs "/" n = false -> basename n = n.
Proof.
  intros Hn. unfold basename. rewrite (rfind_absent _ _ Hn).
  by destruct n.
Qed.

(** No separator is left in a base name. *)
Lemma basename_without_separator (p : string) :
  occurs "/" (basename p) = false.
Proof.
  unfold basename. induction p as [|a p IH]; [done|].
  pose proof (rfind_ge "/" p) as Hge. cbn [rfind].
  destruct (0 <=? rfind "/" p)%Z eqn:Hr.
  - apply Z.leb_le in Hr.
    replace (Z.to_nat (rfind "/" p + 1 + 1))
      with (S (Z.to_nat (rfind "/" p + 1))) by lia.
    exact IH.
  - apply Z.leb_gt in Hr.
    assert (Hm : rfind "/" p = (-1)%Z) by lia.
    rewrite Hm in IH. change (occurs "/" p = false) in IH.
    destruct (Ascii.eqb a "/") eqn:Ha.
    + exact IH.
    + change (occurs "/" (String a p) = false).
      cbn [occurs]. by rewrite Ha, IH.
Qed.

(** Replacing by the empty text only takes characters away. *)
Lemma replace_from_occurs (c : ascii) (old : string) (skip : nat)
    (s : string) :
  occurs c s = false -> occurs c (replace_from old "" skip s) = false.
Proof.
  revert skip. induction s as [|a s IH]; intros skip; [done|].
  cbn [occurs replace_from]. intros [Ha Hs]%orb_false_iff.
  destruct skip as [|skip]; [|by apply IH].
  destruct (String.prefix old (String a s)).
  - change (occurs c (replace_from old "" (String.length old - 1) s)
            = false). by apply IH.
  - cbn [occurs]. by rewrite Ha, IH.
Qed.

(** A suffix [.json] after a stem without a dot is what is replaced. *)
Lemma str_replace_suffix (stem : string) :
  occurs "." stem = false ->
  str_replace ".json" "" (stem ++ ".json") = stem.
Proof.
  unfold str_replace. induction stem as [|a stem IH]; [done|].
  cbn [occurs]. intros [Ha Hs]%orb_false_iff.
  change (String a stem ++ ".json")%string
    with (String a (stem ++ ".json")).
  cbn [replace_from String.prefix].
  destruct (Ascii.ascii_dec "." a) as [<-|Hne]; [done|].
  by rewrite (IH Hs).
Qed.

Lemma string_append_assoc (a b c : string) :
  ((a ++ b) ++ c)%string = (a ++ b ++ c)%string.
Proof.
  induction a as [|x a IH]; [done|].
  change (String x ((a ++ b) ++ c) = String x (a ++ b ++ c)).
  by f_equal.
Qed.

(** ** The generated experiment name *)

Section GeneratedName.
Variable float_repr : float -> string.

(** The name of a namespace that has none of its own. *)
Lemma generate_experiment_name_unnamed (args : namespace)
    (nelx nely nelz : Z) (obstacle_config : value) :
  unnamed_grid args nelx nely nelz obstacle_config ->
  generate_experiment_name float_repr args =
  obind (obstacle_type obstacle_config) (fun t =>
    Return (VStr (str_of_int nelx ++ String "x" (str_of_int nely ++
                  String "x" (str_of_int nelz ++ String "_" t))))).
Proof.
  intros ((e & He & Hfalsy) & Hx & Hy & Hz & Hc).
  unfold generate_experiment_name, getattr.
  rewrite He. cbn [obind]. rewrite Hfalsy, Hx, Hy, Hz, Hc. cbn [obind].
  destruct (obstacle_type obstacle_config) as [t|]; [|done].
  cbn [obind format_value]. do 2 f_equal.
  change (String "x" ?s) with ("x" ++ s)%string.
  change (String "_" t) with ("_" ++ t)%string.
  by rewrite !string_append_assoc.
Qed.

(** X15.  Generated names do not collide: two namespaces without a name
    of their own that are given the same name have the same grid, and
    obstacle configurations of the same kind. *)
Theorem generate_experiment_name_injective (args1 args2 : namespace)
    (x1 y1 z1 x2 y2 z2 : Z) (c1 c2 name : value) :
  unnamed_grid args1 x1 y1 z1 c1 ->
  unnamed_grid args2 x2 y2 z2 c2 ->
  generate_experiment_name float_repr args1 = Return name ->
  generate_experiment_name float_repr args2 = Return name ->
  x1 = x2 /\ y1 = y2 /\ z1 = z2 /\ obstacle_type c1 = obstacle_type c2.
Proof.
  intros H1 H2.
  rewrite (generate_experiment_name_unnamed _ _ _ _ _ H1),
    (generate_experiment_name_unnamed _ _ _ _ _ H2).
  destruct (obstacle_type c1) as [t1|], (obstacle_type c2) as [t2|];
    cbn [obind]; try done.
  intros [= <-] [= Heq].
  assert (Hx : forall z, occurs "x" (str_of_int z) = false).
  { intros z. apply str_of_int_without. cbn [In].
    intros Hor. repeat (destruct Hor as [Hor|Hor]; [discriminate Hor|]).
    exact Hor. }
  assert (Hu : forall z, occurs "_" (str_of_int z) = false).
  { intros z. apply str_of_int_without. cbn [In].
    intros Hor. repeat (destruct Hor as [Hor|Hor]; [discriminate Hor|]).
    exact Hor. }
  apply append_separator in Heq as [Hex Heq]; [|apply Hx..].
  apply append_separator in Heq as [Hey Heq]; [|apply Hx..].
  apply append_separator in Heq as [Hez ->]; [|apply Hu..].
  by rewrite (str_of_int_inj _ _ Hex), (str_of_int_inj _ _ Hey),
    (str_of_int_inj _ _ Hez).
Qed.

(** X16.  The obstacle configuration enters the name by the stem of its
    file only: for a file [stem.json] in any directory, with no dot in
    the stem, the name is the three grid sizes joined by [x], an
    underscore, and the stem. *)
Theorem generate_experiment_name_of_config (args : namespace)
    (nelx nely nelz : Z) (directory stem : string) :
  unnamed_grid args nelx nely nelz
    (VStr (directory ++ "/" ++ stem ++ ".json")) ->
  occurs "/" stem = false ->
  occurs "." stem = false ->
  generate_experiment_name float_repr args =
  Return (VStr (str_of_int nelx ++ "x" ++ str_of_int nely ++ "x"
                ++ str_of_int nelz ++ "_" ++ stem)).
Proof.
  intros Hargs Hslash Hdot.
  rewrite (generate_experiment_name_unnamed _ _ _ _ _ Hargs).
  unfold obstacle_type.
  assert (Htruthy : truthy (VStr (directory ++ "/" ++ stem ++ ".json"))
                    = true) by (by destruct directory).
  rewrite Htruthy.
  change (directory ++ "/" ++ stem ++ ".json")%string
    with (directory ++ String "/" (stem ++ ".json"))%string.
  rewrite basename_append.
  - by rewrite (str_replace_suffix stem Hdot).
  - by rewrite occurs_app, Hslash.
Qed.

(** X17.  A generated name is a single path component: it holds no
    [/], whatever the path of the obstacle configuration is. *)
Theorem generate_experiment_name_one_level (args : namespace)
    (nelx nely nelz : Z) (obstacle_config : value) (name : string) :
  unnamed_grid args nelx nely nelz obstacle_config ->
  generate_experiment_name float_repr args = Return (VStr name) ->
  occurs "/" name = false.
Proof.
  intros Hargs.
  rewrite (generate_experiment_name_unnamed _ _ _ _ _ Hargs).
  assert (Hi : forall z, occurs "/" (str_of_int z) = false).
  { intros z. apply str_of_int_without. cbn [In].
    intros Hor. repeat (destruct Hor as [Hor|Hor]; [discriminate Hor|]).
    exact Hor. }
  destruct (obstacle_type obstacle_config) as [t|] eqn:Ht; [|done].
  cbn [obind]. intros [= <-].
  assert (Hot : occurs "/" t = false).
  { unfold obstacle_type in Ht.
    destruct (truthy obstacle_config); [|by injection Ht as <-].
    destruct obstacle_config as [| | | |p]; try done.
    injection Ht as <-. apply replace_from_occurs.
    apply basename_without_separator. }
  rewrite occurs_app, Hi. cbn [orb occurs].
  rewrite occurs_app, Hi. cbn [orb occurs].
  rewrite occurs_app, Hi. cbn [orb occurs].
  by rewrite Hot.
Qed.

End GeneratedName.

(** ** Runs of the command line *)

Lemma parse_args_conforms_witness :
  exists ns,
    parse_args DemoCli.demo_int DemoCli.demo_float
      [("--nelx", Some "8"); ("-v", None);
       ("--log-level", Some "ERROR")]%string = Parsed ns /\
    conforms ns.
Proof.
  exists (<["log_level" := VStr "ERROR"]>
            (<["verbose" := VBool true]>
               (<["nelx" := VInt 8]> initial_namespace)))%string.
  assert (Hrun :
    parse_args DemoCli.demo_int DemoCli.demo_float
      [("--nelx", Some "8"); ("-v", None);
       ("--log-level", Some "ERROR")]%string
    = Parsed (<["log_level" := VStr "ERROR"]>
                (<["verbose" := VBool true]>
                   (<["nelx" := VInt 8]> initial_namespace)))%string)
    by reflexivity.
  split; [exact Hrun|].
  exact (parse_args_conforms _ _ _ _ Hrun).
Defined.

Lemma parse_args_smooth_stl_witness :
  exists ns,
    parse_args DemoCli.demo_int DemoCli.demo_float
      [("--smooth-stl", None); ("--stl-level", Some "0.5")]%string
      = Parsed ns /\
    ns !! "smooth_stl"%string = Some (VBool true).
Proof.
  exists (<["stl_level" := VFloat 0.5]>
            (<["smooth_stl" := VBool true]> initial_namespace))%string.
  assert (Hrun :
    parse_args DemoCli.demo_int DemoCli.demo_float
      [("--smooth-stl", None); ("--stl-level", Some "0.5")]%string
    = Parsed (<["stl_level" := VFloat 0.5]>
                (<["smooth_stl" := VBool true]> initial_namespace))%string)
    by reflexivity.
  split; [exact Hrun|].
  exact (parse_args_smooth_stl _ _ _ _ Hrun).
Defined.

(** [--nelx 8 --nelx 12]: the second occurrence is the one kept. *)
Lemma parse_args_last_occurrence_witness :
  exists ns,
    parse_args DemoCli.demo_int DemoCli.demo_float
      [("--nelx", Some "8"); ("-q", None); ("--nelx", Some "12")]%string
      = Parsed ns /\
    exists s v, Some "12"%string = Some s /\
                get_value DemoCli.demo_int DemoCli.demo_float TypeInt s
                  = Some v /\
                ns !! "nelx"%string = Some v.
Proof.
  exists (<["nelx" := VInt 12]>
            (<["quiet" := VBool true]>
               (<["nelx" := VInt 8]> initial_namespace)))%string.
  assert (Hrun :
    parse_args DemoCli.demo_int DemoCli.demo_float
      [("--nelx", Some "8"); ("-q", None); ("--nelx", Some "12")]%string
    = Parsed (<["nelx" := VInt 12]>
                (<["quiet" := VBool true]>
                   (<["nelx" := VInt 8]> initial_namespace)))%string)
    by reflexivity.
  split; [exact Hrun|].
  refine (parse_args_last_occurrence _ _
            (mk_argument ["--nelx"%string] (Store TypeInt None) (VInt 60))
            _ _ _ Hrun).
  unfold arguments. cbn [In]. tauto.
Defined.

Lemma parse_args_then_generate_experiment_name_witness :
  exists ns,
    parse_args DemoCli.demo_int DemoCli.demo_float
      [("--nelx", Some "8");
       ("--obstacle-config", Some "configs/cylinder.json")]%string
      = Parsed ns /\
    exists name,
      generate_experiment_name DemoCli.demo_repr ns = Return (VStr name).
Proof.
  exists (<["obstacle_config" := VStr "configs/cylinder.json"]>
            (<["nelx" := VInt 8]> initial_namespace))%string.
  assert (Hrun :
    parse_args DemoCli.demo_int DemoCli.demo_float
      [("--nelx", Some "8");
       ("--obstacle-config", Some "configs/cylinder.json")]%string
    = Parsed (<["obstacle_config" := VStr "configs/cylinder.json"]>
                (<["nelx" := VInt 8]> initial_namespace))%string)
    by reflexivity.
  split; [exact Hrun|].
  exact (parse_args_then_generate_experiment_name _ _ _ _ _ Hrun).
Defined.

Lemma parse_args_log_level_witness :
  exists ns,
    parse_args DemoCli.demo_int DemoCli.demo_float
      [("-v", None); ("-q", None); ("--log-level", Some "ERROR")]%string
      = Parsed ns /\
    exists verbose quiet log_level n,
      ns !! "verbose"%string = Some (VBool verbose) /\
      ns !! "quiet"%string = Some (VBool quiet) /\
      ns !! "log_level"%string = Some (VStr log_level) /\
      log_level_value (fun _ => false) verbose quiet log_level
        = Return (LevelNumber n) /\
      In n [10; 20; 30; 40; 50]%Z /\
      (verbose = true -> n = 10%Z).
Proof.
  exists (<["log_level" := VStr "ERROR"]>
            (<["quiet" := VBool true]>
               (<["verbose" := VBool true]> initial_namespace)))%string.
  assert (Hrun :
    parse_args DemoCli.demo_int DemoCli.demo_float
      [("-v", None); ("-q", None); ("--log-level", Some "ERROR")]%string
    = Parsed (<["log_level" := VStr "ERROR"]>
                (<["quiet" := VBool true]>
                   (<["verbose" := VBool true]> initial_namespace)))%string)
    by reflexivity.
  split; [exact Hrun|].
  exact (parse_args_log_level _ _ _ _ _ Hrun).
Defined.

(** Settles [unnamed_grid] on a namespace that is given in full. *)
Ltac unnamed_grid_by_computation :=
  unfold unnamed_grid;
  split; [exists VNone; split; vm_compute; reflexivity|];
  repeat split; vm_compute; reflexivity.

(** Two configurations of the same stem in different directories. *)
Lemma generate_experiment_name_injective_witness :
  (60 = 60 /\ 30 = 30 /\ 20 = 20)%Z /\
  obstacle_type (VStr "a/cylinder.json")
  = obstacle_type (VStr "b/c/cylinder.json").
Proof.
  pose proof (generate_experiment_name_injective DemoCli.demo_repr
    (<["obstacle_config"%string := VStr "a/cylinder.json"]>
       initial_namespace)
    (<["obstacle_config"%string := VStr "b/c/cylinder.json"]>
       initial_namespace)
    60 30 20 60 30 20 (VStr "a/cylinder.json") (VStr "b/c/cylinder.json")
    (VStr "60x30x20_cylinder")) as Hinj.
  destruct Hinj as (Hx & Hy & Hz & Ht);
    [unnamed_grid_by_computation|unnamed_grid_by_computation
    |vm_compute; reflexivity|vm_compute; reflexivity|].
  tauto.
Defined.

Lemma generate_experiment_name_of_config_witness :
  generate_experiment_name DemoCli.demo_repr
    (<["obstacle_config"%string := VStr "configs/cylinder.json"]>
       initial_namespace)
  = Return (VStr "60x30x20_cylinder").
Proof.
  apply (generate_experiment_name_of_config DemoCli.demo_repr _ 60 30 20
           "configs" "cylinder").
  - unnamed_grid_by_computation.
  - reflexivity.
  - reflexivity.
Defined.

Lemma generate_experiment_name_one_level_witness :
  occurs "/" "60x30x20_cylinder" = false.
Proof.
  apply (generate_experiment_name_one_level DemoCli.demo_repr
           (<["obstacle_config"%string := VStr "configs/cylinder.json"]>
              initial_namespace)
           60 30 20 (VStr "configs/cylinder.json")).
  - unnamed_grid_by_computation.
  - vm_compute. reflexivity.
Defined.

(** ** [create_config_dict] *)

(** X18.  The dictionary that [create_config_dict] returns is the
    namespace itself, not a copy: the reference handed back is the one
    received, the namespace has gained a [timestamp] attribute, every
    other attribute and every other object is as before, and the name
    generated from the namespace is the same after the call as before. *)
Theorem create_config_dict_aliases (float_repr : float -> string)
    (now : string) (args : loc) (h : heap) (attributes : namespace) :
  h !! args = Some attributes ->
  exists h' attributes',
    create_config_dict now args h = Return (args, h') /\
    h' !! args = Some attributes' /\
    attributes' !! "timestamp"%string = Some (VStr now) /\
    (forall k, k <> "timestamp"%string ->
               attributes' !! k = attributes !! k) /\
    (forall l, l <> args -> h' !! l = h !! l) /\
    generate_experiment_name float_repr attributes'
    = generate_experiment_name float_repr attributes.
Proof.
  intros Hargs. unfold create_config_dict. rewrite Hargs.
  eexists _, _. split; [reflexivity|].
  unfold heap, namespace in *.
  split; [apply lookup_insert_eq|].
  split; [apply lookup_insert_eq|].
  split; [intros k Hk; by rewrite lookup_insert_ne|].
  split; [intros l Hl; by rewrite lookup_insert_ne|].
  unfold generate_experiment_name, getattr, namespace.
  by rewrite !lookup_insert_ne by done.
Qed.

Lemma create_config_dict_aliases_witness :
  exists h' attributes',
    create_config_dict "2025-01-01T00:00:00" 0%nat
      {[0%nat := initial_namespace]} = Return (0%nat, h') /\
    h' !! 0%nat = Some attributes' /\
    attributes' !! "timestamp"%string
    = Some (VStr "2025-01-01T00:00:00") /\
    (forall k, k <> "timestamp"%string ->
               attributes' !! k = initial_namespace !! k) /\
    (forall l, l <> 0%nat ->
               h' !! l = ({[0%nat := initial_namespace]} : heap) !! l) /\
    generate_experiment_name DemoCli.demo_repr attributes'
    = generate_experiment_name DemoCli.demo_repr initial_namespace.
Proof.
  apply (create_config_dict_aliases DemoCli.demo_repr
           "2025-01-01T00:00:00" 0%nat {[0%nat := initial_namespace]}
           initial_namespace).
  apply lookup_singleton_eq.
Defined.

(** ** [export_result_to_stl] *)

(** X19.  [export_result_to_stl] answers [True] exactly when the export
    was asked for, there is a results manager, and [voxel_to_stl] -
    called on the file [optimized_design.stl] of the experiment directory
    - returned; no exception of the class [Exception] leaves the
    function, a missing results manager included; and nothing is exported
    or logged when the export was not asked for. *)
Theorem export_result_to_stl_outcome
    (voxel_to_stl : option string -> string -> value -> value -> value ->
                    option raised)
    (export_stl : bool) (stl_level smooth_stl smooth_iterations : value)
    (logger : option logger_object) (results_mgr : option string)
    (result_path : option string) :
  let run := export_result_to_stl voxel_to_stl export_stl stl_level
               smooth_stl smooth_iterations logger results_mgr
               result_path in
  (run.2 = inl true <->
   export_stl = true /\
   exists experiment_dir,
     results_mgr = Some experiment_dir /\
     voxel_to_stl result_path
       (path_join experiment_dir "optimized_design.stl") stl_level
       smooth_stl smooth_iterations = None) /\
  (forall e, run.2 <> inr (OfException e)) /\
  (export_stl = false -> run = ([], inl false)) /\
  (logger = None ->
   forall ev, In ev run.1 -> exists i o l s n, ev = VoxelToStl i o l s n).
Proof.
  cbv zeta. unfold export_result_to_stl.
  destruct export_stl; cbn [negb].
  2:{ split; [split; [done|by intros [? _]]|]. split; [done|].
      split; [done|]. by intros _ ev []. }
  destruct results_mgr as [experiment_dir|].
  2:{ split; [split; [done|by intros [_ (d & Hd & _)]]|].
      split; [done|]. split; [done|]. intros -> ev []. }
  destruct (voxel_to_stl _ _ _ _ _) as [[e|]|] eqn:Hcall; cbn [fst snd].
  - split; [split; [done|]|].
    { intros [_ (d & [= <-] & Hd)]. by rewrite Hd in Hcall. }
    split; [done|]. split; [done|].
    intros -> ev. cbn. intros [<-|[]]. by eexists _, _, _, _, _.
  - split; [split; [done|]|].
    { intros [_ (d & [= <-] & Hd)]. by rewrite Hd in Hcall. }
    split; [done|]. split; [done|].
    intros -> ev. cbn. intros [<-|[]]. by eexists _, _, _, _, _.
  - split; [split; [by eauto|done]|].
    split; [done|]. split; [done|].
    intros -> ev. cbn. intros [<-|[]]. by eexists _, _, _, _, _.
Qed.

(** ** Runs of the bar example that end *)

(** A run of the bar example that is stopped by the cap on the passes:
    it ends by returning, not by the fuel of the model. *)
Lemma top3d_no_fuel_witness :
  exists r,
    result (Demo.run (1 # 2) None (1 # 100) 2) = r /\ r <> OutOfFuel.
Proof.
  eexists. split; [reflexivity|].
  unfold Demo.run.
  apply (@top3d_no_fuel (Demo.collaborators (1 # 2))).
Defined.
